(** * instapaper-to-sqlite: the command-line tool [instapaper_to_sqlite/cli.py]

    A shallow embedding of the two commands [bookmarks] and [get_text]
    together with the parts of the Python runtime, of SQLite and of the
    remote Instapaper client they rely on, followed by the properties of
    the text backfill, of the bookmark sync and of credential loading.

    Conventions.
    - A Python [str] and a SQLite TEXT value are both carried by their
      UTF-8 encoding, a Rocq [string] of bytes.
    - A Python exception is a value of [exn]; code that may raise runs in
      the monad [M], which keeps every effect that happened before the
      exception (rows already inserted stay inserted, lines already printed
      stay printed).
    - The console and the network are recorded as a chronological list of
      [event]s. *)

From Stdlib Require Import ZArith List String Ascii Bool Lia Sorted.
From Stdlib Require Import DecimalString DecimalZ DecimalPos.
Import ListNotations.

Local Open Scope string_scope.
Local Open Scope list_scope.
Local Open Scope Z_scope.

(* ================================================================== *)
(** ** Python exceptions *)

Inductive exn : Type :=
| KeyError (key : string)
| FileNotFoundError
| JSONDecodeError
| TypeError
| ValueError
| AttributeError (name : string)
| UnicodeDecodeError
| IntegrityError
| DatabaseError (msg : string)    (* sqlite_utils / sqlite3: no such table *)
| RemoteError (msg : string).     (* anything the Instapaper client raises *)

(** [exn] holds subclasses of [Exception] only, so [except Exception]
    catches every [exn]; [sys.exit] is the separate outcome [Exit] of a
    command. *)
Definition is_Exception (e : exn) : bool := true.

(** [except (KeyError, FileNotFoundError)]. *)
Definition is_KeyError_or_FileNotFoundError (e : exn) : bool :=
  match e with KeyError _ | FileNotFoundError => true | _ => false end.

(** A Python expression: its value, or the exception it raises. *)
Inductive result (A : Type) : Type :=
| Return (a : A)
| Throw (e : exn).
Arguments Return {A} a.
Arguments Throw {A} e.

Definition and_then {A B} (r : result A) (k : A -> result B) : result B :=
  match r with
  | Return a => k a
  | Throw e => Throw e
  end.

Declare Scope result_scope.
Delimit Scope result_scope with result.
Notation "'let*' x ':=' r 'in' k" := (and_then r (fun x => k))
  (at level 10, x name, r at level 100, k at level 200) : result_scope.
Local Open Scope result_scope.

(* ================================================================== *)
(** ** Decimal rendering of integers: Python's [str(int)] *)

Definition str_of_Z (z : Z) : string := NilZero.string_of_int (Z.to_int z).

(** SQLite's conversion of a TEXT value stored into an INTEGER PRIMARY KEY
    column: a decimal integer literal is converted, anything else is a
    datatype mismatch. *)
Definition int_affinity (s : string) : option Z :=
  option_map Z.of_int (NilZero.int_of_string s).

(* ================================================================== *)
(** ** Dictionaries

    A Python [dict] with string keys: insertion-ordered, one binding per
    key.  [dict_set] is [d[k] = v]. *)

Definition dict (V : Type) : Type := list (string * V).

Fixpoint dict_get {V} (d : dict V) (k : string) : option V :=
  match d with
  | [] => None
  | (k', v) :: d' => if String.eqb k k' then Some v else dict_get d' k
  end.

Fixpoint dict_set {V} (d : dict V) (k : string) (v : V) : dict V :=
  match d with
  | [] => [(k, v)]
  | (k', v') :: d' =>
      if String.eqb k k' then (k', v) :: d' else (k', v') :: dict_set d' k v
  end.

(** [d.update(other)] *)
Definition dict_update {V} (d other : dict V) : dict V :=
  fold_left (fun acc kv => dict_set acc (fst kv) (snd kv)) other d.

Definition dict_keys {V} (d : dict V) : list string := map fst d.

(** [d[k]] *)
Definition dict_item {V} (d : dict V) (k : string) : result V :=
  match dict_get d k with
  | Some v => Return v
  | None => Throw (KeyError k)
  end.

(* ================================================================== *)
(** ** Naive datetimes: [datetime.strptime], [isoformat], [timestamp] *)

Record datetime : Type := mk_datetime {
  dt_year : Z; dt_month : Z; dt_day : Z;
  dt_hour : Z; dt_minute : Z; dt_second : Z
}.

Definition is_leap (y : Z) : bool :=
  (y mod 4 =? 0) && (negb (y mod 100 =? 0) || (y mod 400 =? 0)).

Definition days_in_month (y m : Z) : Z :=
  match m with
  | 2 => if is_leap y then 29 else 28
  | 4 | 6 | 9 | 11 => 30
  | _ => 31
  end.

(** [datetime(y, m, d, H, M, S)] raises [ValueError] outside these
    ranges. *)
Definition datetime_valid (d : datetime) : bool :=
  (1 <=? dt_year d) && (dt_year d <=? 9999) &&
  (1 <=? dt_month d) && (dt_month d <=? 12) &&
  (1 <=? dt_day d) && (dt_day d <=? days_in_month (dt_year d) (dt_month d)) &&
  (0 <=? dt_hour d) && (dt_hour d <=? 23) &&
  (0 <=? dt_minute d) && (dt_minute d <=? 59) &&
  (0 <=? dt_second d) && (dt_second d <=? 59).

(** *** The regular expression [_strptime] builds for a format

    Each directive is a group of alternatives tried in order, each
    alternative a sequence of character classes; the format's literal
    characters match themselves, ignoring case ([re.IGNORECASE]).  The
    model reads ASCII digits only. *)

Inductive cclass : Type :=
| Range (lo hi : ascii)           (* [lo-hi] *)
| Chr (c : ascii).

Inductive item : Type :=
| Group (alts : list (list cclass))
| Lit (c : ascii).

Definition in_range (lo hi c : ascii) : bool :=
  (nat_of_ascii lo <=? nat_of_ascii c)%nat && (nat_of_ascii c <=? nat_of_ascii hi)%nat.

Definition cclass_matches (k : cclass) (c : ascii) : bool :=
  match k with
  | Range lo hi => in_range lo hi c
  | Chr x => Ascii.eqb x c
  end.

Definition lower (c : ascii) : ascii :=
  if in_range "A" "Z" c then ascii_of_nat (nat_of_ascii c + 32) else c.

Fixpoint match_alt (a : list cclass) (s : list ascii)
  : option (list ascii * list ascii) :=
  match a with
  | [] => Some ([], s)
  | k :: a' =>
      match s with
      | c :: s' =>
          if cclass_matches k c then
            match match_alt a' s' with
            | Some (m, rest) => Some (c :: m, rest)
            | None => None
            end
          else None
      | [] => None
      end
  end.

Fixpoint first_some {A B} (f : A -> option B) (l : list A) : option B :=
  match l with
  | [] => None
  | x :: l' => match f x with Some b => Some b | None => first_some f l' end
  end.

(** [re.match]: anchored at the start only; an alternative is kept only
    when the rest of the pattern matches after it (backtracking). *)
Fixpoint match_pattern (p : list item) (s : list ascii)
  : option (list (list ascii) * list ascii) :=
  match p with
  | [] => Some ([], s)
  | Lit c :: p' =>
      match s with
      | x :: s' =>
          if Ascii.eqb (lower c) (lower x) then match_pattern p' s' else None
      | [] => None
      end
  | Group alts :: p' =>
      first_some
        (fun a =>
           match match_alt a s with
           | Some (m, rest) =>
               match match_pattern p' rest with
               | Some (gs, r) => Some (m :: gs, r)
               | None => None
               end
           | None => None
           end) alts
  end.

Definition d09 : cclass := Range "0" "9".

(** [%Y] is [\d\d\d\d] *)
Definition re_Y : item := Group [[d09; d09; d09; d09]].
(** [%m] is [1[0-2]|0[1-9]|[1-9]] *)
Definition re_m : item :=
  Group [[Chr "1"; Range "0" "2"]; [Chr "0"; Range "1" "9"]; [Range "1" "9"]].
(** [%d] is [3[0-1]|[1-2]\d|0[1-9]|[1-9]| [1-9]] *)
Definition re_d : item :=
  Group [[Chr "3"; Range "0" "1"]; [Range "1" "2"; d09];
         [Chr "0"; Range "1" "9"]; [Range "1" "9"]; [Chr " "; Range "1" "9"]].
(** [%H] is [2[0-3]|[0-1]\d|\d] *)
Definition re_H : item :=
  Group [[Chr "2"; Range "0" "3"]; [Range "0" "1"; d09]; [d09]].
(** [%M] is [[0-5]\d|\d] *)
Definition re_M : item := Group [[Range "0" "5"; d09]; [d09]].
(** [%S] is [6[0-1]|[0-5]\d|\d] *)
Definition re_S : item :=
  Group [[Chr "6"; Range "0" "1"]; [Range "0" "5"; d09]; [d09]].

(** The format ["%Y-%m-%dT%H:%M:%S"]. *)
Definition iso_format : list item :=
  [re_Y; Lit "-"; re_m; Lit "-"; re_d; Lit "T"; re_H; Lit ":"; re_M; Lit ":"; re_S].

(** [int(group)]; the day group may start with a space, which [int]
    strips. *)
Definition int_of_group (g : list ascii) : Z :=
  fold_left
    (fun acc c => if in_range "0" "9" c
                  then 10 * acc + (Z.of_nat (nat_of_ascii c) - 48)
                  else acc) g 0.

(** [datetime.strptime(x, "%Y-%m-%dT%H:%M:%S")]: every failure is a
    [ValueError] (no match, unconverted data, a field out of range). *)
Definition strptime (x : string) : result datetime :=
  match match_pattern iso_format (list_ascii_of_string x) with
  | Some ([gY; gm; gd; gH; gM; gS], []) =>
      let d := mk_datetime (int_of_group gY) (int_of_group gm) (int_of_group gd)
                           (int_of_group gH) (int_of_group gM) (int_of_group gS) in
      if datetime_valid d then Return d else Throw ValueError
  | _ => Throw ValueError
  end.

(** [_days_before_year], [_days_before_month], [_ymd2ord] of datetime.py *)
Definition days_before_year (y : Z) : Z :=
  let p := y - 1 in p * 365 + p / 4 - p / 100 + p / 400.

Fixpoint days_before_month_aux (y : Z) (m : nat) : Z :=
  match m with
  | O => 0
  | S m' => days_before_month_aux y m' + days_in_month y (Z.of_nat m)
  end.

Definition days_before_month (y m : Z) : Z :=
  days_before_month_aux y (Z.to_nat (m - 1)).

Definition ymd2ord (y m d : Z) : Z :=
  days_before_year y + days_before_month y m + d.

(** [(self - datetime(1970, 1, 1)) // timedelta(0, 1)]: the seconds the
    wall-clock reading would be at if it were UTC. *)
Definition seconds_since_epoch (d : datetime) : Z :=
  (ymd2ord (dt_year d) (dt_month d) (dt_day d) - ymd2ord 1970 1 1) * 86400
  + dt_hour d * 3600 + dt_minute d * 60 + dt_second d.

(** The environment's local timezone: the offset from UTC, in seconds, in
    force at a POSIX time ([time.localtime]). *)
Definition timezone : Type := Z -> Z.

Definition UTC : timezone := fun _ => 0.
Definition fixed_offset (seconds : Z) : timezone := fun _ => seconds.

(** The readings [datetime] can hold: from 0001-01-01T00:00:00 to
    9999-12-31T23:59:59 ([MINYEAR], [MAXYEAR]), as seconds since the
    epoch. *)
Definition min_seconds : Z := seconds_since_epoch (mk_datetime 1 1 1 0 0 0).
Definition max_seconds : Z := seconds_since_epoch (mk_datetime 9999 12 31 23 59 59).

(** [local(u)] of [datetime._mktime]: the wall-clock reading of
    [time.localtime(u)], made into a datetime and counted in seconds;
    making the datetime raises [ValueError] ("year 0 is out of range")
    when the reading leaves the years 1..9999.  ([time.localtime] itself
    is taken to answer, as it does on POSIX systems in this range.) *)
Definition local (tz : timezone) (u : Z) : result Z :=
  let reading := u + tz u in
  if (min_seconds <=? reading) && (reading <=? max_seconds)
  then Return reading
  else Throw ValueError.

(** [datetime._mktime] for a naive datetime with [fold = 0]; each call
    of [local] may raise. *)
Definition mktime (tz : timezone) (d : datetime) : result Z :=
  let max_fold_seconds := 24 * 3600 in
  let t := seconds_since_epoch d in
  let* lt := local tz t in
  let a := lt - t in
  let u1 := t - a in
  let* t1 := local tz u1 in
  let continue_with (b : Z) :=
    let u2 := t - b in
    let* t2 := local tz u2 in
    Return (if t2 =? t then u2
            else if t1 =? t then u1
            else Z.max u1 u2) in
  if t1 =? t then
    let u2 := u1 - max_fold_seconds in
    let* lt2 := local tz u2 in
    let b := lt2 - u2 in
    if a =? b then Return u1 else continue_with b
  else continue_with (t1 - u1).

(** [datetime.timestamp()] of a naive datetime: a float whose value is the
    integer [mktime] (the microsecond field is 0 after this format). *)
Definition timestamp (tz : timezone) (d : datetime) : result Z := mktime tz d.

(** Line 168:
    [isoDateToTimestap = lambda x: datetime.strptime(x, "%Y-%m-%dT%H:%M:%S").timestamp()] *)
Definition isoDateToTimestap (tz : timezone) (x : string) : result Z :=
  let* d := strptime x in
  timestamp tz d.

(** [datetime.isoformat()] with a zero microsecond field, the text
    sqlite_utils stores for a datetime. *)
Definition pad (width : nat) (z : Z) : string :=
  let s := str_of_Z z in
  (String.concat "" (repeat "0" (width - String.length s)%nat) ++ s)%string.

Definition isoformat (d : datetime) : string :=
  (pad 4 (dt_year d) ++ "-" ++ pad 2 (dt_month d) ++ "-" ++ pad 2 (dt_day d) ++ "T" ++
   pad 2 (dt_hour d) ++ ":" ++ pad 2 (dt_minute d) ++ ":" ++ pad 2 (dt_second d))%string.


(* ================================================================== *)
(** ** UTF-8: [bytes.decode('utf-8')] and [len] *)

(** The strict decoder as a scanner: [pending] continuation bytes are
    still owed and the next one must lie in [[lo, hi]]. *)
Fixpoint utf8_scan (pending lo hi : nat) (bs : list ascii) : bool :=
  match bs with
  | [] => Nat.eqb pending 0
  | b :: bs' =>
      let n := nat_of_ascii b in
      match pending with
      | S p => ((lo <=? n) && (n <=? hi))%nat && utf8_scan p 128 191 bs'
      | O =>
          if (n <? 128)%nat then utf8_scan 0 128 191 bs'
          else if ((194 <=? n) && (n <=? 223))%nat then utf8_scan 1 128 191 bs'
          else if (n =? 224)%nat then utf8_scan 2 160 191 bs'
          else if (n =? 237)%nat then utf8_scan 2 128 159 bs'
          else if ((225 <=? n) && (n <=? 239))%nat then utf8_scan 2 128 191 bs'
          else if (n =? 240)%nat then utf8_scan 3 144 191 bs'
          else if ((241 <=? n) && (n <=? 243))%nat then utf8_scan 3 128 191 bs'
          else if (n =? 244)%nat then utf8_scan 3 128 143 bs'
          else false
      end
  end.

Definition utf8_valid (payload : string) : bool :=
  utf8_scan 0 128 191 (list_ascii_of_string payload).

(** [payload.decode('utf-8')] *)
Definition decode_utf8 (payload : string) : result string :=
  if utf8_valid payload then Return payload else Throw UnicodeDecodeError.

(** [len(txt)]: the number of code points, one per non-continuation
    byte. *)
Definition py_len (txt : string) : nat :=
  List.length
    (filter (fun b => negb ((128 <=? nat_of_ascii b) && (nat_of_ascii b <=? 191))%nat)
            (list_ascii_of_string txt)).

(* ================================================================== *)
(** ** Values *)

(** What a SQLite column holds.  A REAL is carried by the text Python
    prints for it; the program does no arithmetic on it. *)
Inductive sqlval : Type :=
| SqlNull
| SqlInt (z : Z)
| SqlReal (repr : string)
| SqlText (s : string).

(** [str(value)] of a value read from the database. *)
Definition py_str (v : sqlval) : string :=
  match v with
  | SqlNull => "None"
  | SqlInt z => str_of_Z z
  | SqlReal r => r
  | SqlText s => s
  end.

(** The attribute values of a remote [Bookmark] object. *)
Inductive pyval : Type :=
| PyNone
| PyBool (b : bool)
| PyInt (z : Z)
| PyFloat (repr : string)
| PyStr (s : string)
| PyDatetime (d : datetime).

(** How sqlite_utils stores a Python value. *)
Definition to_sql (v : pyval) : sqlval :=
  match v with
  | PyNone => SqlNull
  | PyBool b => SqlInt (if b then 1 else 0)
  | PyInt z => SqlInt z
  | PyFloat r => SqlReal r
  | PyStr s => SqlText s
  | PyDatetime d => SqlText (isoformat d)
  end.

(** The values of [str_dict]: strings, and the two timestamps once they
    are re-parsed. *)
Inductive sdval : Type :=
| SStr (s : string)
| SNum (z : Z).

(* ================================================================== *)
(** ** The database

    [bookmarks(bookmark_id INTEGER PRIMARY KEY, ...)] and
    [bookmark_text(bookmark_id INTEGER PRIMARY KEY, text, error)].
    The bookmarks table is the list of its rows in the order a scan
    returns them, which is by key; [bookmark_text] lists its rows as they
    were inserted, and nothing reads that order (the join of line 161
    looks rows up by key).  A bookmarks row stores the columns it was
    given, the others read as NULL. *)

Record bookmark_row : Type := mk_bookmark_row {
  bm_bookmark_id : Z;
  bm_fields : dict sqlval
}.

Record text_row : Type := mk_text_row {
  bt_bookmark_id : Z;
  bt_text : option string;        (* [None] is NULL *)
  bt_error : bool
}.

Record database : Type := mk_database {
  bookmarks_table : option (list bookmark_row);
  bookmark_text_table : option (list text_row)
}.

Definition rows {A} (t : option (list A)) : list A :=
  match t with Some l => l | None => [] end.

Definition bookmark_rows (d : database) : list bookmark_row := rows (bookmarks_table d).
Definition text_rows (d : database) : list text_row := rows (bookmark_text_table d).

Definition table_columns (tbl : list bookmark_row) : list string :=
  "bookmark_id" ::
  remove string_dec "bookmark_id"
    (nodup string_dec (flat_map (fun r => dict_keys (bm_fields r)) tbl)).

(** [b.*] for one row. *)
Definition select_row (cols : list string) (r : bookmark_row) : dict sqlval :=
  map (fun c =>
         (c, if String.eqb c "bookmark_id" then SqlInt (bm_bookmark_id r)
             else match dict_get (bm_fields r) c with
                  | Some v => v
                  | None => SqlNull
                  end)) cols.

Definition text_is_null (t : text_row) : bool :=
  match bt_text t with None => true | Some _ => false end.

(** Line 161:
    [select b.* from bookmarks b left join bookmark_text bt
       on b.bookmark_id = bt.bookmark_id where bt.text is null].
    A bookmark is joined with each row of [bt] carrying its id, or with an
    all-NULL row when there is none; the [where] keeps the joined rows
    whose [bt.text] is NULL. *)
Definition joined_with_null_text (bt : list text_row) (r : bookmark_row)
  : list bookmark_row :=
  match filter (fun t => bt_bookmark_id t =? bm_bookmark_id r) bt with
  | [] => [r]
  | partners => map (fun _ => r) (filter text_is_null partners)
  end.

Definition the_unpopulated_bookmarks_query
  (b : list bookmark_row) (bt : list text_row) : list bookmark_row :=
  flat_map (joined_with_null_text bt) b.

(** [db["bookmark_text"].insert({"bookmark_id": .., "text": .., "error": ..})] *)
Definition id_of_sdval (v : sdval) : option Z :=
  match v with
  | SStr s => int_affinity s
  | SNum z => Some z
  end.

Definition insert_text_row (bt : list text_row) (id : sdval) (text : string) (error : bool)
  : result (list text_row) :=
  match id_of_sdval id with
  | None => Throw IntegrityError                       (* datatype mismatch *)
  | Some i =>
      if existsb (fun t => bt_bookmark_id t =? i) bt
      then Throw IntegrityError                        (* UNIQUE constraint failed *)
      else Return (bt ++ [mk_text_row i (Some text) error])
  end.

Definition has_row (id : Z) (tbl : list bookmark_row) : bool :=
  existsb (fun r => bm_bookmark_id r =? id) tbl.

(** The row with this key gets the record's columns; the others keep
    theirs. *)
Fixpoint update_row (id : Z) (fields : dict sqlval) (tbl : list bookmark_row)
  : list bookmark_row :=
  match tbl with
  | [] => []
  | r :: tbl' =>
      if bm_bookmark_id r =? id
      then mk_bookmark_row id (dict_update (bm_fields r) fields) :: tbl'
      else r :: update_row id fields tbl'
  end.

(** A new row takes its place by key: [bookmark_id] is the INTEGER
    PRIMARY KEY, the rowid a scan of the table goes by. *)
Fixpoint insert_row (row : bookmark_row) (tbl : list bookmark_row) : list bookmark_row :=
  match tbl with
  | [] => [row]
  | r :: tbl' =>
      if bm_bookmark_id row <? bm_bookmark_id r
      then row :: r :: tbl'
      else r :: insert_row row tbl'
  end.

(** One record of [upsert_all(.., pk="bookmark_id", alter=True)]: the row
    with this key takes the record's columns, keeping its others; without
    such a row one is added. *)
Definition upsert_row (id : Z) (fields : dict sqlval) (tbl : list bookmark_row)
  : list bookmark_row :=
  if has_row id tbl
  then update_row id fields tbl
  else insert_row (mk_bookmark_row id fields) tbl.

Definition record_fields (record : dict pyval) : dict sqlval :=
  map (fun kv => (fst kv, to_sql (snd kv)))
      (filter (fun kv => negb (String.eqb (fst kv) "bookmark_id")) record).

(** The model takes integer keys, as the remote service assigns them. *)
Definition record_pk (record : dict pyval) : result Z :=
  match dict_get record "bookmark_id" with
  | Some (PyInt z) => Return z
  | Some _ => Throw IntegrityError
  | None => Throw (KeyError "bookmark_id")
  end.

Fixpoint upsert_all (records : list (dict pyval)) (tbl : list bookmark_row)
  : result (list bookmark_row) :=
  match records with
  | [] => Return tbl
  | record :: records' =>
      let* id := record_pk record in
      upsert_all records' (upsert_row id (record_fields record) tbl)
  end.

(** [list(db.query(the_unpopulated_bookmarks_query))]: one dict per row,
    holding every column of the bookmarks table. *)
Definition unpopulated_bookmarks (d : database) : list (dict sqlval) :=
  map (select_row (table_columns (bookmark_rows d)))
      (the_unpopulated_bookmarks_query (bookmark_rows d) (text_rows d)).

(* ================================================================== *)
(** ** The credentials file *)

#[warnings="-register-all"]
Inductive json : Type :=
| JNull
| JBool (b : bool)
| JNumber (repr : string)
| JString (s : string)
| JArray (items : list json)
| JObject (members : dict json).

(** What [json.load(open(auth))] finds at the path. *)
Inductive auth_file : Type :=
| Absent                          (* open raises FileNotFoundError *)
| Unparseable                     (* json.load raises JSONDecodeError *)
| Parsed (data : json).

(** [data[key]] *)
Definition subscript (data : json) (key : string) : result json :=
  match data with
  | JObject members => dict_item members key
  | _ => Throw TypeError
  end.

Record credentials : Type := mk_credentials {
  consumer_id : json;
  consumer_secret : json;
  login : json;
  password : json
}.

(* ================================================================== *)
(** ** The remote service (pyinstapaper) and the console *)

Record remote : Type := mk_remote {
  (** [Instapaper(consumer_id, consumer_secret).login(login, password)] *)
  login_result : credentials -> result unit;
  (** [instapaper.get_bookmarks(folder, limit=limit)]: the [Bookmark]
      objects, each by its attributes *)
  get_bookmarks_result : string -> Z -> result (list (dict pyval));
  (** [Bookmark(instapaper, **str_dict).get_text()['data']] for the item
      at position [num] of the run *)
  get_text_result : nat -> dict sdval -> result string
}.

Inductive remote_call : Type :=
| Login (c : credentials)
| GetBookmarks (folder : string) (limit : Z)
| GetText (num : nat) (fields : dict sdval).

(** The lines the commands print, by their format string. *)
Inductive console_line : Type :=
| ErrorMessage (msg : string)                 (* utils.error(msg) *)
| FetchingBookmarks                           (* "Fetching bookmarks..." *)
| Downloaded (n : nat) (folder : string)      (* "Downloaded {} bookmarks from folder '{}'." *)
| Iterating (n : nat)                         (* "Iterating through {n} bookmarks without text or errors." *)
| PullingText (num total : nat)               (* "Pulling Text for Bookmark {num} of {total}" *)
| Querying (bookmark_id title : sdval)        (* "Querying for bookmark_id: {} title: {}" *)
| Received (num total len : nat)              (* "For {num} of {total} recieved text of {len} bytes" *)
| CaughtException (num total : nat) (e : exn) (* "Caught Exception querying bookmark {num} of {total}.  Exception: {e}" *)
| FinishedDownloading.                        (* "Finished downloading text" *)

Inductive event : Type :=
| Console (line : console_line)
| Remote (call : remote_call).

Definition is_remote (ev : event) : bool :=
  match ev with Remote _ => true | Console _ => false end.

Definition is_get_text (ev : event) : bool :=
  match ev with Remote (GetText _ _) => true | _ => false end.

Definition is_get_bookmarks (ev : event) : bool :=
  match ev with Remote (GetBookmarks _ _) => true | _ => false end.

(* ================================================================== *)
(** ** The monad of a command: database and event log, with exceptions *)

Record state : Type := mk_state {
  st_db : database;
  st_out : list event
}.

(** How a command stops: normally, on an uncaught exception, or by
    [sys.exit]. *)
Inductive res (A : Type) : Type :=
| Ok (a : A)
| Raise (e : exn)
| Exit.
Arguments Ok {A} a.
Arguments Raise {A} e.
Arguments Exit {A}.

Definition M (A : Type) : Type := state -> res A * state.

Definition ret {A} (a : A) : M A := fun s => (Ok a, s).

Definition bind {A B} (m : M A) (k : A -> M B) : M B :=
  fun s =>
    match m s with
    | (Ok a, s') => k a s'
    | (Raise e, s') => (Raise e, s')
    | (Exit, s') => (Exit, s')
    end.

Definition raise {A} (e : exn) : M A := fun s => (Raise e, s).

Definition exit {A} : M A := fun s => (Exit, s).

Definition lift {A} (r : result A) : M A :=
  fun s => match r with Return a => (Ok a, s) | Throw e => (Raise e, s) end.

(** [try: body except <classes>: handler]; what the body did before it
    raised stays done. *)
Definition try_except {A} (body : M A) (classes : exn -> bool) (handler : exn -> M A) : M A :=
  fun s =>
    match body s with
    | (Raise e, s') => if classes e then handler e s' else (Raise e, s')
    | r => r
    end.

Definition emit (ev : event) : M unit :=
  fun s => (Ok tt, mk_state (st_db s) (st_out s ++ [ev])).

Definition print (line : console_line) : M unit := emit (Console line).

Definition get_db : M database := fun s => (Ok (st_db s), s).

Definition put_db (d : database) : M unit := fun s => (Ok tt, mk_state d (st_out s)).

Definition when (b : bool) (m : M unit) : M unit := if b then m else ret tt.

Declare Scope cmd_scope.
Delimit Scope cmd_scope with cmd.
Notation "x <- c ;; k" := (bind c (fun x => k))
  (at level 61, c at next level, right associativity) : cmd_scope.
Notation "c ;;; k" := (bind c (fun _ => k))
  (at level 61, right associativity) : cmd_scope.
Local Open Scope cmd_scope.

(** [for num, x in enumerate(l): body], counting from [num]. *)
Fixpoint for_enumerate {A} (body : nat -> A -> M unit) (num : nat) (l : list A) : M unit :=
  match l with
  | [] => ret tt
  | x :: l' => body num x ;;; for_enumerate body (S num) l'
  end.

(** [[f(x) for x in l]], stopping at the first exception. *)
Fixpoint map_res {A B} (f : A -> result B) (l : list A) : result (list B) :=
  match l with
  | [] => Return []
  | x :: l' =>
      let* y := f x in
      let* ys := map_res f l' in
      Return (y :: ys)
  end.

(* ================================================================== *)
(** ** The commands *)

Definition auth_error_message : string :=
  "Cannot find authentication data, please run `instapaper-to-sqlite auth`!".

(** Modelled from the spec: [utils.error] of instapaper_to_sqlite/utils.py,
    which is not among the sources.  The spec has it give the user the
    message and terminate the command at once. *)
Definition utils_error {A} (msg : string) : M A :=
  print (ErrorMessage msg) ;;; exit.

(** Lines 99-103 and 144-148: the body of the [try]. *)
Definition read_credentials (auth : auth_file) : result credentials :=
  let* data := match auth with
               | Absent => Throw FileNotFoundError
               | Unparseable => Throw JSONDecodeError
               | Parsed data => Return data
               end in
  let* consumer_id := subscript data "instapaper_consumer_id" in
  let* consumer_secret := subscript data "instapaper_consumer_secret" in
  let* login := subscript data "instapaper_email" in
  let* password := subscript data "instapaper_password" in
  Return (mk_credentials consumer_id consumer_secret login password).

(** Lines 98-107 and 143-152. *)
Definition load_credentials (auth : auth_file) : M credentials :=
  try_except (lift (read_credentials auth))
             is_KeyError_or_FileNotFoundError
             (fun _ => utils_error auth_error_message).

(** Lines 109-110 and 163-164. *)
Definition instapaper_login (world : remote) (c : credentials) : M unit :=
  emit (Remote (Login c)) ;;; lift (login_result world c).

Definition BOOKMARK_KEYS : list string :=
  ["bookmark_id"; "title"; "description"; "hash"; "url"; "progress_timestamp";
   "time"; "progress"; "starred"; "type"; "private_source"].

(** [getattr(entry, key)] *)
Definition getattr (entry : dict pyval) (key : string) : result pyval :=
  match dict_get entry key with
  | Some v => Return v
  | None => Throw (AttributeError key)
  end.

(** Line 113: [{key: getattr(entry, key) for key in BOOKMARK_KEYS}] *)
Definition project (entry : dict pyval) : result (dict pyval) :=
  map_res (fun key => let* v := getattr entry key in Return (key, v)) BOOKMARK_KEYS.

(** Line 119.  A failing record leaves the table as it was. *)
Definition db_upsert_all (records : list (dict pyval)) : M unit :=
  d <- get_db ;;
  match records with
  | [] => ret tt
  | _ =>
      tbl <- lift (upsert_all records (bookmark_rows d)) ;;
      put_db (mk_database (Some tbl) (bookmark_text_table d))
  end.

(** Lines 117-118: [b.update({"folder": folder})] *)
Definition with_folder (folder : string) (b : dict pyval) : dict pyval :=
  dict_update b [("folder", PyStr folder)].

(** Lines 95-119. *)
Definition bookmarks (world : remote) (auth : auth_file) (folder : string) : M unit :=
  c <- load_credentials auth ;;
  print FetchingBookmarks ;;;
  instapaper_login world c ;;;
  emit (Remote (GetBookmarks folder 500)) ;;;
  entries <- lift (get_bookmarks_result world folder 500) ;;
  bookmarks <- lift (map_res project entries) ;;
  print (Downloaded (List.length bookmarks) folder) ;;;
  let bookmarks := map (with_folder folder) bookmarks in
  db_upsert_all bookmarks.

(** Lines 155-159: [create(.., if_not_exists=True, foreign_keys=..)]; the
    foreign key needs the bookmarks table. *)
Definition create_bookmark_text : M unit :=
  d <- get_db ;;
  match bookmarks_table d with
  | None => raise (DatabaseError "no such table: bookmarks")
  | Some _ =>
      match bookmark_text_table d with
      | Some _ => ret tt
      | None => put_db (mk_database (bookmarks_table d) (Some []))
      end
  end.

Definition db_insert_text (id : sdval) (text : string) (error : bool) : M unit :=
  d <- get_db ;;
  bt <- lift (insert_text_row (text_rows d) id text error) ;;
  put_db (mk_database (bookmarks_table d) (Some bt)).

(** Lines 169-171. *)
Definition retime (tz : timezone) (str_dict : dict sdval) (key : string)
  : result (dict sdval) :=
  let* x := dict_item str_dict key in
  let* t := match x with
            | SStr x => isoDateToTimestap tz x
            | SNum _ => Throw TypeError    (* strptime wants a str *)
            end in
  Return (dict_set str_dict key (SNum t)).

Definition make_str_dict (tz : timezone) (row : dict sqlval) : result (dict sdval) :=
  let str_dict := map (fun kv => (fst kv, SStr (py_str (snd kv)))) row in
  let* str_dict := retime tz str_dict "progress_timestamp" in
  retime tz str_dict "time".

(** Lines 174-180: the body of the [try]. *)
Definition pull_text (world : remote) (trace : bool) (num total : nat)
  (str_dict : dict sdval) : M unit :=
  print (PullingText num total) ;;;
  when trace (id <- lift (dict_item str_dict "bookmark_id") ;;
              title <- lift (dict_item str_dict "title") ;;
              print (Querying id title)) ;;;
  emit (Remote (GetText num str_dict)) ;;;
  data <- lift (get_text_result world num str_dict) ;;
  txt <- lift (decode_utf8 data) ;;
  id <- lift (dict_item str_dict "bookmark_id") ;;
  db_insert_text id txt false ;;;
  when trace (print (Received num total (py_len txt))).

(** Lines 182-183: the handler. *)
Definition record_failure (num total : nat) (str_dict : dict sdval) (e : exn) : M unit :=
  print (CaughtException num total e) ;;;
  id <- lift (dict_item str_dict "bookmark_id") ;;
  db_insert_text id "" true.

(** Lines 168-183: one turn of the loop. *)
Definition get_text_item (tz : timezone) (world : remote) (trace : bool) (total : nat)
  (num : nat) (row : dict sqlval) : M unit :=
  str_dict <- lift (make_str_dict tz row) ;;
  try_except (pull_text world trace num total str_dict)
             is_Exception
             (record_failure num total str_dict).

(** Lines 140-184. *)
Definition get_text (tz : timezone) (world : remote) (auth : auth_file) (trace : bool)
  : M unit :=
  c <- load_credentials auth ;;
  create_bookmark_text ;;;
  d <- get_db ;;
  let unpopulated_bookmarks := unpopulated_bookmarks d in
  instapaper_login world c ;;;
  when trace (print (Iterating (List.length unpopulated_bookmarks))) ;;;
  for_enumerate (get_text_item tz world trace (List.length unpopulated_bookmarks))
                0%nat unpopulated_bookmarks ;;;
  when trace (print FinishedDownloading).

(** A command started on a database, with an empty log. *)
Definition run {A} (m : M A) (d : database) : res A * state := m (mk_state d []).

(* ================================================================== *)
(** ** Vocabulary of the statements *)

Definition has_text_row (id : Z) (bt : list text_row) : bool :=
  existsb (fun t => bt_bookmark_id t =? id) bt.

Definition with_text_rows (d : database) (bt : list text_row) : database :=
  mk_database (bookmarks_table d) (Some bt).

(** What the [try] block of lines 173-180 yields just before its insert:
    the decoded text, or the exception that leaves it (a missing key of
    the trace line, the remote call, the decoding). *)
Definition item_outcome (world : remote) (trace : bool) (num : nat) (str_dict : dict sdval)
  : result string :=
  let* _ := if trace then
              let* _ := dict_item str_dict "bookmark_id" in
              let* _ := dict_item str_dict "title" in
              Return tt
            else Return tt in
  let* data := get_text_result world num str_dict in
  decode_utf8 data.

Definition succeeded {A} (o : result A) : bool :=
  match o with Return _ => true | Throw _ => false end.

(** The row line 179 (success) or line 183 (failure) inserts. *)
Definition item_row (id : Z) (o : result string) : text_row :=
  match o with
  | Return txt => mk_text_row id (Some txt) false
  | Throw _ => mk_text_row id (Some "") true
  end.

Definition row_of (io : Z * result string) : text_row := item_row (fst io) (snd io).

Section LoopEffect.
Variables (tz : timezone) (world : remote) (trace : bool) (cols : list string).

(** The loop of lines 167-183 seen from the database: how it ends and
    the rows it adds to a [bookmark_text] holding [bt], turn by turn. *)
Fixpoint loop_effect (num : nat) (rs : list bookmark_row) (bt : list text_row)
  : res unit * list text_row :=
  match rs with
  | [] => (Ok tt, [])
  | r :: rs' =>
      match make_str_dict tz (select_row cols r) with
      | Throw e => (Raise e, [])
      | Return str_dict =>
          if has_text_row (bm_bookmark_id r) bt then (Raise IntegrityError, [])
          else
            let t := item_row (bm_bookmark_id r) (item_outcome world trace num str_dict) in
            let (r', new) := loop_effect (S num) rs' (bt ++ [t]) in
            (r', t :: new)
      end
  end.

(** The outcome of each working-set item whose timestamps convert, by
    bookmark id, up to the first one that does not. *)
Fixpoint outcomes (num : nat) (rs : list bookmark_row) : list (Z * result string) :=
  match rs with
  | [] => []
  | r :: rs' =>
      match make_str_dict tz (select_row cols r) with
      | Throw _ => []
      | Return str_dict =>
          (bm_bookmark_id r, item_outcome world trace num str_dict) :: outcomes (S num) rs'
      end
  end.
End LoopEffect.

(** The spec's working set: the bookmarks with no [bookmark_text] row at
    all (a left anti-join on [bookmark_id]). *)
Definition anti_join (b : list bookmark_row) (bt : list text_row) : list bookmark_row :=
  filter (fun r => negb (has_text_row (bm_bookmark_id r) bt)) b.

(** Every stored text is non-NULL. *)
Definition texts_not_null (bt : list text_row) : Prop :=
  Forall (fun t => bt_text t <> None) bt.

(** The primary keys of a table are pairwise different. *)
Definition bookmarks_pk (tbl : list bookmark_row) : Prop :=
  NoDup (map bm_bookmark_id tbl).

Definition bookmark_text_pk (bt : list text_row) : Prop :=
  NoDup (map bt_bookmark_id bt).

(** The database once rows are added to [bookmark_text]. *)
Definition add_text_rows (d : database) (new : list text_row) : database :=
  match new with
  | [] => d
  | _ => with_text_rows d (text_rows d ++ new)
  end.

(** The database once [bookmark_text] exists (lines 155-159). *)
Definition with_bookmark_text (d : database) : database :=
  match bookmark_text_table d with
  | Some _ => d
  | None => mk_database (bookmarks_table d) (Some [])
  end.

(** The working set of a database, as rows of the bookmarks table. *)
Definition working_set (d : database) : list bookmark_row :=
  the_unpopulated_bookmarks_query (bookmark_rows d) (text_rows d).

(** Every failed item among the first [done] left its line on the
    console: its position and the exception. *)
Definition caught_logged (tz : timezone) (world : remote) (trace : bool) (total : nat)
  (tbl : list bookmark_row) (num : nat) (rs : list bookmark_row) (done : nat)
  (evs : list event) : Prop :=
  forall i id e,
    (i < done)%nat ->
    nth_error (outcomes tz world trace (table_columns tbl) num rs) i = Some (id, Throw e) ->
    In (Console (CaughtException (num + i) total e)) evs.

(** A stored row records an item's outcome: the decoded text with
    [error = false], or the empty text with [error = true]. *)
Definition row_records (t : text_row) (io : Z * result string) : Prop :=
  bt_bookmark_id t = fst io /\
  match snd io with
  | Return txt => bt_text t = Some txt /\ bt_error t = false
  | Throw _ => bt_text t = Some "" /\ bt_error t = true
  end.

(** The keys a credentials file must have (lines 100-103). *)
Definition credential_keys : list string :=
  ["instapaper_consumer_id"; "instapaper_consumer_secret";
   "instapaper_email"; "instapaper_password"].

Definition missing_key (members : dict json) : Prop :=
  exists key, In key credential_keys /\ dict_get members key = None.

(** What the [bookmarks] command has logged once it has asked for the
    listing. *)
Definition bookmarks_log (folder : string) (c : credentials) : list event :=
  [Console FetchingBookmarks; Remote (Login c); Remote (GetBookmarks folder 500)].

(** A record as lines 112-118 build it from a remote bookmark: the fixed
    keys with the bookmark's attributes, then the folder. *)
Definition projected (folder : string) (entry record : dict pyval) : Prop :=
  dict_keys record = BOOKMARK_KEYS ++ ["folder"]
  /\ dict_get record "folder" = Some (PyStr folder)
  /\ forall key, In key BOOKMARK_KEYS ->
       dict_get entry key <> None /\ dict_get record key = dict_get entry key.

(** The row of a table with a given key, if any. *)
Definition find_row (id : Z) (tbl : list bookmark_row) : option bookmark_row :=
  find (fun r => bm_bookmark_id r =? id) tbl.

(* ================================================================== *)
(** ** Sample data *)

Definition sample_credentials : credentials :=
  mk_credentials (JString "key") (JString "secret")
                 (JString "reader@example.org") (JString "hunter2").

Definition sample_auth : auth_file :=
  Parsed (JObject [("instapaper_consumer_id", JString "key");
                   ("instapaper_consumer_secret", JString "secret");
                   ("instapaper_email", JString "reader@example.org");
                   ("instapaper_password", JString "hunter2")]).

(** A row as the [bookmarks] command stores it. *)
Definition sample_bookmark (id : Z) (progress_timestamp : string) : bookmark_row :=
  mk_bookmark_row id
    [("title", SqlText "An article"); ("description", SqlText "");
     ("hash", SqlText "r4nd0m"); ("url", SqlText "https://example.org/a");
     ("progress_timestamp", SqlText progress_timestamp);
     ("time", SqlText "2021-03-04T10:15:30"); ("progress", SqlReal "0.0");
     ("starred", SqlText "0"); ("type", SqlText "bookmark");
     ("private_source", SqlText ""); ("folder", SqlText "archive")].

Definition three_bookmarks : database :=
  mk_database (Some [sample_bookmark 1 "2021-03-04T10:15:30";
                     sample_bookmark 2 "2021-03-05T08:00:00";
                     sample_bookmark 3 "2021-03-06T23:59:59"]) None.

(** The second bookmark carries a malformed [progress_timestamp]. *)
Definition malformed_bookmarks : database :=
  mk_database (Some [sample_bookmark 1 "2021-03-04T10:15:30";
                     sample_bookmark 2 "not-a-date";
                     sample_bookmark 3 "2021-03-06T23:59:59"]) None.

(** A service whose second text fetch of a run raises, whose third returns
    an empty payload, and whose others return an article. *)
Definition flaky_remote : remote :=
  mk_remote (fun _ => Return tt) (fun _ _ => Return [])
            (fun num _ => match num with
                          | 1%nat => Throw (RemoteError "500")
                          | 2%nat => Return ""
                          | _ => Return "Full text."
                          end).

(** A service that always answers. *)
Definition steady_remote : remote :=
  mk_remote (fun _ => Return tt) (fun _ _ => Return [])
            (fun _ _ => Return "Full text.").

(** The same database once the first bookmark has its text. *)
Definition half_done : database :=
  mk_database (bookmarks_table three_bookmarks)
              (Some [mk_text_row 1 (Some "Full text.") false]).

(** A remote bookmark, by its attributes. *)
Definition sample_entry (id : Z) (title : string) : dict pyval :=
  [("bookmark_id", PyInt id); ("title", PyStr title); ("description", PyStr "");
   ("hash", PyStr "r4nd0m"); ("url", PyStr "https://example.org/a");
   ("progress_timestamp", PyDatetime (mk_datetime 2021 3 4 10 15 30));
   ("time", PyDatetime (mk_datetime 2021 3 4 10 15 30)); ("progress", PyFloat "0.0");
   ("starred", PyStr "0"); ("type", PyStr "bookmark"); ("private_source", PyStr "")].

(** A service whose listing is [entries]. *)
Definition listing_remote (entries : list (dict pyval)) : remote :=
  mk_remote (fun _ => Return tt) (fun _ _ => Return entries) (fun _ _ => Return "Full text.").

Definition empty_database : database := mk_database None None.

(* ================================================================== *)
(** ** The auth command *)

(** What the user types at the four prompts of lines 32-35. *)
Record answers : Type := mk_answers {
  ans_consumer_id : string;
  ans_consumer_secret : string;
  ans_login : string;
  ans_password : string
}.

(** [click.echo(text)] and [click.prompt(text, hide_input=..)]. *)
Inductive auth_event : Type :=
| Echo (text : string)
| Prompt (text : string) (hide_input : bool).

(** Lines 36-43: the argument of [auth_data.update]. *)
Definition entered (a : answers) : dict json :=
  [("instapaper_consumer_id", JString (ans_consumer_id a));
   ("instapaper_consumer_secret", JString (ans_consumer_secret a));
   ("instapaper_email", JString (ans_login a));
   ("instapaper_password", JString (ans_password a))].

(** Lines 29-35. *)
Definition auth_dialogue : list auth_event :=
  [Echo "In Instapaper, get a Full API key following the process at https://www.instapaper.com/api.";
   Prompt "OAuth Consumer ID" false;
   Prompt "OAuth Consumer Secret" false;
   Prompt "Instapaper login (email)" false;
   Prompt "Instapaper password" true].

(** Lines 46-53. *)
Definition auth_farewell (path : string) : list auth_event :=
  [Echo EmptyString;
   Echo ("Your authentication credentials have been saved to " ++ path
         ++ ". You can now import articles by running:")%string;
   Echo EmptyString;
   Echo "    $ instapaper-to-sqlite bookmarks instapaper.db"].

(** Lines 24-53.  The file at [path] is carried by what [json.load] reads
    from it, before and after; the command returns how it ends, the file
    it leaves and what it showed.  [auth_data.update] exists on a dict
    only. *)
Definition auth (path : string) (file : auth_file) (a : answers)
  : res unit * auth_file * list auth_event :=
  let loaded := match file with
                | Absent => Return (JObject [])
                | Unparseable => Throw JSONDecodeError
                | Parsed data => Return data
                end in
  match loaded with
  | Throw e => (Raise e, file, [])
  | Return (JObject auth_data) =>
      (Ok tt, Parsed (JObject (dict_update auth_data (entered a))),
       auth_dialogue ++ auth_farewell path)
  | Return _ => (Raise (AttributeError "update"), file, auth_dialogue)
  end.

Definition entered_credentials (a : answers) : credentials :=
  mk_credentials (JString (ans_consumer_id a)) (JString (ans_consumer_secret a))
                 (JString (ans_login a)) (JString (ans_password a)).

Definition sample_answers : answers :=
  mk_answers "key" "secret" "reader@example.org" "hunter2".

(* ================================================================== *)
(** ** Vocabulary of the further statements *)

Definition alternatives (i : item) : list (list cclass) :=
  match i with Group alts => alts | Lit _ => [] end.

(** The alternative a directive's group takes on a text that it consumes
    whole, whatever follows the text: the first one that matches all of
    it, every earlier one failing inside it. *)
Fixpoint picks (alts : list (list cclass)) (s : list ascii) : bool :=
  match alts with
  | [] => false
  | a :: alts' =>
      match match_alt a s with
      | Some (_, []) => true
      | Some (_, _ :: _) => false
      | None => (List.length a <=? List.length s)%nat && picks alts' s
      end
  end.

(** A number is printed on [width] digits that the directive [i] reads
    back. *)
Definition prints_and_reads (width : nat) (i : item) (n : nat) : bool :=
  let s := list_ascii_of_string (pad width (Z.of_nat n)) in
  picks (alternatives i) s && (int_of_group s =? Z.of_nat n).

(** A stored bookmark whose two timestamps are what sqlite_utils writes
    for a datetime. *)
Definition well_timed (r : bookmark_row) : Prop :=
  exists d1 d2,
    datetime_valid d1 = true /\ datetime_valid d2 = true
    /\ dict_get (bm_fields r) "progress_timestamp" = Some (SqlText (isoformat d1))
    /\ dict_get (bm_fields r) "time" = Some (SqlText (isoformat d2)).

(** A remote bookmark whose two timestamps are datetimes. *)
Definition timed_entry (entry : dict pyval) : Prop :=
  exists d1 d2,
    datetime_valid d1 = true /\ datetime_valid d2 = true
    /\ dict_get entry "progress_timestamp" = Some (PyDatetime d1)
    /\ dict_get entry "time" = Some (PyDatetime d2).

(** A local timezone whose offset from UTC stays within a day, as every
    civil one does. *)
Definition within_a_day (tz : timezone) : Prop := forall u, -86400 < tz u < 86400.

(** A stored bookmark whose two timestamps have that form and lie in the
    years 2..9998, away from the ends of what [datetime] holds. *)
Definition timed_mid_range (r : bookmark_row) : Prop :=
  exists d1 d2,
    datetime_valid d1 = true /\ datetime_valid d2 = true
    /\ 2 <= dt_year d1 <= 9998 /\ 2 <= dt_year d2 <= 9998
    /\ dict_get (bm_fields r) "progress_timestamp" = Some (SqlText (isoformat d1))
    /\ dict_get (bm_fields r) "time" = Some (SqlText (isoformat d2)).

(** [str(value)] as [str_dict] holds it before the timestamps are
    re-parsed. *)
Definition as_text (v : sqlval) : sdval := SStr (py_str v).

(** How a run of [get_text] ends and the database it leaves. *)
Definition get_text_ends (tz : timezone) (world : remote) (auth : auth_file)
  (trace : bool) (d : database) : res unit * database :=
  match read_credentials auth with
  | Throw e => (if is_KeyError_or_FileNotFoundError e then Exit else Raise e, d)
  | Return c =>
      match bookmarks_table d with
      | None => (Raise (DatabaseError "no such table: bookmarks"), d)
      | Some tbl =>
          match login_result world c with
          | Throw e => (Raise e, with_bookmark_text d)
          | Return _ =>
              let (r, new) := loop_effect tz world trace (table_columns tbl) 0
                                          (working_set d) (text_rows d) in
              (r, add_text_rows (with_bookmark_text d) new)
          end
      end
  end.

(** The remote calls among the events, in order. *)
Definition remote_calls (out : list event) : list remote_call :=
  flat_map (fun ev => match ev with Remote call => [call] | Console _ => [] end) out.

(** The trace line of line 176 finds its two keys, or is not asked for. *)
Definition traced_ok (trace : bool) (str_dict : dict sdval) : bool :=
  negb trace
  || match dict_get str_dict "bookmark_id", dict_get str_dict "title" with
     | Some _, Some _ => true
     | _, _ => false
     end.

(** The remote call of one turn of the loop. *)
Definition item_fetches (trace : bool) (num : nat) (str_dict : dict sdval)
  : list remote_call :=
  if traced_ok trace str_dict then [GetText num str_dict] else [].

Section LoopFetches.
Variables (tz : timezone) (world : remote) (trace : bool) (cols : list string).

(** The remote calls of the loop of lines 167-183, turn by turn. *)
Fixpoint loop_fetches (num : nat) (rs : list bookmark_row) (bt : list text_row)
  : list remote_call :=
  match rs with
  | [] => []
  | r :: rs' =>
      match make_str_dict tz (select_row cols r) with
      | Throw _ => []
      | Return str_dict =>
          item_fetches trace num str_dict
          ++ (if has_text_row (bm_bookmark_id r) bt then []
              else loop_fetches (S num) rs'
                     (bt ++ [item_row (bm_bookmark_id r)
                                      (item_outcome world trace num str_dict)]))
      end
  end.
End LoopFetches.

(** The position a text fetch is made for. *)
Definition fetch_position (call : remote_call) : nat :=
  match call with GetText num _ => num | _ => 0%nat end.

Definition is_fetch (call : remote_call) : bool :=
  match call with GetText _ _ => true | _ => false end.

(** The remote calls of a run of [get_text]: none before the credentials
    are read and the table is there, then the login, then the fetches of
    the loop. *)
Definition get_text_calls (tz : timezone) (world : remote) (auth : auth_file)
  (trace : bool) (d : database) : list remote_call :=
  match read_credentials auth with
  | Throw _ => []
  | Return c =>
      match bookmarks_table d with
      | None => []
      | Some tbl =>
          Login c ::
          match login_result world c with
          | Throw _ => []
          | Return _ =>
              loop_fetches tz world trace (table_columns tbl) 0 (working_set d) (text_rows d)
          end
      end
  end.

(** The fetches made, from position [num] on, for bookmarks whose
    dictionaries are [sds]: one each, in order. *)
Definition fetches_from (num : nat) (sds : list (dict sdval)) : list remote_call :=
  map (fun p => GetText (fst p) (snd p)) (combine (seq num (List.length sds)) sds).

(** A bookmark whose [bookmark_text] row holds no text: the query of line
    161 keeps it in the working set. *)
Definition null_text_row : database :=
  mk_database (bookmarks_table three_bookmarks) (Some [mk_text_row 1 None false]).

(** A bookmarks table without a [title] column. *)
Definition untitled_bookmarks : database :=
  mk_database (Some [mk_bookmark_row 1 [("progress_timestamp", SqlText "2021-03-04T10:15:30");
                                         ("time", SqlText "2021-03-04T10:15:30")]]) None.

(* ================================================================== *)
(** * Properties *)


(** ** Integers and dictionaries *)

Lemma int_affinity_str_of_Z (z : Z) : int_affinity (str_of_Z z) = Some z.
Proof.
  unfold int_affinity, str_of_Z.
  rewrite NilZero.isi.
  - simpl. now rewrite DecimalZ.of_to.
  - destruct z; simpl; try discriminate.
    intros [= H]. now apply (Unsigned.to_uint_nonnil p).
  - destruct z; simpl; try discriminate.
    intros [= H]. now apply (Unsigned.to_uint_nonnil p).
Qed.

Lemma dict_get_set_ne {V} (d : dict V) (k k' : string) (v : V) :
  k <> k' -> dict_get (dict_set d k v) k' = dict_get d k'.
Proof.
  intros Hne. induction d as [|[k0 v0] d IH]; simpl.
  - destruct (String.eqb_spec k' k); congruence.
  - destruct (String.eqb_spec k k0) as [->|Hk]; simpl.
    + destruct (String.eqb_spec k' k0); congruence.
    + now rewrite IH.
Qed.

Lemma dict_get_map {V W} (f : V -> W) (d : dict V) (k : string) :
  dict_get (map (fun kv => (fst kv, f (snd kv))) d) k = option_map f (dict_get d k).
Proof.
  induction d as [|[k0 v0] d IH]; simpl; [reflexivity|].
  now destruct (String.eqb k k0).
Qed.

(** ** One turn of the loop *)

Lemma retime_bookmark_id tz d key d' :
  retime tz d key = Return d' -> key <> "bookmark_id" ->
  dict_get d' "bookmark_id" = dict_get d "bookmark_id".
Proof.
  unfold retime, and_then. intros H Hk.
  destruct (dict_item d key) as [[x|z]|]; try discriminate.
  destruct (isoDateToTimestap tz x); try discriminate.
  injection H as <-. now apply dict_get_set_ne.
Qed.

Lemma make_str_dict_bookmark_id tz tbl r sd :
  make_str_dict tz (select_row (table_columns tbl) r) = Return sd ->
  dict_get sd "bookmark_id" = Some (SStr (str_of_Z (bm_bookmark_id r))).
Proof.
  unfold make_str_dict, and_then. intros H.
  match type of H with
  | match retime tz ?d0 _ with _ => _ end = _ =>
      destruct (retime tz d0 "progress_timestamp") as [d1|] eqn:E1; [|discriminate];
      apply retime_bookmark_id in E1; [|discriminate];
      apply retime_bookmark_id in H; [|discriminate]
  end.
  rewrite H, E1. reflexivity.
Qed.

Section Item.
Variables (tz : timezone) (world : remote) (trace : bool) (total num : nat).

Lemma get_text_item_throw row e s :
  make_str_dict tz row = Throw e ->
  get_text_item tz world trace total num row s = (Raise e, s).
Proof.
  intros H. unfold get_text_item, bind, lift. now rewrite H.
Qed.

Ltac open_item Hsd Hid Hdup :=
  unfold get_text_item, bind, lift; rewrite Hsd;
  unfold item_outcome, with_text_rows;
  unfold try_except, pull_text, record_failure, db_insert_text, insert_text_row,
    print, emit, when, bind, lift, get_db, put_db, ret, dict_item, decode_utf8,
    is_Exception, and_then; simpl;
  unfold has_text_row in Hdup; simpl in Hdup;
  rewrite Hid; simpl; rewrite ?int_affinity_str_of_Z, ?Hdup;
  destruct trace; simpl;
  repeat match goal with
    | |- context [match dict_get ?sd "title" with _ => _ end] =>
        destruct (dict_get sd "title"); simpl
    | |- context [match get_text_result ?w ?n ?d with _ => _ end] =>
        destruct (get_text_result w n d); simpl
    | |- context [if utf8_valid ?p then _ else _] => destruct (utf8_valid p); simpl
    | |- _ => progress (rewrite ?Hid, ?int_affinity_str_of_Z, ?Hdup; simpl)
    end;
  rewrite <- ?app_assoc.

Lemma get_text_item_dup row sd id s :
  make_str_dict tz row = Return sd ->
  dict_get sd "bookmark_id" = Some (SStr (str_of_Z id)) ->
  has_text_row id (text_rows (st_db s)) = true ->
  exists evs,
    get_text_item tz world trace total num row s
    = (Raise IntegrityError, mk_state (st_db s) (st_out s ++ evs))
    /\ (forall ev, In ev evs -> is_remote ev = true -> is_get_text ev = true).
Proof.
  intros Hsd Hid Hdup. destruct s as [d out].
  open_item Hsd Hid Hdup;
    (eexists; split; [reflexivity|]);
    intros ev Hin Hrem; simpl in Hin;
    repeat (destruct Hin as [<-|Hin]; [try discriminate Hrem; try reflexivity|]);
    try contradiction.
Qed.

Lemma get_text_item_ok row sd id s :
  make_str_dict tz row = Return sd ->
  dict_get sd "bookmark_id" = Some (SStr (str_of_Z id)) ->
  has_text_row id (text_rows (st_db s)) = false ->
  exists evs,
    get_text_item tz world trace total num row s
    = (Ok tt,
       mk_state (with_text_rows (st_db s)
                   (text_rows (st_db s) ++ [item_row id (item_outcome world trace num sd)]))
                (st_out s ++ evs))
    /\ (forall e, item_outcome world trace num sd = Throw e ->
                  In (Console (CaughtException num total e)) evs)
    /\ (forall ev, In ev evs -> is_remote ev = true -> is_get_text ev = true).
Proof.
  intros Hsd Hid Hdup. destruct s as [d out].
  open_item Hsd Hid Hdup;
    (eexists; split; [reflexivity|]); simpl;
    (split; [first [intros e0 [= <-] | intros e0 [=]]; auto 10 |]);
    intros ev Hin Hrem; simpl in Hin;
    repeat (destruct Hin as [<-|Hin]; [try discriminate Hrem; try reflexivity|]);
    try contradiction.
Qed.
End Item.

Lemma load_credentials_run auth s :
  load_credentials auth s
  = match read_credentials auth with
    | Return c => (Ok c, s)
    | Throw e =>
        if is_KeyError_or_FileNotFoundError e
        then (Exit, mk_state (st_db s) (st_out s ++ [Console (ErrorMessage auth_error_message)]))
        else (Raise e, s)
    end.
Proof.
  unfold load_credentials, try_except, lift, utils_error, bind, print, emit, exit.
  destruct (read_credentials auth) as [c|e]; reflexivity.
Qed.

(** ** Credentials *)

Lemma read_credentials_object members :
  (exists c, read_credentials (Parsed (JObject members)) = Return c
             /\ forall key, In key credential_keys -> dict_get members key <> None)
  \/ (exists key, read_credentials (Parsed (JObject members)) = Throw (KeyError key)
                  /\ In key credential_keys /\ dict_get members key = None).
Proof.
  unfold read_credentials, and_then, subscript, dict_item, credential_keys.
  destruct (dict_get members "instapaper_consumer_id") eqn:E1;
    [|right; eexists; split; [reflexivity|]; simpl; auto].
  destruct (dict_get members "instapaper_consumer_secret") eqn:E2;
    [|right; eexists; split; [reflexivity|]; simpl; auto].
  destruct (dict_get members "instapaper_email") eqn:E3;
    [|right; eexists; split; [reflexivity|]; simpl; auto].
  destruct (dict_get members "instapaper_password") eqn:E4;
    [|right; eexists; split; [reflexivity|]; simpl; auto 6].
  left. eexists. split; [reflexivity|].
  intros key [<-|[<-|[<-|[<-|[]]]]]; congruence.
Qed.

(** The message is for a file that is absent or lacks a key, and for
    nothing else. *)
Lemma message_cases auth e :
  read_credentials auth = Throw e ->
  (is_KeyError_or_FileNotFoundError e = true
   <-> (auth = Absent
        \/ exists members, auth = Parsed (JObject members) /\ missing_key members)).
Proof.
  intros H. destruct auth as [| |data].
  - injection H as <-. simpl. split; auto.
  - injection H as <-. simpl. split; [discriminate|].
    intros [E|(m & E & _)]; discriminate.
  - destruct data as [| | | | |members];
      try (injection H as <-; simpl; split; [discriminate|];
           intros [E|(m & E & _)]; discriminate).
    destruct (read_credentials_object members) as [(c & Hc & _)|(key & Hk & Hin & Hnone)].
    + congruence.
    + rewrite Hk in H. injection H as <-. simpl. split; [|reflexivity].
      intros _. right. exists members. split; [reflexivity|]. now exists key.
Qed.

Section Credentials.
Variables (tz : timezone) (world : remote) (trace : bool) (folder : string).

(** C8, as the code has it. When the credentials cannot be read, both
    commands stop at once, with the database as it was and no remote
    call: with the message that tells to run [auth] when the file is
    absent or lacks one of the four keys, and with the uncaught exception
    and no message otherwise (a file that is not JSON, or not a JSON
    object). *)
Theorem unreadable_credentials_stop auth e d :
  read_credentials auth = Throw e ->
  let told := is_KeyError_or_FileNotFoundError e in
  let stop := (if told then Exit else Raise e,
               mk_state d (if told then [Console (ErrorMessage auth_error_message)] else [])) in
  run (get_text tz world auth trace) d = stop
  /\ run (bookmarks world auth folder) d = stop
  /\ (told = true
      <-> (auth = Absent
           \/ exists members, auth = Parsed (JObject members) /\ missing_key members)).
Proof.
  intros H told stop. split; [|split].
  - unfold run, get_text, bind at 1. rewrite load_credentials_run, H.
    unfold stop, told. now destruct (is_KeyError_or_FileNotFoundError e).
  - unfold run, bookmarks, bind at 1. rewrite load_credentials_run, H.
    unfold stop, told. now destruct (is_KeyError_or_FileNotFoundError e).
  - now apply message_cases.
Qed.

End Credentials.

Lemma unreadable_credentials_stop_witness :
  run (get_text UTC steady_remote Absent false) three_bookmarks
  = (Exit, mk_state three_bookmarks [Console (ErrorMessage auth_error_message)]).
Proof.
  apply (unreadable_credentials_stop UTC steady_remote false "archive"
           Absent FileNotFoundError three_bookmarks).
  reflexivity.
Defined.

(** C8 as stated fails for a file that is not JSON: the
    [JSONDecodeError] is not among the exceptions of lines 104 and 149, so
    the command ends with it and the user is told nothing. *)
Lemma unparseable_credentials_no_message :
  run (get_text UTC steady_remote Unparseable false) three_bookmarks
  = (Raise JSONDecodeError, mk_state three_bookmarks [])
  /\ run (bookmarks steady_remote Unparseable "archive") three_bookmarks
     = (Raise JSONDecodeError, mk_state three_bookmarks []).
Proof. split; reflexivity. Qed.

(** ** The loop *)

Lemma text_rows_add d new : text_rows (add_text_rows d new) = text_rows d ++ new.
Proof. destruct new; simpl; [now rewrite app_nil_r | reflexivity]. Qed.

Lemma bookmarks_table_add d new : bookmarks_table (add_text_rows d new) = bookmarks_table d.
Proof. now destruct new. Qed.

Lemma add_text_rows_cons d t new :
  add_text_rows (with_text_rows d (text_rows d ++ [t])) new
  = add_text_rows d (t :: new).
Proof.
  destruct new; [reflexivity|].
  unfold add_text_rows, with_text_rows, text_rows; simpl.
  now rewrite <- app_assoc.
Qed.

Section Loop.
Variables (tz : timezone) (world : remote) (trace : bool) (total : nat).
Variable tbl : list bookmark_row.
Let cols := table_columns tbl.

Lemma get_text_loop_effect rs : forall num s,
  exists evs,
    for_enumerate (get_text_item tz world trace total) num (map (select_row cols) rs) s
    = (fst (loop_effect tz world trace cols num rs (text_rows (st_db s))),
       mk_state
         (add_text_rows (st_db s)
            (snd (loop_effect tz world trace cols num rs (text_rows (st_db s)))))
         (st_out s ++ evs))
    /\ (forall ev, In ev evs -> is_remote ev = true -> is_get_text ev = true)
    /\ (rs = [] -> evs = [])
    /\ caught_logged tz world trace total tbl num rs
         (List.length (snd (loop_effect tz world trace cols num rs (text_rows (st_db s)))))
         evs.
Proof.
  induction rs as [|r rs IH]; intros num s.
  - exists []. simpl. unfold ret. rewrite app_nil_r. destruct s.
    split; [reflexivity|]. split; [intros ev []|]. split; [reflexivity|].
    intros i id e Hi. simpl in Hi. lia.
  - cbn [for_enumerate map loop_effect].
    destruct (make_str_dict tz (select_row cols r)) as [sd|e] eqn:Hsd.
    + pose proof (make_str_dict_bookmark_id _ _ _ _ Hsd) as Hid.
      destruct (has_text_row (bm_bookmark_id r) (text_rows (st_db s))) eqn:Hdup.
      * destruct (get_text_item_dup tz world trace total num _ _ _ s Hsd Hid Hdup)
          as (evs & Hrun & Hrem).
        exists evs. unfold bind. rewrite Hrun. simpl.
        split; [reflexivity|]. split; [exact Hrem|]. split; [discriminate|].
        intros i id e Hi. simpl in Hi. lia.
      * destruct (get_text_item_ok tz world trace total num _ _ _ s Hsd Hid Hdup)
          as (evs & Hrun & Hcaught & Hrem).
        set (t := item_row (bm_bookmark_id r) (item_outcome world trace num sd)) in *.
        set (s1 := mk_state (with_text_rows (st_db s) (text_rows (st_db s) ++ [t]))
                            (st_out s ++ evs)) in *.
        destruct (IH (S num) s1) as (evs' & Hrun' & Hrem' & _ & Hcaught').
        exists (evs ++ evs'). unfold bind. rewrite Hrun, Hrun'.
        change (text_rows (st_db s1)) with (text_rows (st_db s) ++ [t]).
        destruct (loop_effect tz world trace cols (S num) rs (text_rows (st_db s) ++ [t]))
          as [r' new] eqn:Heff.
        simpl fst; simpl snd. split; [|split; [|split]].
        -- f_equal. unfold s1; simpl st_db; simpl st_out.
           rewrite add_text_rows_cons, app_assoc. reflexivity.
        -- intros ev Hin. apply in_app_or in Hin as [Hin|Hin]; auto.
        -- discriminate.
        -- intros i id e Hi Hnth. apply in_or_app.
           cbn [outcomes] in Hnth. fold cols in Hnth. rewrite Hsd in Hnth.
           destruct i as [|i]; cbn [nth_error] in Hnth.
           ++ left. injection Hnth as _ Ho. rewrite Nat.add_0_r. now apply Hcaught.
           ++ right. replace (num + S i)%nat with (S num + i)%nat by lia.
              apply (Hcaught' i id e); [|exact Hnth].
              change (text_rows (st_db s1)) with (text_rows (st_db s) ++ [t]).
              rewrite Heff. simpl in *. lia.
    + exists []. unfold bind.
      rewrite (get_text_item_throw tz world trace total num _ e s Hsd).
      simpl. rewrite app_nil_r. destruct s.
      split; [reflexivity|]. split; [intros ev []|]. split; [discriminate|].
      intros i id e0 Hi. simpl in Hi. lia.
Qed.
End Loop.

(** ** The working-set query *)

Lemma flat_map_agree {A B} (f g : A -> list B) (l : list A) :
  (forall x, In x l -> f x = g x) -> flat_map f l = flat_map g l.
Proof.
  induction l as [|a l IH]; intros H; simpl; [reflexivity|].
  rewrite (H a) by now left. rewrite IH; [reflexivity|].
  intros x Hx. apply H. now right.
Qed.

Lemma partners_none id bt :
  has_text_row id bt = false -> filter (fun t => bt_bookmark_id t =? id) bt = [].
Proof.
  unfold has_text_row. induction bt as [|t bt IH]; simpl; [reflexivity|].
  destruct (bt_bookmark_id t =? id); simpl; [discriminate | exact IH].
Qed.

Lemma partners_some id bt :
  has_text_row id bt = true -> filter (fun t => bt_bookmark_id t =? id) bt <> [].
Proof.
  unfold has_text_row. induction bt as [|t bt IH]; simpl; [discriminate|].
  destruct (bt_bookmark_id t =? id); simpl; [discriminate | exact IH].
Qed.

Lemma has_text_row_app id bt bt' :
  has_text_row id (bt ++ bt') = has_text_row id bt || has_text_row id bt'.
Proof. apply existsb_app. Qed.

Lemma joined_copies bt r x : In x (joined_with_null_text bt r) -> x = r.
Proof.
  unfold joined_with_null_text.
  destruct (filter _ bt) as [|p ps].
  - intros [<-|[]]. reflexivity.
  - intros H. apply in_map_iff in H as (_ & <- & _). reflexivity.
Qed.

Lemma joined_other bt t r :
  bt_bookmark_id t <> bm_bookmark_id r ->
  joined_with_null_text (bt ++ [t]) r = joined_with_null_text bt r.
Proof.
  intros Hne. unfold joined_with_null_text. rewrite filter_app. simpl.
  destruct (Z.eqb_spec (bt_bookmark_id t) (bm_bookmark_id r)); [contradiction|].
  now rewrite app_nil_r.
Qed.

Lemma joined_fresh bt r :
  has_text_row (bm_bookmark_id r) bt = false -> joined_with_null_text bt r = [r].
Proof.
  intros H. unfold joined_with_null_text. now rewrite (partners_none _ _ H).
Qed.

Lemma joined_served bt t r :
  has_text_row (bm_bookmark_id r) bt = false ->
  bt_bookmark_id t = bm_bookmark_id r -> bt_text t <> None ->
  joined_with_null_text (bt ++ [t]) r = [].
Proof.
  intros H Hid Htext. unfold joined_with_null_text.
  rewrite filter_app, (partners_none _ _ H). simpl.
  rewrite Hid, Z.eqb_refl. simpl. unfold text_is_null.
  destruct (bt_text t); [reflexivity | contradiction].
Qed.

(** With no NULL text stored, a bookmark is in the result of the query
    exactly when it has no text row. *)
Lemma joined_anti bt r :
  texts_not_null bt ->
  joined_with_null_text bt r
  = if has_text_row (bm_bookmark_id r) bt then [] else [r].
Proof.
  intros Hnn. destruct (has_text_row (bm_bookmark_id r) bt) eqn:H.
  - unfold joined_with_null_text.
    destruct (filter _ bt) as [|p ps] eqn:E.
    + now apply partners_some in H.
    + replace (filter text_is_null (p :: ps)) with (@nil text_row); [reflexivity|].
      symmetry. rewrite <- E. clear E H.
      induction bt as [|t bt IH]; [reflexivity|].
      inversion Hnn as [|? ? Ht Hbt]; subst. simpl.
      destruct (bt_bookmark_id t =? bm_bookmark_id r); simpl; auto.
      unfold text_is_null at 1. destruct (bt_text t); [auto | contradiction].
  - now apply joined_fresh.
Qed.

Lemma query_is_anti_join b bt :
  texts_not_null bt -> the_unpopulated_bookmarks_query b bt = anti_join b bt.
Proof.
  intros Hnn. unfold the_unpopulated_bookmarks_query, anti_join.
  induction b as [|r b IH]; simpl; [reflexivity|].
  rewrite IH, (joined_anti _ _ Hnn).
  now destruct (has_text_row (bm_bookmark_id r) bt).
Qed.

(** Inserting the row of the first working-set bookmark removes exactly
    that bookmark from the working set. *)
Lemma query_after_insert tbl : forall bt r rest t,
  bookmarks_pk tbl ->
  the_unpopulated_bookmarks_query tbl bt = r :: rest ->
  has_text_row (bm_bookmark_id r) bt = false ->
  bt_bookmark_id t = bm_bookmark_id r -> bt_text t <> None ->
  the_unpopulated_bookmarks_query tbl (bt ++ [t]) = rest.
Proof.
  unfold the_unpopulated_bookmarks_query, bookmarks_pk.
  induction tbl as [|a tbl IH]; intros bt r rest t Hpk Hq Hfresh Hid Htext;
    simpl in *; [discriminate|].
  inversion Hpk as [|? ? Hnotin Hpk']; subst.
  destruct (Z.eq_dec (bm_bookmark_id a) (bm_bookmark_id r)) as [Heq|Hne].
  - assert (Ha : has_text_row (bm_bookmark_id a) bt = false) by now rewrite Heq.
    rewrite (joined_fresh _ _ Ha) in Hq. simpl in Hq. injection Hq as -> Hrest.
    rewrite (joined_served _ _ _ Hfresh Hid Htext). simpl. rewrite <- Hrest.
    apply flat_map_agree. intros x Hx. apply joined_other.
    rewrite Hid. intros E. apply Hnotin. rewrite E. now apply in_map.
  - rewrite joined_other by congruence.
    destruct (joined_with_null_text bt a) as [|x xs] eqn:Ea.
    + simpl in *. eapply IH; eauto.
    + exfalso. simpl in Hq. injection Hq as -> _.
      assert (r = a) by (apply (joined_copies bt); rewrite Ea; now left).
      subst. contradiction.
Qed.

(** ** What the loop adds to [bookmark_text] *)

Lemma item_row_id id o : bt_bookmark_id (item_row id o) = id.
Proof. now destruct o. Qed.

Lemma item_row_text id o : bt_text (item_row id o) <> None.
Proof. now destruct o. Qed.

Section LoopEffectFacts.
Variables (tz : timezone) (world : remote) (trace : bool) (tbl : list bookmark_row).
Let cols := table_columns tbl.
Let effect := loop_effect tz world trace cols.
Let outs := outcomes tz world trace cols.

Ltac step_effect r rs num bt :=
  cbn [loop_effect outcomes] in *;
  destruct (make_str_dict tz (select_row cols r)) as [sd|e] eqn:Hsd;
  [ destruct (has_text_row (bm_bookmark_id r) bt) eqn:Hdup;
    [ | destruct (loop_effect tz world trace cols (S num) rs
                    (bt ++ [item_row (bm_bookmark_id r) (item_outcome world trace num sd)]))
          as [r1 new1] eqn:Heff ]
  | ].

Lemma loop_effect_shape rs : forall num bt r' new,
  effect num rs bt = (r', new) ->
  new = map row_of (firstn (List.length new) (outs num rs))
  /\ map bt_bookmark_id new = map bm_bookmark_id (firstn (List.length new) rs)
  /\ (List.length new <= List.length rs)%nat
  /\ r' <> Exit
  /\ (r' = Ok tt -> List.length new = List.length rs).
Proof.
  subst effect outs.
  induction rs as [|r rs IH]; intros num bt r' new H.
  - simpl in H. injection H as <- <-. simpl. repeat split; auto. discriminate.
  - step_effect r rs num bt.
    + injection H as <- <-. simpl. repeat split; auto; try lia; discriminate.
    + injection H as <- <-.
      destruct (IH _ _ _ _ Heff) as (Hnew & Hids & Hlen & Hex & Hok).
      simpl. rewrite item_row_id.
      split; [now f_equal|]. split; [now f_equal|]. split; [lia|].
      split; [exact Hex|]. intros E. f_equal. auto.
    + injection H as <- <-. simpl. repeat split; auto; try lia; discriminate.
Qed.

Lemma loop_effect_fresh rs : forall num bt r' new,
  effect num rs bt = (r', new) ->
  forall t, In t new -> has_text_row (bt_bookmark_id t) bt = false.
Proof.
  subst effect outs.
  induction rs as [|r rs IH]; intros num bt r' new H t Hin.
  - simpl in H. injection H as <- <-. destruct Hin.
  - step_effect r rs num bt.
    + injection H as <- <-. destruct Hin.
    + injection H as <- <-. destruct Hin as [<-|Hin].
      * now rewrite item_row_id.
      * pose proof (IH _ _ _ _ Heff t Hin) as Hf.
        rewrite has_text_row_app in Hf. now apply orb_false_elim in Hf.
    + injection H as <- <-. destruct Hin.
Qed.

Lemma pk_snoc bt t :
  bookmark_text_pk bt -> has_text_row (bt_bookmark_id t) bt = false ->
  bookmark_text_pk (bt ++ [t]).
Proof.
  unfold bookmark_text_pk, has_text_row. intros Hpk Hf.
  rewrite map_app. simpl. apply NoDup_app.
  - exact Hpk.
  - constructor; [intros []|constructor].
  - intros x Hx [<-|[]].
    apply in_map_iff in Hx as (u & Hu & Hin).
    assert (E : existsb (fun t0 => bt_bookmark_id t0 =? bt_bookmark_id t) bt = true).
    { apply existsb_exists. exists u. split; [exact Hin|]. now apply Z.eqb_eq. }
    congruence.
Qed.

Lemma loop_effect_pk rs : forall num bt r' new,
  effect num rs bt = (r', new) ->
  bookmark_text_pk bt -> bookmark_text_pk (bt ++ new).
Proof.
  subst effect outs.
  induction rs as [|r rs IH]; intros num bt r' new H Hpk.
  - simpl in H. injection H as <- <-. now rewrite app_nil_r.
  - step_effect r rs num bt.
    + injection H as <- <-. now rewrite app_nil_r.
    + injection H as <- <-.
      change (?x :: new1) with ([x] ++ new1). rewrite app_assoc.
      eapply IH; [exact Heff|]. apply pk_snoc; [exact Hpk|].
      now rewrite item_row_id.
    + injection H as <- <-. now rewrite app_nil_r.
Qed.

Lemma loop_effect_texts rs : forall num bt r' new,
  effect num rs bt = (r', new) -> texts_not_null new.
Proof.
  subst effect outs. unfold texts_not_null.
  induction rs as [|r rs IH]; intros num bt r' new H.
  - simpl in H. injection H as <- <-. constructor.
  - step_effect r rs num bt.
    + injection H as <- <-. constructor.
    + injection H as <- <-. constructor; [apply item_row_text | eauto].
    + injection H as <- <-. constructor.
Qed.

(** The rows added so far are exactly what the next run's query leaves
    out; [rest] is the part of the working set the loop was not given. *)
Lemma loop_effect_query_prefix rs : forall rest num bt r' new,
  bookmarks_pk tbl ->
  rs ++ rest = the_unpopulated_bookmarks_query tbl bt ->
  effect num rs bt = (r', new) ->
  the_unpopulated_bookmarks_query tbl (bt ++ new) = skipn (List.length new) rs ++ rest.
Proof.
  subst effect outs.
  induction rs as [|r rs IH]; intros rest num bt r' new Hpk Hq H.
  - simpl in H. injection H as <- <-. now rewrite app_nil_r.
  - step_effect r rs num bt.
    + injection H as <- <-. now rewrite app_nil_r.
    + injection H as <- <-.
      change (?x :: new1) with ([x] ++ new1). rewrite app_assoc.
      cbn [List.length app skipn].
      eapply IH; [exact Hpk| |exact Heff].
      symmetry. eapply query_after_insert; eauto.
      * now rewrite item_row_id.
      * apply item_row_text.
    + injection H as <- <-. now rewrite app_nil_r.
Qed.

Lemma loop_effect_query rs num bt r' new :
  bookmarks_pk tbl ->
  rs = the_unpopulated_bookmarks_query tbl bt ->
  effect num rs bt = (r', new) ->
  the_unpopulated_bookmarks_query tbl (bt ++ new) = skipn (List.length new) rs.
Proof.
  intros Hpk Hq H.
  rewrite (loop_effect_query_prefix rs [] num bt r' new Hpk); auto.
  - apply app_nil_r.
  - now rewrite app_nil_r.
Qed.

(** When every timestamp converts and no NULL text is stored, the loop
    runs to its end and adds one row per working-set bookmark. *)
Lemma loop_effect_complete rs : forall num bt,
  bookmarks_pk tbl ->
  texts_not_null bt ->
  rs = the_unpopulated_bookmarks_query tbl bt ->
  Forall (fun r => exists sd, make_str_dict tz (select_row cols r) = Return sd) rs ->
  effect num rs bt = (Ok tt, map row_of (outs num rs))
  /\ List.length (outs num rs) = List.length rs.
Proof.
  subst effect outs.
  induction rs as [|r rs IH]; intros num bt Hpk Hnn Hq Hts.
  - now simpl.
  - inversion Hts as [|? ? (sd0 & Hsd0) Hts']; subst.
    assert (Hfresh : has_text_row (bm_bookmark_id r) bt = false).
    { assert (Hin : In r (anti_join tbl bt)).
      { rewrite <- query_is_anti_join by exact Hnn. rewrite <- Hq. now left. }
      apply filter_In in Hin as [_ Hin]. now apply negb_true_iff in Hin. }
    cbn [loop_effect outcomes]. rewrite Hsd0, Hfresh.
    set (t := item_row (bm_bookmark_id r) (item_outcome world trace num sd0)).
    destruct (IH (S num) (bt ++ [t])) as [Heff Hlen]; auto.
    + unfold texts_not_null. apply Forall_app. split; [exact Hnn|].
      constructor; [apply item_row_text | constructor].
    + symmetry. eapply query_after_insert; eauto.
      * apply item_row_id.
      * apply item_row_text.
    + rewrite Heff. simpl. split; [reflexivity | now rewrite Hlen].
Qed.
End LoopEffectFacts.

(** ** The commands as a whole *)


Lemma text_rows_created d : text_rows (with_bookmark_text d) = text_rows d.
Proof. destruct d as [b [bt|]]; reflexivity. Qed.

Lemma bookmarks_created d : bookmarks_table (with_bookmark_text d) = bookmarks_table d.
Proof. destruct d as [b [bt|]]; reflexivity. Qed.

Lemma create_bookmark_text_run s tbl :
  bookmarks_table (st_db s) = Some tbl ->
  create_bookmark_text s = (Ok tt, mk_state (with_bookmark_text (st_db s)) (st_out s)).
Proof.
  intros H. destruct s as [[b [bt|]] out]; simpl in H; subst b; reflexivity.
Qed.

Section GetText.
Variables (tz : timezone) (world : remote) (auth : auth_file) (trace : bool).

(** A run that reaches the loop. *)
Lemma get_text_started d c tbl :
  read_credentials auth = Return c ->
  bookmarks_table d = Some tbl ->
  login_result world c = Return tt ->
  let ws := working_set d in
  let eff := loop_effect tz world trace (table_columns tbl) 0 ws (text_rows d) in
  exists evs,
    run (get_text tz world auth trace) d
    = (fst eff,
       mk_state (add_text_rows (with_bookmark_text d) (snd eff)) (Remote (Login c) :: evs))
    /\ (forall ev, In ev evs -> is_remote ev = true -> is_get_text ev = true)
    /\ (ws = [] -> forall ev, In ev evs -> is_remote ev = false)
    /\ caught_logged tz world trace (List.length ws) tbl 0 ws (List.length (snd eff)) evs.
Proof.
  intros Hc Htbl Hlogin ws eff.
  unfold run, get_text, bind at 1. rewrite load_credentials_run, Hc.
  unfold bind at 1. rewrite (create_bookmark_text_run _ tbl) by exact Htbl.
  cbn [st_db st_out]. unfold bind at 1, get_db at 1. cbn [st_db].
  unfold unpopulated_bookmarks. rewrite text_rows_created.
  unfold bookmark_rows. rewrite bookmarks_created, Htbl. cbn [rows].
  fold (text_rows d).
  replace (the_unpopulated_bookmarks_query tbl (text_rows d)) with ws
    by (unfold ws, working_set, bookmark_rows; now rewrite Htbl).
  rewrite length_map.
  unfold bind at 1, instapaper_login, bind at 1, emit, lift. rewrite Hlogin.
  cbn [st_db st_out app].
  set (pre := if trace then [Console (Iterating (List.length ws))] else []).
  set (s0 := mk_state (with_bookmark_text d) (Remote (Login c) :: pre)).
  destruct (get_text_loop_effect tz world trace (List.length ws) tbl ws 0%nat s0)
    as (evs & Hrun & Hrem & Hnil & Hcaught).
  change (text_rows (st_db s0)) with (text_rows (with_bookmark_text d)) in *.
  rewrite text_rows_created in *. fold eff in Hrun, Hcaught.
  assert (Hpre : (bind (when trace (print (Iterating (List.length ws))))
                    (fun _ => bind (for_enumerate (get_text_item tz world trace (List.length ws)) 0%nat
                               (map (select_row (table_columns tbl)) ws))
                            (fun _ => when trace (print FinishedDownloading))))
                   (mk_state (with_bookmark_text d) [Remote (Login c)])
                 = (bind (for_enumerate (get_text_item tz world trace (List.length ws)) 0%nat
                               (map (select_row (table_columns tbl)) ws))
                            (fun _ => when trace (print FinishedDownloading))) s0).
  { unfold s0, pre, bind at 1, when at 1, print, emit, ret. now destruct trace. }
  rewrite Hpre. unfold bind. rewrite Hrun. cbn [st_db st_out].
  destruct (fst eff) as [[]| |] eqn:Hfst.
  - exists (pre ++ evs ++ (if trace then [Console FinishedDownloading] else [])).
    split; [|split; [|split]].
    + unfold when, print, emit, ret, s0, pre. destruct trace; cbn [st_db st_out app];
        rewrite <- ?app_assoc, ?app_nil_r; reflexivity.
    + intros ev Hin Hr. apply in_app_or in Hin as [Hin|Hin].
      { unfold pre in Hin. destruct trace; [destruct Hin as [<-|[]]|destruct Hin].
        discriminate. }
      apply in_app_or in Hin as [Hin|Hin]; [auto|].
      destruct trace; [destruct Hin as [<-|[]]|destruct Hin]. discriminate.
    + intros Hws ev Hin. rewrite (Hnil Hws) in Hin. simpl in Hin.
      apply in_app_or in Hin as [Hin|Hin];
        destruct trace; simpl in Hin; try contradiction;
        destruct Hin as [<-|[]]; reflexivity.
    + intros i id e Hi Hnth. apply in_or_app. right. apply in_or_app. left. eauto.
  - exists (pre ++ evs). split; [|split; [|split]].
    + reflexivity.
    + intros ev Hin Hr. apply in_app_or in Hin as [Hin|Hin]; [|auto].
      unfold pre in Hin. destruct trace; [destruct Hin as [<-|[]]|destruct Hin].
      discriminate.
    + intros Hws ev Hin. rewrite (Hnil Hws), app_nil_r in Hin.
      unfold pre in Hin. destruct trace; simpl in Hin; try contradiction.
      destruct Hin as [<-|[]]; reflexivity.
    + intros i id e0 Hi Hnth. apply in_or_app. right. eauto.
  - exists (pre ++ evs). split; [|split; [|split]].
    + reflexivity.
    + intros ev Hin Hr. apply in_app_or in Hin as [Hin|Hin]; [|auto].
      unfold pre in Hin. destruct trace; [destruct Hin as [<-|[]]|destruct Hin].
      discriminate.
    + intros Hws ev Hin. rewrite (Hnil Hws), app_nil_r in Hin.
      unfold pre in Hin. destruct trace; simpl in Hin; try contradiction.
      destruct Hin as [<-|[]]; reflexivity.
    + intros i id e0 Hi Hnth. apply in_or_app. right. eauto.
Qed.
End GetText.

Section GetTextCases.
Variables (tz : timezone) (world : remote) (auth : auth_file) (trace : bool).

(** A run that stops before the loop: nothing is fetched, nothing is
    inserted. *)
Lemma get_text_not_started d :
  (forall c tbl, read_credentials auth = Return c -> bookmarks_table d = Some tbl ->
                 login_result world c <> Return tt) ->
  exists r d' out,
    run (get_text tz world auth trace) d = (r, mk_state d' out)
    /\ r <> Ok tt
    /\ (d' = d \/ d' = with_bookmark_text d)
    /\ (forall ev, In ev out -> is_get_text ev = false).
Proof.
  intros Hno. unfold run, get_text, bind at 1. rewrite load_credentials_run.
  destruct (read_credentials auth) as [c|e] eqn:Hc.
  - destruct (bookmarks_table d) as [tbl|] eqn:Htbl.
    + unfold bind at 1. rewrite (create_bookmark_text_run _ tbl) by exact Htbl.
      cbn [st_db st_out]. unfold bind at 1, get_db at 1. cbn [st_db].
      unfold bind at 1, instapaper_login, bind at 1, emit, lift.
      destruct (login_result world c) as [[]|e] eqn:Hlogin.
      * exfalso. now apply (Hno c tbl).
      * exists (Raise e), (with_bookmark_text d), [Remote (Login c)].
        split; [reflexivity|]. split; [discriminate|]. split; [now right|].
        intros ev [<-|[]]. reflexivity.
    + exists (Raise (DatabaseError "no such table: bookmarks")), d, [].
      split; [|split; [discriminate|split; [now left|intros ev []]]].
      unfold bind, create_bookmark_text, bind, get_db, raise. cbn [st_db]. now rewrite Htbl.
  - destruct (is_KeyError_or_FileNotFoundError e).
    + exists Exit, d, [Console (ErrorMessage auth_error_message)].
      split; [reflexivity|]. split; [discriminate|]. split; [now left|].
      intros ev [<-|[]]. reflexivity.
    + exists (Raise e), d, []. split; [reflexivity|]. split; [discriminate|].
      split; [now left|intros ev []].
Qed.

(** Every run, seen from the database. *)
Lemma get_text_effect d r s' :
  run (get_text tz world auth trace) d = (r, s') ->
  bookmarks_table (st_db s') = bookmarks_table d
  /\ ((text_rows (st_db s') = text_rows d /\ r <> Ok tt
       /\ (st_db s' = d \/ st_db s' = with_bookmark_text d)
       /\ (forall ev, In ev (st_out s') -> is_get_text ev = false))
      \/ (exists tbl new,
            bookmarks_table d = Some tbl
            /\ loop_effect tz world trace (table_columns tbl) 0 (working_set d) (text_rows d)
               = (r, new)
            /\ st_db s' = add_text_rows (with_bookmark_text d) new
            /\ text_rows (st_db s') = text_rows d ++ new
            /\ (working_set d = [] -> forall ev, In ev (st_out s') -> is_get_text ev = false))).
Proof.
  intros Hrun.
  destruct (read_credentials auth) as [c|e] eqn:Hc.
  2:{ destruct (get_text_not_started d) as (r0 & d' & out & Hrun' & Hr & Hd & Hev).
      { intros c tbl Hc'. congruence. }
      rewrite Hrun' in Hrun. injection Hrun as <- <-. cbn [st_db st_out].
      split; [destruct Hd as [->| ->]; [reflexivity | apply bookmarks_created]|].
      left. split; [destruct Hd as [->| ->]; [reflexivity | apply text_rows_created]|].
      auto. }
  destruct (bookmarks_table d) as [tbl|] eqn:Htbl.
  2:{ destruct (get_text_not_started d) as (r0 & d' & out & Hrun' & Hr & Hd & Hev).
      { intros c' tbl Hc' Ht. congruence. }
      rewrite Hrun' in Hrun. injection Hrun as <- <-. cbn [st_db st_out].
      split; [destruct Hd as [->| ->]; [auto | now rewrite bookmarks_created]|].
      left. split; [destruct Hd as [->| ->]; [reflexivity | apply text_rows_created]|].
      auto. }
  destruct (login_result world c) as [[]|e] eqn:Hlogin.
  2:{ destruct (get_text_not_started d) as (r0 & d' & out & Hrun' & Hr & Hd & Hev).
      { intros c' tbl' Hc' Ht. assert (c' = c) by congruence. subst. congruence. }
      rewrite Hrun' in Hrun. injection Hrun as <- <-. cbn [st_db st_out].
      split; [destruct Hd as [->| ->]; [auto | now rewrite bookmarks_created]|].
      left. split; [destruct Hd as [->| ->]; [reflexivity | apply text_rows_created]|].
      auto. }
  destruct (get_text_started tz world auth trace d c tbl Hc Htbl Hlogin)
    as (evs & Hrun' & Hrem & Hnil & _).
  rewrite Hrun' in Hrun. injection Hrun as <- <-. cbn [st_db st_out].
  split; [now rewrite bookmarks_table_add, bookmarks_created|].
  right. exists tbl.
  destruct (loop_effect tz world trace (table_columns tbl) 0 (working_set d) (text_rows d))
    as [r' new] eqn:Heff.
  exists new. cbn [fst snd]. split; [reflexivity|]. split; [reflexivity|].
  split; [reflexivity|]. split; [now rewrite text_rows_add, text_rows_created|].
  intros Hws ev [<-|Hin]; [reflexivity|].
  pose proof (Hnil Hws ev Hin) as Hr. destruct ev as [l|[]]; try reflexivity; discriminate.
Qed.
End GetTextCases.

(** ** Timestamps *)

Lemma min_seconds_eq : min_seconds = -62135596800.
Proof. reflexivity. Qed.

Lemma max_seconds_eq : max_seconds = 253402300799.
Proof. reflexivity. Qed.

Lemma local_in_range tz u :
  min_seconds <= u + tz u <= max_seconds -> local tz u = Return (u + tz u).
Proof.
  intros [H1 H2]. unfold local.
  apply Z.leb_le in H1. apply Z.leb_le in H2. now rewrite H1, H2.
Qed.

Lemma local_out_of_range tz u :
  ~ (min_seconds <= u + tz u <= max_seconds) -> local tz u = Throw ValueError.
Proof.
  intros H. unfold local.
  destruct (Z.leb_spec min_seconds (u + tz u)); [|reflexivity].
  destruct (Z.leb_spec (u + tz u) max_seconds); [|reflexivity].
  exfalso. apply H. lia.
Qed.

(** Under a fixed offset the probes of [_mktime] read [t + c], [t] and
    [t - 86400]. *)
Lemma mktime_fixed_offset c d :
  min_seconds + 86400 <= seconds_since_epoch d <= max_seconds ->
  min_seconds <= seconds_since_epoch d + c <= max_seconds ->
  mktime (fixed_offset c) d = Return (seconds_since_epoch d - c).
Proof.
  intros Ht Hc. unfold mktime, and_then.
  set (t := seconds_since_epoch d) in *.
  rewrite (local_in_range (fixed_offset c) t) by (unfold fixed_offset; lia).
  unfold fixed_offset at 1 2.
  rewrite (local_in_range (fixed_offset c)) by (unfold fixed_offset; lia).
  unfold fixed_offset at 1 2 3.
  replace (t - (t + c - t) + c =? t) with true by (symmetry; apply Z.eqb_eq; lia).
  rewrite (local_in_range (fixed_offset c)) by (unfold fixed_offset; lia).
  unfold fixed_offset.
  replace (t + c - t =? t - (t + c - t) - 24 * 3600 + c - (t - (t + c - t) - 24 * 3600))
    with true by (symmetry; apply Z.eqb_eq; lia).
  f_equal. lia.
Qed.

Lemma mktime_fixed_offset_edge c d :
  ~ (min_seconds + 86400 <= seconds_since_epoch d <= max_seconds
     /\ min_seconds <= seconds_since_epoch d + c <= max_seconds) ->
  mktime (fixed_offset c) d = Throw ValueError.
Proof.
  intros Hno. unfold mktime, and_then.
  set (t := seconds_since_epoch d) in *.
  destruct (local (fixed_offset c) t) as [lt|e] eqn:E1.
  2:{ unfold local in E1. destruct (_ && _); congruence. }
  assert (H1 : min_seconds <= t + c <= max_seconds /\ lt = t + c).
  { unfold local, fixed_offset in E1.
    destruct (Z.leb_spec min_seconds (t + c)); [|discriminate].
    destruct (Z.leb_spec (t + c) max_seconds); [|discriminate].
    injection E1 as <-. lia. }
  destruct H1 as [Hc ->].
  destruct (local (fixed_offset c) (t - (t + c - t))) as [t1|e] eqn:E2.
  2:{ unfold local in E2. destruct (_ && _); congruence. }
  assert (H2 : min_seconds <= t <= max_seconds /\ t1 = t).
  { unfold local, fixed_offset in E2.
    replace (t - (t + c - t) + c) with t in E2 by lia.
    destruct (Z.leb_spec min_seconds t); [|discriminate].
    destruct (Z.leb_spec t max_seconds); [|discriminate].
    injection E2 as <-. lia. }
  destruct H2 as [Ht ->]. rewrite Z.eqb_refl.
  rewrite local_out_of_range; [reflexivity|].
  unfold fixed_offset. lia.
Qed.

Lemma strptime_sample :
  strptime "2021-03-04T10:15:30" = Return (mk_datetime 2021 3 4 10 15 30).
Proof. vm_compute. reflexivity. Qed.

Lemma strptime_first_second :
  strptime "0001-01-01T00:00:00" = Return (mk_datetime 1 1 1 0 0 0).
Proof. vm_compute. reflexivity. Qed.

Lemma isoDateToTimestap_fixed_offset c x d :
  strptime x = Return d ->
  min_seconds + 86400 <= seconds_since_epoch d <= max_seconds ->
  min_seconds <= seconds_since_epoch d + c <= max_seconds ->
  isoDateToTimestap (fixed_offset c) x = Return (seconds_since_epoch d - c).
Proof.
  intros H Ht Hc. unfold isoDateToTimestap, and_then, timestamp.
  now rewrite H, mktime_fixed_offset.
Qed.

Lemma isoDateToTimestap_sample c :
  -86400 <= c <= 86400 ->
  isoDateToTimestap (fixed_offset c) "2021-03-04T10:15:30" = Return (1614852930 - c).
Proof.
  intros Hc.
  rewrite (isoDateToTimestap_fixed_offset c _ _ strptime_sample).
  - reflexivity.
  - rewrite min_seconds_eq, max_seconds_eq.
    change (seconds_since_epoch (mk_datetime 2021 3 4 10 15 30)) with 1614852930. lia.
  - rewrite min_seconds_eq, max_seconds_eq.
    change (seconds_since_epoch (mk_datetime 2021 3 4 10 15 30)) with 1614852930. lia.
Qed.

(** C2, as the code has it. The conversion parses the text into a naive
    datetime and reads it as a wall-clock time of the environment's local
    timezone. Under a fixed offset of [c] seconds from UTC it returns the
    seconds since the epoch of that reading less [c] when the reading is a
    day or more after 0001-01-01T00:00:00 and the reading moved by [c]
    stays within the years 1..9999, and raises [ValueError] otherwise (the
    probes of [datetime.timestamp()] leave the years 1..9999). So
    "2021-03-04T10:15:30" becomes 1614852930 - c, which is 1614852930 only
    when the offset is zero, and "0001-01-01T00:00:00" raises whatever the
    offset. *)
Theorem isoDateToTimestap_local (c : Z) :
  (forall x d,
     strptime x = Return d ->
     min_seconds + 86400 <= seconds_since_epoch d <= max_seconds ->
     min_seconds <= seconds_since_epoch d + c <= max_seconds ->
     isoDateToTimestap (fixed_offset c) x = Return (seconds_since_epoch d - c))
  /\ (forall x d,
        strptime x = Return d ->
        ~ (min_seconds + 86400 <= seconds_since_epoch d <= max_seconds
           /\ min_seconds <= seconds_since_epoch d + c <= max_seconds) ->
        isoDateToTimestap (fixed_offset c) x = Throw ValueError)
  /\ (-86400 <= c <= 86400 ->
      isoDateToTimestap (fixed_offset c) "2021-03-04T10:15:30" = Return (1614852930 - c))
  /\ isoDateToTimestap (fixed_offset c) "0001-01-01T00:00:00" = Throw ValueError.
Proof.
  split; [intros x d; apply isoDateToTimestap_fixed_offset|].
  split; [|split; [apply isoDateToTimestap_sample|]].
  - intros x d H Hno. unfold isoDateToTimestap, and_then, timestamp.
    rewrite H. now apply mktime_fixed_offset_edge.
  - unfold isoDateToTimestap, and_then, timestamp. rewrite strptime_first_second.
    apply mktime_fixed_offset_edge.
    change (seconds_since_epoch (mk_datetime 1 1 1 0 0 0)) with min_seconds. lia.
Qed.

Lemma isoDateToTimestap_local_witness :
  isoDateToTimestap UTC "2021-03-04T10:15:30" = Return 1614852930.
Proof.
  apply (proj1 (isoDateToTimestap_local 0) "2021-03-04T10:15:30"
               (mk_datetime 2021 3 4 10 15 30)).
  - vm_compute. reflexivity.
  - vm_compute. split; discriminate.
  - vm_compute. split; discriminate.
Defined.

(** C2 as stated fails: one hour east of UTC the same text gives
    1614849330. *)
Lemma isoDateToTimestap_depends_on_timezone :
  isoDateToTimestap (fixed_offset 3600) "2021-03-04T10:15:30" = Return 1614849330
  /\ ~ (forall tz : timezone,
          isoDateToTimestap tz "2021-03-04T10:15:30" = Return 1614852930).
Proof.
  assert (E : isoDateToTimestap (fixed_offset 3600) "2021-03-04T10:15:30"
             = Return 1614849330)
    by (rewrite isoDateToTimestap_sample by lia; reflexivity).
  split; [exact E|].
  intros H. specialize (H (fixed_offset 3600)). rewrite E in H. discriminate H.
Qed.

(** ** A malformed timestamp *)

(** C1, the code at a working set whose second bookmark has
    [progress_timestamp = "not-a-date"]: the [ValueError] of line 170 is
    raised outside the [try], so the command stops with it. The first
    bookmark has its row, the malformed one gets no error row and the third
    is never reached. *)
Theorem get_text_malformed_timestamp_aborts :
  exists out,
    run (get_text UTC steady_remote sample_auth false) malformed_bookmarks
    = (Raise ValueError,
       mk_state (mk_database (bookmarks_table malformed_bookmarks)
                             (Some [mk_text_row 1 (Some "Full text.") false]))
                out)
    /\ ~ In (Console (CaughtException 1 3 ValueError)) out.
Proof.
  eexists. split; [vm_compute; reflexivity|].
  simpl. intros H.
  repeat (destruct H as [H|H]; [discriminate H|]). exact H.
Qed.

(** ** After a run that reached its end *)

Lemma filter_null_none bt : texts_not_null bt -> filter text_is_null bt = [].
Proof.
  induction 1 as [|t bt Ht _ IH]; [reflexivity|]. simpl.
  unfold text_is_null at 1. destruct (bt_text t); [exact IH | contradiction].
Qed.

Lemma texts_not_null_filter f bt : texts_not_null bt -> texts_not_null (filter f bt).
Proof.
  unfold texts_not_null. rewrite !Forall_forall. intros H t Hin.
  apply filter_In in Hin as [Hin _]. auto.
Qed.

Lemma joined_nil bt r :
  joined_with_null_text bt r = [] ->
  has_text_row (bm_bookmark_id r) bt = true
  /\ filter text_is_null (filter (fun t => bt_bookmark_id t =? bm_bookmark_id r) bt) = [].
Proof.
  unfold joined_with_null_text. intros H.
  destruct (has_text_row (bm_bookmark_id r) bt) eqn:E.
  - split; [reflexivity|].
    destruct (filter _ bt) as [|p ps]; [reflexivity|].
    now apply map_eq_nil in H.
  - rewrite (partners_none _ _ E) in H. discriminate.
Qed.

(** A bookmark all of whose text rows, old and new, hold a text, and
    which has one, is out of the working set. *)
Lemma joined_served_all bt new r :
  texts_not_null new ->
  (joined_with_null_text bt r = []
   \/ (has_text_row (bm_bookmark_id r) bt = false
       /\ has_text_row (bm_bookmark_id r) new = true)) ->
  joined_with_null_text (bt ++ new) r = [].
Proof.
  intros Hnn H. unfold joined_with_null_text. rewrite filter_app.
  set (p := fun t => bt_bookmark_id t =? bm_bookmark_id r).
  assert (Hnew : filter text_is_null (filter p new) = [])
    by now apply filter_null_none, texts_not_null_filter.
  destruct H as [H|[Hold Hin]].
  - apply joined_nil in H as [Hhas Hnull]. fold p in Hnull.
    apply partners_some in Hhas. fold p in Hhas.
    destruct (filter p bt) as [|q qs]; [contradiction|].
    cbn [app]. change (q :: qs ++ filter p new) with ((q :: qs) ++ filter p new).
    now rewrite filter_app, Hnull, Hnew.
  - pose proof (partners_none _ _ Hold) as Hn. fold p in Hn. rewrite Hn. cbn [app].
    apply partners_some in Hin. fold p in Hin.
    destruct (filter p new) as [|q qs]; [contradiction|].
    now rewrite Hnew.
Qed.

Lemma has_text_row_in id bt :
  In id (map bt_bookmark_id bt) -> has_text_row id bt = true.
Proof.
  intros H. apply in_map_iff in H as (t & Ht & Hin).
  apply existsb_exists. exists t. split; [exact Hin | now apply Z.eqb_eq].
Qed.

Lemma query_all_served tbl bt new rs :
  rs = the_unpopulated_bookmarks_query tbl bt ->
  texts_not_null new ->
  map bt_bookmark_id new = map bm_bookmark_id rs ->
  (forall t, In t new -> has_text_row (bt_bookmark_id t) bt = false) ->
  the_unpopulated_bookmarks_query tbl (bt ++ new) = [].
Proof.
  intros Hq Hnn Hids Hfresh. unfold the_unpopulated_bookmarks_query.
  assert (Hall : forall a, In a tbl -> joined_with_null_text (bt ++ new) a = []).
  { intros a Ha. apply joined_served_all; [exact Hnn|].
    destruct (joined_with_null_text bt a) as [|x xs] eqn:Ea; [now left|right].
    assert (Hx : x = a) by (apply (joined_copies bt); rewrite Ea; now left). subst x.
    assert (Hin : In a rs).
    { rewrite Hq. unfold the_unpopulated_bookmarks_query. apply in_flat_map.
      exists a. split; [exact Ha|]. rewrite Ea. now left. }
    assert (Hid : In (bm_bookmark_id a) (map bt_bookmark_id new))
      by (rewrite Hids; now apply in_map).
    split; [|now apply has_text_row_in].
    apply in_map_iff in Hid as (t & Ht & Hint). rewrite <- Ht. now apply Hfresh. }
  clear Hq. induction tbl as [|a tbl IH]; [reflexivity|]. simpl.
  rewrite (Hall a) by now left. simpl. apply IH.
  intros b Hb. apply Hall. now right.
Qed.

Lemma with_bookmark_text_idem d new :
  with_bookmark_text (add_text_rows (with_bookmark_text d) new)
  = add_text_rows (with_bookmark_text d) new.
Proof. destruct d as [b [bt|]], new; reflexivity. Qed.

Lemma working_set_add d tbl new :
  bookmarks_table d = Some tbl ->
  working_set (add_text_rows (with_bookmark_text d) new)
  = the_unpopulated_bookmarks_query tbl (text_rows d ++ new).
Proof.
  intros H. unfold working_set, bookmark_rows.
  now rewrite bookmarks_table_add, bookmarks_created, H, text_rows_add, text_rows_created.
Qed.

Lemma working_set_query d tbl :
  bookmarks_table d = Some tbl ->
  working_set d = the_unpopulated_bookmarks_query tbl (text_rows d).
Proof. intros H. unfold working_set, bookmark_rows. now rewrite H. Qed.

(** A run over an empty working set fetches nothing and adds no row. *)
Lemma get_text_empty_working_set tz world auth trace d r s :
  working_set d = [] ->
  run (get_text tz world auth trace) d = (r, s) ->
  (st_db s = d \/ st_db s = with_bookmark_text d)
  /\ text_rows (st_db s) = text_rows d
  /\ bookmarks_table (st_db s) = bookmarks_table d
  /\ (forall ev, In ev (st_out s) -> is_get_text ev = false).
Proof.
  intros Hws Hrun.
  destruct (get_text_effect _ _ _ _ _ _ _ Hrun) as [Hb [(Ht & _ & Hd & Hev)|H]].
  - auto.
  - destruct H as (tbl & new & Htbl & Heff & Hd & Ht & Hev).
    rewrite Hws in Heff. simpl in Heff. injection Heff as <- <-.
    rewrite app_nil_r in Ht. simpl in Hd. auto.
Qed.

(** C3, as the code has it. After a run that reached its end, the working
    set is empty; a second run on that database leaves it as it is and
    makes no text-fetch call (it still logs in, once); and any run over an
    empty working set adds no row and fetches nothing. *)
Theorem get_text_twice tz world auth trace d s1 :
  run (get_text tz world auth trace) d = (Ok tt, s1) ->
  working_set (st_db s1) = []
  /\ (forall tz2 world2 auth2 trace2 r2 s2,
        run (get_text tz2 world2 auth2 trace2) (st_db s1) = (r2, s2) ->
        st_db s2 = st_db s1
        /\ forall ev, In ev (st_out s2) -> is_get_text ev = false)
  /\ (forall d0 tz0 world0 auth0 trace0 r0 s0,
        working_set d0 = [] ->
        run (get_text tz0 world0 auth0 trace0) d0 = (r0, s0) ->
        text_rows (st_db s0) = text_rows d0
        /\ bookmarks_table (st_db s0) = bookmarks_table d0
        /\ forall ev, In ev (st_out s0) -> is_get_text ev = false).
Proof.
  intros Hrun.
  destruct (get_text_effect _ _ _ _ _ _ _ Hrun) as [Hb [(_ & Hne & _)|H]];
    [now contradiction Hne|].
  destruct H as (tbl & new & Htbl & Heff & Hd & Ht & _).
  assert (Hws : working_set (st_db s1) = []).
  { rewrite Hd, (working_set_add _ tbl) by exact Htbl.
    destruct (loop_effect_shape _ _ _ _ _ _ _ _ _ Heff) as (_ & Hids & _ & _ & Hlen).
    rewrite (Hlen eq_refl), firstn_all in Hids.
    eapply query_all_served.
    - apply working_set_query. exact Htbl.
    - eapply loop_effect_texts. exact Heff.
    - exact Hids.
    - eapply loop_effect_fresh. exact Heff. }
  split; [exact Hws|]. split.
  - intros tz2 world2 auth2 trace2 r2 s2 Hrun2.
    destruct (get_text_empty_working_set _ _ _ _ _ _ _ Hws Hrun2) as (Hd2 & _ & _ & Hev).
    split; [|exact Hev].
    destruct Hd2 as [E|E]; [exact E|]. rewrite E, Hd. apply with_bookmark_text_idem.
  - intros d0 tz0 world0 auth0 trace0 r0 s0 Hws0 Hrun0.
    destruct (get_text_empty_working_set _ _ _ _ _ _ _ Hws0 Hrun0) as (_ & H1 & H2 & H3).
    auto.
Qed.

Lemma get_text_twice_witness :
  working_set
    (st_db (snd (run (get_text UTC flaky_remote sample_auth true) three_bookmarks))) = [].
Proof.
  apply (get_text_twice UTC flaky_remote sample_auth true three_bookmarks
           (snd (run (get_text UTC flaky_remote sample_auth true) three_bookmarks))).
  vm_compute. reflexivity.
Defined.

(** C3 as stated fails on "zero remote calls": the second run, with
    nothing left to fetch, still logs in to the service. *)
Lemma second_run_logs_in :
  exists s1 s2,
    run (get_text UTC steady_remote sample_auth false) three_bookmarks = (Ok tt, s1)
    /\ run (get_text UTC steady_remote sample_auth false) (st_db s1) = (Ok tt, s2)
    /\ filter is_remote (st_out s2) = [Remote (Login sample_credentials)].
Proof.
  do 2 eexists. split; [vm_compute; reflexivity|].
  split; vm_compute; reflexivity.
Qed.

(** ** The rows of [bookmark_text] *)

Lemma row_of_records io : row_records (row_of io) io.
Proof.
  destruct io as [id [txt|e]]; unfold row_records, row_of; simpl; auto.
Qed.

Lemma rows_record os : Forall2 row_records (map row_of os) os.
Proof. induction os; simpl; constructor; auto using row_of_records. Qed.

(** A successful outcome is the remote payload, and it is valid UTF-8. *)
Lemma item_outcome_success world trace num sd txt :
  item_outcome world trace num sd = Return txt ->
  get_text_result world num sd = Return txt /\ utf8_valid txt = true.
Proof.
  unfold item_outcome, and_then, decode_utf8.
  destruct (if trace then _ else _); [|discriminate].
  destruct (get_text_result world num sd) as [data|]; [|discriminate].
  destruct (utf8_valid data) eqn:E; [|discriminate].
  intros [= <-]. auto.
Qed.

(** C4, as the code has it. A run keeps the ids of [bookmark_text]
    pairwise different, and each row it adds records the outcome of its
    bookmark: [error = false] with the decoded text, which is empty when
    the service returned an empty payload, or [error = true] with the
    empty text. *)
Theorem bookmark_text_after_run tz world auth trace d r s' :
  bookmark_text_pk (text_rows d) ->
  run (get_text tz world auth trace) d = (r, s') ->
  bookmark_text_pk (text_rows (st_db s'))
  /\ exists new,
       text_rows (st_db s') = text_rows d ++ new
       /\ Forall2 row_records new
            (firstn (List.length new)
               (outcomes tz world trace (table_columns (bookmark_rows d)) 0 (working_set d))).
Proof.
  intros Hpk Hrun.
  destruct (get_text_effect _ _ _ _ _ _ _ Hrun) as [Hb [(Ht & _)|H]].
  - rewrite Ht. split; [exact Hpk|]. exists []. rewrite app_nil_r. split; [reflexivity|].
    constructor.
  - destruct H as (tbl & new & Htbl & Heff & _ & Ht & _).
    rewrite Ht. split; [eapply loop_effect_pk; eauto|].
    exists new. split; [reflexivity|].
    destruct (loop_effect_shape _ _ _ _ _ _ _ _ _ Heff) as (Hnew & _).
    unfold bookmark_rows. rewrite Htbl. cbn [rows].
    rewrite Hnew at 1. apply rows_record.
Qed.

Lemma bookmark_text_after_run_witness :
  bookmark_text_pk
    (text_rows (st_db (snd (run (get_text UTC flaky_remote sample_auth false)
                               three_bookmarks)))).
Proof.
  apply (bookmark_text_after_run UTC flaky_remote sample_auth false three_bookmarks
           (fst (run (get_text UTC flaky_remote sample_auth false) three_bookmarks))
           (snd (run (get_text UTC flaky_remote sample_auth false) three_bookmarks))).
  - constructor.
  - vm_compute. reflexivity.
Defined.

(** C4 as stated fails on "non-empty text": the third fetch returns an
    empty payload, and its row has [error = false] with the empty text. *)
Lemma successful_row_with_empty_text :
  exists s',
    run (get_text UTC flaky_remote sample_auth false) three_bookmarks = (Ok tt, s')
    /\ In (mk_text_row 3 (Some "") false) (text_rows (st_db s')).
Proof.
  eexists. split; [vm_compute; reflexivity|]. simpl. auto.
Qed.

(** ** Progress *)

(** The loop runs its items one after the other: the turns over [done]
    first, each with its insert, then those over [rest]. *)
Lemma for_enumerate_app {A} (body : nat -> A -> M unit) done : forall rest num s,
  for_enumerate body num (done ++ rest) s
  = bind (for_enumerate body num done)
         (fun _ => for_enumerate body (num + List.length done) rest) s.
Proof.
  induction done as [|x done IH]; intros rest num s; simpl.
  - unfold bind, ret. now rewrite Nat.add_0_r.
  - unfold bind. destruct (body num x s) as [[[]| |] s1]; try reflexivity.
    rewrite IH. unfold bind. now rewrite Nat.add_succ_r.
Qed.

(** Stopped between two bookmarks, after the turns over [done]: their rows
    are in the database and the query now returns [rest]. *)
Lemma get_text_loop_stopped tz world trace total tbl done rest s s1 :
  bookmarks_pk tbl ->
  done ++ rest = the_unpopulated_bookmarks_query tbl (text_rows (st_db s)) ->
  for_enumerate (get_text_item tz world trace total) 0%nat
                (map (select_row (table_columns tbl)) done) s = (Ok tt, s1) ->
  the_unpopulated_bookmarks_query tbl (text_rows (st_db s1)) = rest
  /\ exists new,
       text_rows (st_db s1) = text_rows (st_db s) ++ new
       /\ map bt_bookmark_id new = map bm_bookmark_id done.
Proof.
  intros Hpk Hq Hrun.
  destruct (get_text_loop_effect tz world trace total tbl done 0%nat s) as (evs & Heq & _).
  rewrite Hrun in Heq.
  destruct (loop_effect tz world trace (table_columns tbl) 0 done (text_rows (st_db s)))
    as [r' new] eqn:Heff.
  cbn [fst snd] in Heq. injection Heq as Hr Hs. subst r' s1. cbn [st_db].
  destruct (loop_effect_shape _ _ _ _ _ _ _ _ _ Heff) as (_ & Hids & _ & _ & Hlen).
  specialize (Hlen eq_refl). rewrite Hlen, firstn_all in Hids.
  rewrite text_rows_add. split; [|exists new; auto].
  rewrite (loop_effect_query_prefix _ _ _ _ done rest _ _ _ _ Hpk Hq Heff).
  now rewrite Hlen, skipn_all.
Qed.

(** ** Failures of single items *)

Lemma outcomes_ids tz world trace cols rs : forall num,
  List.length (outcomes tz world trace cols num rs) = List.length rs ->
  map fst (outcomes tz world trace cols num rs) = map bm_bookmark_id rs.
Proof.
  induction rs as [|r rs IH]; intros num H; [reflexivity|].
  cbn [outcomes] in *.
  destruct (make_str_dict tz (select_row cols r)); [|discriminate].
  simpl in *. f_equal. apply IH. lia.
Qed.

Lemma count_rows os :
  List.length (filter (fun t => negb (bt_error t)) (map row_of os))
  = List.length (filter (fun io => succeeded (snd io)) os)
  /\ List.length (filter bt_error (map row_of os))
     = List.length (filter (fun io => negb (succeeded (snd io))) os).
Proof.
  induction os as [|[id [txt|e]] os [IH1 IH2]]; simpl; auto.
Qed.

(** C6. With the credentials read, the login accepted and every
    timestamp of the working set well formed, a run reaches its end
    whatever the text fetches do: each working-set bookmark gets one row,
    in order, the failed ones with [error = true] and the empty text, each
    failure leaves its position and exception on the console, and the
    rows with [error = false] and [error = true] are as many as the
    successes and the failures. *)
Theorem get_text_isolates_failures tz world auth trace d c tbl :
  read_credentials auth = Return c ->
  login_result world c = Return tt ->
  bookmarks_table d = Some tbl ->
  bookmarks_pk tbl ->
  texts_not_null (text_rows d) ->
  Forall (fun r => exists str_dict,
                     make_str_dict tz (select_row (table_columns tbl) r) = Return str_dict)
         (working_set d) ->
  let os := outcomes tz world trace (table_columns tbl) 0 (working_set d) in
  exists s',
    run (get_text tz world auth trace) d = (Ok tt, s')
    /\ map fst os = map bm_bookmark_id (working_set d)
    /\ text_rows (st_db s') = text_rows d ++ map row_of os
    /\ (forall num id e,
          nth_error os num = Some (id, Throw e) ->
          In (Console (CaughtException num (List.length (working_set d)) e)) (st_out s')
          /\ In (mk_text_row id (Some "") true) (text_rows (st_db s')))
    /\ List.length (filter (fun t => negb (bt_error t)) (map row_of os))
       = List.length (filter (fun io => succeeded (snd io)) os)
    /\ List.length (filter bt_error (map row_of os))
       = List.length (filter (fun io => negb (succeeded (snd io))) os).
Proof.
  intros Hc Hlogin Htbl Hpk Hnn Hts os.
  destruct (get_text_started tz world auth trace d c tbl Hc Htbl Hlogin)
    as (evs & Hrun & _ & _ & Hcaught).
  destruct (loop_effect_complete tz world trace tbl (working_set d) 0%nat (text_rows d)
              Hpk Hnn (working_set_query _ _ Htbl) Hts) as [Heff Hlen].
  fold os in Heff, Hlen. rewrite Heff in Hrun, Hcaught. cbn [fst snd] in Hrun, Hcaught.
  eexists. split; [exact Hrun|]. cbn [st_db st_out].
  split; [now apply outcomes_ids|].
  rewrite text_rows_add, text_rows_created.
  split; [reflexivity|]. split; [|apply count_rows].
  intros num id e Hnth. split.
  - right. apply (Hcaught num id e); [|exact Hnth].
    rewrite length_map. apply nth_error_Some. congruence.
  - apply in_or_app. right. apply in_map_iff. exists (id, Throw e).
    split; [reflexivity|]. eapply nth_error_In. exact Hnth.
Qed.

Lemma sample_pk : bookmarks_pk (bookmark_rows three_bookmarks).
Proof.
  unfold bookmarks_pk. simpl. repeat constructor; simpl; intuition discriminate.
Qed.

Lemma get_text_isolates_failures_witness :
  exists s',
    run (get_text UTC flaky_remote sample_auth true) three_bookmarks = (Ok tt, s')
    /\ text_rows (st_db s')
       = [mk_text_row 1 (Some "Full text.") false;
          mk_text_row 2 (Some "") true;
          mk_text_row 3 (Some "") false]
    /\ In (Console (CaughtException 1 3 (RemoteError "500"))) (st_out s').
Proof.
  destruct (get_text_isolates_failures UTC flaky_remote sample_auth true three_bookmarks
              sample_credentials (bookmark_rows three_bookmarks))
    as (s' & Hrun & _ & Hrows & Hcaught & _).
  - reflexivity.
  - reflexivity.
  - reflexivity.
  - exact sample_pk.
  - constructor.
  - replace (working_set three_bookmarks) with (bookmark_rows three_bookmarks)
      by (vm_compute; reflexivity).
    unfold bookmark_rows, three_bookmarks. cbn [rows bookmarks_table].
    repeat (apply Forall_cons; [eexists; vm_compute; reflexivity|]).
    apply Forall_nil.
  - exists s'. split; [exact Hrun|]. split; [exact Hrows|].
    apply (Hcaught 1%nat 2 (RemoteError "500")). reflexivity.
Defined.

(** ** The query and the anti-join *)

(** C10. Every row a run adds holds a non-NULL text; and on a table with
    no NULL text the query of line 161 returns the bookmarks without a
    text row, the left anti-join on [bookmark_id], a property the run
    keeps. *)
Theorem query_is_left_anti_join d :
  texts_not_null (text_rows d) ->
  working_set d = anti_join (bookmark_rows d) (text_rows d)
  /\ forall tz world auth trace r s',
       run (get_text tz world auth trace) d = (r, s') ->
       (exists new, text_rows (st_db s') = text_rows d ++ new /\ texts_not_null new)
       /\ texts_not_null (text_rows (st_db s'))
       /\ working_set (st_db s')
          = anti_join (bookmark_rows (st_db s')) (text_rows (st_db s')).
Proof.
  intros Hnn. split; [now apply query_is_anti_join|].
  intros tz world auth trace r s' Hrun.
  assert (H : exists new, text_rows (st_db s') = text_rows d ++ new /\ texts_not_null new).
  { destruct (get_text_effect _ _ _ _ _ _ _ Hrun) as [_ [(Ht & _)|H]].
    - exists []. rewrite app_nil_r. split; [exact Ht | constructor].
    - destruct H as (tbl & new & _ & Heff & _ & Ht & _).
      exists new. split; [exact Ht|]. eapply loop_effect_texts. exact Heff. }
  destruct H as (new & Ht & Hnew).
  assert (Hall : texts_not_null (text_rows (st_db s'))).
  { rewrite Ht. apply Forall_app. now split. }
  split; [now exists new|]. split; [exact Hall|]. now apply query_is_anti_join.
Qed.

Lemma query_is_left_anti_join_witness :
  working_set half_done = anti_join (bookmark_rows half_done) (text_rows half_done).
Proof.
  apply (query_is_left_anti_join half_done).
  constructor; [discriminate | constructor].
Defined.

(** ** The bookmarks command *)

Lemma dict_get_in {V} (d : dict V) k v :
  NoDup (dict_keys d) -> In (k, v) d -> dict_get d k = Some v.
Proof.
  unfold dict_keys. induction d as [|[k0 v0] d IH]; intros Hnd Hin; [destruct Hin|].
  simpl in *. inversion Hnd as [|? ? Hnotin Hnd']; subst.
  destruct Hin as [[= -> ->]|Hin].
  - now rewrite String.eqb_refl.
  - destruct (String.eqb_spec k k0) as [->|_]; [|auto].
    exfalso. apply Hnotin. apply in_map_iff. now exists (k0, v).
Qed.

Lemma dict_get_set_eq {V} (d : dict V) k v : dict_get (dict_set d k v) k = Some v.
Proof.
  induction d as [|[k0 v0] d IH]; simpl.
  - now rewrite String.eqb_refl.
  - destruct (String.eqb_spec k k0) as [->|Hne]; simpl.
    + now rewrite String.eqb_refl.
    + destruct (String.eqb_spec k k0); [contradiction | exact IH].
Qed.

Lemma dict_set_fresh {V} (d : dict V) k v :
  ~ In k (dict_keys d) -> dict_set d k v = d ++ [(k, v)].
Proof.
  unfold dict_keys. induction d as [|[k0 v0] d IH]; intros H; simpl in *; [reflexivity|].
  destruct (String.eqb_spec k k0) as [->|_]; [exfalso; auto|].
  f_equal. apply IH. auto.
Qed.

Lemma project_keys entry keys : forall record,
  map_res (fun key => let* v := getattr entry key in Return (key, v)) keys = Return record ->
  dict_keys record = keys
  /\ forall k v, In (k, v) record -> dict_get entry k = Some v.
Proof.
  unfold dict_keys.
  induction keys as [|key keys IH]; intros record H; simpl in H.
  - injection H as <-. split; [reflexivity | intros k v []].
  - unfold and_then at 1 2, getattr at 1 in H.
    destruct (dict_get entry key) as [v0|] eqn:E; [|discriminate].
    unfold and_then at 1 in H.
    destruct (map_res _ keys) as [ys|] eqn:Hys; [|discriminate].
    injection H as <-. destruct (IH ys eq_refl) as [Hk Hv].
    simpl. split; [now f_equal|].
    intros k v [[= <- <-]|Hin]; auto.
Qed.

Lemma BOOKMARK_KEYS_NoDup : NoDup (BOOKMARK_KEYS ++ ["folder"]).
Proof.
  unfold BOOKMARK_KEYS. simpl.
  repeat (constructor; [simpl; intuition discriminate|]). constructor.
Qed.

(** What line 113 and lines 117-118 make of one remote bookmark. *)
Lemma project_with_folder entry record folder :
  project entry = Return record ->
  with_folder folder record = record ++ [("folder", PyStr folder)]
  /\ dict_keys (with_folder folder record) = BOOKMARK_KEYS ++ ["folder"]
  /\ dict_get (with_folder folder record) "folder" = Some (PyStr folder)
  /\ forall key, In key BOOKMARK_KEYS ->
       dict_get entry key <> None
       /\ dict_get (with_folder folder record) key = dict_get entry key.
Proof.
  intros H. apply project_keys in H as [Hk Hv].
  assert (Hw : with_folder folder record = record ++ [("folder", PyStr folder)]).
  { unfold with_folder, dict_update. simpl. apply dict_set_fresh.
    rewrite Hk. unfold BOOKMARK_KEYS. simpl. intuition discriminate. }
  assert (Hkeys : dict_keys (with_folder folder record) = BOOKMARK_KEYS ++ ["folder"]).
  { rewrite Hw. unfold dict_keys in *. now rewrite map_app, Hk. }
  split; [exact Hw|]. split; [exact Hkeys|]. split.
  - unfold with_folder, dict_update. simpl. apply dict_get_set_eq.
  - intros key Hin.
    assert (Hin' : In key (dict_keys record)) by now rewrite Hk.
    unfold dict_keys in Hin'. apply in_map_iff in Hin' as ([k v] & Hfst & Hkv).
    simpl in Hfst. subst k. rewrite (Hv _ _ Hkv). split; [discriminate|].
    apply dict_get_in.
    + rewrite Hkeys. apply BOOKMARK_KEYS_NoDup.
    + rewrite Hw. apply in_or_app. now left.
Qed.

Section Bookmarks.
Variables (world : remote) (auth : auth_file) (folder : string).

(** The command, step by step. *)
Lemma bookmarks_run d :
  run (bookmarks world auth folder) d
  = match read_credentials auth with
    | Throw e =>
        if is_KeyError_or_FileNotFoundError e
        then (Exit, mk_state d [Console (ErrorMessage auth_error_message)])
        else (Raise e, mk_state d [])
    | Return c =>
        match login_result world c with
        | Throw e => (Raise e, mk_state d [Console FetchingBookmarks; Remote (Login c)])
        | Return _ =>
            match get_bookmarks_result world folder 500 with
            | Throw e => (Raise e, mk_state d (bookmarks_log folder c))
            | Return entries =>
                match map_res project entries with
                | Throw e => (Raise e, mk_state d (bookmarks_log folder c))
                | Return records =>
                    let out := bookmarks_log folder c
                               ++ [Console (Downloaded (List.length records) folder)] in
                    match map (with_folder folder) records with
                    | [] => (Ok tt, mk_state d out)
                    | rs =>
                        match upsert_all rs (bookmark_rows d) with
                        | Throw e => (Raise e, mk_state d out)
                        | Return tbl =>
                            (Ok tt,
                             mk_state (mk_database (Some tbl) (bookmark_text_table d)) out)
                        end
                    end
                end
            end
        end
    end.
Proof.
  unfold run, bookmarks, bind at 1. rewrite load_credentials_run.
  destruct (read_credentials auth) as [c|e];
    [|now destruct (is_KeyError_or_FileNotFoundError e)].
  unfold bind, print, emit, instapaper_login, bind, emit, lift, db_upsert_all, bind,
    get_db, put_db, lift, ret. cbn [st_db st_out app].
  destruct (login_result world c) as [[]|e]; [|reflexivity].
  destruct (get_bookmarks_result world folder 500) as [entries|e]; [|reflexivity].
  destruct (map_res project entries) as [records|e]; [|reflexivity].
  cbn [st_db st_out app].
  destruct (map (with_folder folder) records) as [|r rs]; [reflexivity|].
  cbn [st_db st_out].
  destruct (upsert_all (r :: rs) (bookmark_rows d)); reflexivity.
Qed.
End Bookmarks.

Lemma map_res_Forall2 {A B} (f : A -> result B) l : forall l',
  map_res f l = Return l' -> Forall2 (fun x y => f x = Return y) l l'.
Proof.
  induction l as [|x l IH]; intros l' H; simpl in H.
  - injection H as <-. constructor.
  - unfold and_then in H. destruct (f x) as [y|] eqn:E; [|discriminate].
    destruct (map_res f l) as [ys|]; [|discriminate].
    injection H as <-. constructor; auto.
Qed.

Lemma Forall2_map_r {A B C} (P : A -> C -> Prop) (g : B -> C) l l' :
  Forall2 (fun x y => P x (g y)) l l' -> Forall2 P l (map g l').
Proof. induction 1; simpl; constructor; auto. Qed.

(** Every run of the command, and what a finished one has done. *)
Lemma bookmarks_effect world auth folder d r s' :
  run (bookmarks world auth folder) d = (r, s') ->
  (forall f l, In (Remote (GetBookmarks f l)) (st_out s') -> f = folder /\ l = 500)
  /\ (r = Ok tt ->
      exists entries records,
        get_bookmarks_result world folder 500 = Return entries
        /\ filter is_get_bookmarks (st_out s') = [Remote (GetBookmarks folder 500)]
        /\ Forall2 (projected folder) entries records
        /\ upsert_all records (bookmark_rows d) = Return (bookmark_rows (st_db s'))
        /\ bookmark_text_table (st_db s') = bookmark_text_table d).
Proof.
  rewrite bookmarks_run. intros H.
  assert (Hlog : forall c out f l,
             (forall ev, In ev out -> is_get_bookmarks ev = false) ->
             In (Remote (GetBookmarks f l)) (bookmarks_log folder c ++ out) ->
             f = folder /\ l = 500).
  { intros c out f l Hout Hin. apply in_app_or in Hin as [Hin|Hin].
    - simpl in Hin. destruct Hin as [E|[E|[E|[]]]]; try discriminate E.
      injection E as <- <-. auto.
    - apply Hout in Hin. discriminate. }
  destruct (read_credentials auth) as [c|e].
  2:{ destruct (is_KeyError_or_FileNotFoundError e); injection H as <- <-;
        (split; [|discriminate]); simpl; intros f l Hin; intuition discriminate. }
  destruct (login_result world c) as [[]|e].
  2:{ injection H as <- <-. split; [|discriminate].
      simpl. intros f l Hin. intuition discriminate. }
  destruct (get_bookmarks_result world folder 500) as [entries|e].
  2:{ injection H as <- <-. split; [|discriminate].
      intros f l Hin. apply (Hlog c [] f l); [intros ev []|now rewrite app_nil_r]. }
  destruct (map_res project entries) as [records|e] eqn:Hrec.
  2:{ injection H as <- <-. split; [|discriminate].
      intros f l Hin. apply (Hlog c [] f l); [intros ev []|now rewrite app_nil_r]. }
  assert (Hout : forall ev, In ev [Console (Downloaded (List.length records) folder)] ->
                            is_get_bookmarks ev = false)
    by (intros ev [<-|[]]; reflexivity).
  assert (Hproj : Forall2 (projected folder) entries (map (with_folder folder) records)).
  { apply Forall2_map_r. apply map_res_Forall2 in Hrec.
    eapply Forall2_impl; [|exact Hrec]. intros entry record Hp.
    destruct (project_with_folder entry record folder Hp) as (_ & Hk & Hf & Hv).
    unfold projected. auto. }
  cbv zeta in H.
  destruct (map (with_folder folder) records) as [|x xs] eqn:Hmap.
  - injection H as Hr Hs. subst r s'. cbn [st_out st_db].
    split; [intros f l Hin; exact (Hlog c _ f l Hout Hin)|].
    intros _. exists entries, []. repeat split; auto.
  - destruct (upsert_all (x :: xs) (bookmark_rows d)) as [tbl|e] eqn:Hup;
      injection H as Hr Hs; subst r s'; cbn [st_out st_db];
      (split; [intros f l Hin; exact (Hlog c _ f l Hout Hin)|]);
      [|discriminate].
    intros _. exists entries, (x :: xs). repeat split; auto.
Qed.

(** C9. The command asks the service once, for the requested folder with
    [limit = 500]; when it reaches its end, the records it upserts are the
    returned bookmarks, one for one and in order, each cut down to the
    eleven keys of [BOOKMARK_KEYS] and given the [folder] key with the
    requested name. *)
Theorem bookmarks_sync_records world auth folder d r s' :
  run (bookmarks world auth folder) d = (r, s') ->
  (forall f l, In (Remote (GetBookmarks f l)) (st_out s') -> f = folder /\ l = 500)
  /\ (r = Ok tt ->
      exists entries records,
        get_bookmarks_result world folder 500 = Return entries
        /\ filter is_get_bookmarks (st_out s') = [Remote (GetBookmarks folder 500)]
        /\ Forall2 (projected folder) entries records
        /\ upsert_all records (bookmark_rows d) = Return (bookmark_rows (st_db s'))
        /\ bookmark_text_table (st_db s') = bookmark_text_table d).
Proof. apply bookmarks_effect. Qed.

(** ** Upserts *)

Lemma dict_update_untouched {V} (f : dict V) k : forall d,
  ~ In k (dict_keys f) -> dict_get (dict_update d f) k = dict_get d k.
Proof.
  unfold dict_update, dict_keys.
  induction f as [|[k0 v0] f IH]; intros d H; simpl in *; [reflexivity|].
  rewrite IH by tauto. apply dict_get_set_ne. intros ->. tauto.
Qed.

Lemma dict_update_get {V} (f : dict V) k v : forall d,
  NoDup (dict_keys f) -> In (k, v) f -> dict_get (dict_update d f) k = Some v.
Proof.
  induction f as [|[k0 v0] f IH]; intros d Hnd Hin; [destruct Hin|].
  unfold dict_keys in Hnd. simpl in Hnd. inversion Hnd as [|? ? Hnotin Hnd']; subst.
  destruct Hin as [[= -> ->]|Hin].
  - change (dict_update d ((k, v) :: f)) with (dict_update (dict_set d k v) f).
    rewrite dict_update_untouched by exact Hnotin. apply dict_get_set_eq.
  - change (dict_update d ((k0, v0) :: f)) with (dict_update (dict_set d k0 v0) f).
    now apply IH.
Qed.

Lemma has_row_ids id tbl :
  has_row id tbl = true <-> In id (map bm_bookmark_id tbl).
Proof.
  unfold has_row. induction tbl as [|r tbl IH]; simpl; [intuition discriminate|].
  destruct (Z.eqb_spec (bm_bookmark_id r) id) as [E|E]; simpl; [intuition|].
  rewrite IH. intuition.
Qed.

Lemma has_row_find id tbl : has_row id tbl = false <-> find_row id tbl = None.
Proof.
  unfold has_row, find_row. induction tbl as [|r tbl IH]; simpl; [intuition|].
  destruct (bm_bookmark_id r =? id); simpl; [intuition discriminate | exact IH].
Qed.

Lemma update_row_ids id f tbl :
  map bm_bookmark_id (update_row id f tbl) = map bm_bookmark_id tbl.
Proof.
  induction tbl as [|r tbl IH]; simpl; [reflexivity|].
  destruct (Z.eqb_spec (bm_bookmark_id r) id) as [E|E]; simpl; congruence.
Qed.

Lemma insert_row_ids row tbl i :
  In i (map bm_bookmark_id (insert_row row tbl))
  <-> i = bm_bookmark_id row \/ In i (map bm_bookmark_id tbl).
Proof.
  induction tbl as [|r tbl IH]; simpl; [intuition|].
  destruct (bm_bookmark_id row <? bm_bookmark_id r); simpl; [intuition|].
  rewrite IH. intuition.
Qed.

Lemma insert_row_pk row tbl :
  ~ In (bm_bookmark_id row) (map bm_bookmark_id tbl) ->
  bookmarks_pk tbl -> bookmarks_pk (insert_row row tbl).
Proof.
  unfold bookmarks_pk. induction tbl as [|r tbl IH]; intros Hnew H; simpl in *.
  - repeat constructor. intros [].
  - inversion H as [|? ? Hnotin H']; subst.
    destruct (bm_bookmark_id row <? bm_bookmark_id r); simpl.
    + constructor; [exact Hnew | exact H].
    + constructor; [|apply IH; tauto].
      rewrite insert_row_ids. intros [E|Hin]; [|contradiction].
      apply Hnew. now left.
Qed.

Lemma find_row_update_other id f tbl i :
  i <> id -> find_row i (update_row id f tbl) = find_row i tbl.
Proof.
  intros Hne. unfold find_row. induction tbl as [|r tbl IH]; simpl; [reflexivity|].
  destruct (Z.eqb_spec (bm_bookmark_id r) id) as [E|E]; simpl.
  - destruct (Z.eqb_spec id i); [congruence|].
    destruct (Z.eqb_spec (bm_bookmark_id r) i); [congruence | reflexivity].
  - now rewrite IH.
Qed.

Lemma find_row_insert_other row tbl i :
  i <> bm_bookmark_id row -> find_row i (insert_row row tbl) = find_row i tbl.
Proof.
  intros Hne. unfold find_row. induction tbl as [|r tbl IH]; simpl.
  - destruct (Z.eqb_spec (bm_bookmark_id row) i); [congruence | reflexivity].
  - destruct (bm_bookmark_id row <? bm_bookmark_id r); simpl.
    + destruct (Z.eqb_spec (bm_bookmark_id row) i); [congruence | reflexivity].
    + now rewrite IH.
Qed.

Lemma find_row_update_same id f tbl row :
  find_row id tbl = Some row ->
  find_row id (update_row id f tbl)
  = Some (mk_bookmark_row id (dict_update (bm_fields row) f)).
Proof.
  unfold find_row. induction tbl as [|r tbl IH]; simpl; [discriminate|].
  destruct (Z.eqb_spec (bm_bookmark_id r) id) as [E|Hne]; simpl.
  - intros [= ->]. now rewrite Z.eqb_refl.
  - destruct (Z.eqb_spec (bm_bookmark_id r) id); [contradiction|]. exact IH.
Qed.

Lemma find_row_insert_same row tbl :
  find_row (bm_bookmark_id row) tbl = None ->
  find_row (bm_bookmark_id row) (insert_row row tbl) = Some row.
Proof.
  unfold find_row. induction tbl as [|r tbl IH]; simpl.
  - now rewrite Z.eqb_refl.
  - destruct (Z.eqb_spec (bm_bookmark_id r) (bm_bookmark_id row)) as [E|Hne];
      [discriminate|].
    intros H. destruct (bm_bookmark_id row <? bm_bookmark_id r); simpl.
    + now rewrite Z.eqb_refl.
    + destruct (Z.eqb_spec (bm_bookmark_id r) (bm_bookmark_id row)); [contradiction|].
      now apply IH.
Qed.

Lemma upsert_row_ids id f tbl i :
  In i (map bm_bookmark_id (upsert_row id f tbl))
  <-> i = id \/ In i (map bm_bookmark_id tbl).
Proof.
  unfold upsert_row. destruct (has_row id tbl) eqn:Hhas.
  - rewrite update_row_ids. apply has_row_ids in Hhas.
    split; [now right | intros [->|H]; assumption].
  - apply insert_row_ids.
Qed.

Lemma upsert_row_pk id f tbl : bookmarks_pk tbl -> bookmarks_pk (upsert_row id f tbl).
Proof.
  unfold upsert_row. destruct (has_row id tbl) eqn:Hhas; intros H.
  - unfold bookmarks_pk. now rewrite update_row_ids.
  - apply insert_row_pk; [|exact H]. cbn [bm_bookmark_id].
    intros Hin. apply has_row_ids in Hin. congruence.
Qed.

Lemma find_row_upsert_other id f tbl i :
  i <> id -> find_row i (upsert_row id f tbl) = find_row i tbl.
Proof.
  intros Hne. unfold upsert_row. destruct (has_row id tbl).
  - now apply find_row_update_other.
  - now apply find_row_insert_other.
Qed.

Lemma find_row_upsert_same id f tbl :
  exists fields,
    find_row id (upsert_row id f tbl) = Some (mk_bookmark_row id fields)
    /\ (fields = f \/ exists old, fields = dict_update old f).
Proof.
  unfold upsert_row. destruct (has_row id tbl) eqn:Hhas.
  - destruct (find_row id tbl) as [row|] eqn:Hrow.
    + exists (dict_update (bm_fields row) f).
      rewrite (find_row_update_same id f tbl row Hrow). eauto.
    + apply has_row_find in Hrow. congruence.
  - exists f. split; [|now left].
    apply (find_row_insert_same (mk_bookmark_row id f)). now apply has_row_find.
Qed.

Lemma filter_absent id tbl :
  ~ In id (map bm_bookmark_id tbl) ->
  filter (fun r => bm_bookmark_id r =? id) tbl = [].
Proof.
  induction tbl as [|r tbl IH]; intros H; simpl in *; [reflexivity|].
  destruct (Z.eqb_spec (bm_bookmark_id r) id); [tauto|]. apply IH. tauto.
Qed.

(** Under the primary key, the row found is the only one with its id. *)
Lemma find_row_only id tbl row :
  bookmarks_pk tbl -> find_row id tbl = Some row ->
  filter (fun r => bm_bookmark_id r =? id) tbl = [row].
Proof.
  unfold bookmarks_pk, find_row. induction tbl as [|r tbl IH]; intros Hpk H; simpl in *.
  - discriminate.
  - inversion Hpk as [|? ? Hnotin Hpk']; subst.
    destruct (Z.eqb_spec (bm_bookmark_id r) id) as [E|E].
    + injection H as <-. f_equal. apply filter_absent. now rewrite <- E.
    + auto.
Qed.

Lemma record_fields_get record key v :
  NoDup (dict_keys record) -> key <> "bookmark_id" ->
  dict_get record key = Some v ->
  NoDup (dict_keys (record_fields record))
  /\ In (key, to_sql v) (record_fields record).
Proof.
  unfold record_fields, dict_keys. intros Hnd Hne Hget. split.
  - rewrite map_map. simpl.
    induction record as [|[k0 v0] record IH]; simpl in *; [constructor|].
    inversion Hnd as [|? ? Hnotin Hnd']; subst.
    assert (Hsub : forall k, In k (map fst (filter (fun kv => negb (fst kv =? "bookmark_id")%string) record)) ->
                             In k (map fst record)).
    { intros k Hk. apply in_map_iff in Hk as (kv & <- & Hkv).
      apply filter_In in Hkv as [Hkv _]. now apply in_map. }
    assert (IH' : NoDup (map fst (filter (fun kv => negb (fst kv =? "bookmark_id")%string) record))).
    { clear -Hnd'. induction record as [|[k1 v1] record IHr]; simpl; [constructor|].
      inversion Hnd' as [|? ? Hn Hnd'']; subst.
      destruct (negb (k1 =? "bookmark_id")%string); simpl; [|auto].
      constructor; [|auto]. intros Hk. apply Hn.
      apply in_map_iff in Hk as (kv & <- & Hkv).
      apply filter_In in Hkv as [Hkv _]. now apply in_map. }
    destruct (negb (k0 =? "bookmark_id")%string); simpl; [|exact IH'].
    constructor; [|exact IH']. intros Hk. apply Hnotin. now apply Hsub.
  - apply in_map_iff. exists (key, v). split; [reflexivity|].
    apply filter_In. split.
    + clear Hnd. induction record as [|[k0 v0] record IH]; simpl in *; [discriminate|].
      destruct (String.eqb_spec key k0) as [->|_].
      * injection Hget as ->. now left.
      * right. auto.
    + simpl. destruct (String.eqb_spec key "bookmark_id"); [contradiction | reflexivity].
Qed.

Lemma upsert_all_keeps records : forall tbl tbl',
  upsert_all records tbl = Return tbl' ->
  (bookmarks_pk tbl -> bookmarks_pk tbl')
  /\ (forall i, In i (map bm_bookmark_id tbl) -> In i (map bm_bookmark_id tbl')).
Proof.
  induction records as [|record records IH]; intros tbl tbl' H; simpl in H.
  - injection H as <-. auto.
  - unfold and_then in H. destruct (record_pk record) as [id|]; [|discriminate].
    destruct (IH _ _ H) as [Hpk Hids]. split.
    + intros Ht. now apply Hpk, upsert_row_pk.
    + intros i Hi. apply Hids, upsert_row_ids. now right.
Qed.

Lemma upsert_all_other records id : forall tbl tbl',
  (forall r, In r records -> record_pk r <> Return id) ->
  upsert_all records tbl = Return tbl' ->
  find_row id tbl' = find_row id tbl.
Proof.
  induction records as [|record records IH]; intros tbl tbl' Hne H; simpl in H.
  - now injection H as <-.
  - unfold and_then in H. destruct (record_pk record) as [i|] eqn:Hi; [|discriminate].
    rewrite (IH _ _ (fun r Hr => Hne r (or_intror Hr)) H).
    apply find_row_upsert_other. intros ->. apply (Hne record); [now left | exact Hi].
Qed.

(** The last record of a batch with a given key decides its row. *)
Lemma upsert_all_last before : forall record after id tbl tbl',
  upsert_all (before ++ record :: after) tbl = Return tbl' ->
  record_pk record = Return id ->
  (forall r, In r after -> record_pk r <> Return id) ->
  exists fields,
    find_row id tbl' = Some (mk_bookmark_row id fields)
    /\ (fields = record_fields record
        \/ exists old, fields = dict_update old (record_fields record)).
Proof.
  induction before as [|b before IH]; intros record after id tbl tbl' H Hid Hafter;
    simpl in H; unfold and_then in H.
  - rewrite Hid in H. rewrite (upsert_all_other _ _ _ _ Hafter H).
    apply find_row_upsert_same.
  - destruct (record_pk b); [|discriminate]. eapply IH; eauto.
Qed.

Lemma fields_get fields record key v :
  NoDup (dict_keys record) -> key <> "bookmark_id" ->
  dict_get record key = Some v ->
  (fields = record_fields record
   \/ exists old, fields = dict_update old (record_fields record)) ->
  dict_get fields key = Some (to_sql v).
Proof.
  intros Hnd Hne Hget Hf.
  destruct (record_fields_get record key v Hnd Hne Hget) as [Hnd' Hin].
  destruct Hf as [->|(old & ->)].
  - now apply dict_get_in.
  - now apply dict_update_get.
Qed.

Lemma Forall2_partner {A B} (P : A -> B -> Prop) l l' y :
  Forall2 P l l' -> In y l' -> exists x, In x l /\ P x y.
Proof.
  induction 1 as [|x0 y0 l l' Hxy _ IH]; intros Hin; [destruct Hin|].
  destruct Hin as [<-|Hin].
  - exists x0. split; [now left | exact Hxy].
  - destruct (IH Hin) as (x & Hx & Hp). exists x. split; [now right | exact Hp].
Qed.

(** C7. Two syncs in a row on a table with a primary key: the table
    still has pairwise different ids, every id it had is still there, and
    for each bookmark of the second listing (its last entry, should the
    listing repeat an id) there is exactly one row, holding the values of
    that listing in every column of [BOOKMARK_KEYS] and the synced folder. *)
Theorem bookmarks_sync_twice world1 auth1 folder1 world2 auth2 folder d s1 s2
        before entry after id :
  bookmarks_pk (bookmark_rows d) ->
  run (bookmarks world1 auth1 folder1) d = (Ok tt, s1) ->
  run (bookmarks world2 auth2 folder) (st_db s1) = (Ok tt, s2) ->
  get_bookmarks_result world2 folder 500 = Return (before ++ entry :: after) ->
  dict_get entry "bookmark_id" = Some (PyInt id) ->
  (forall e, In e after -> dict_get e "bookmark_id" <> Some (PyInt id)) ->
  let tbl := bookmark_rows (st_db s2) in
  bookmarks_pk tbl
  /\ (forall i, In i (map bm_bookmark_id (bookmark_rows d))
                \/ In i (map bm_bookmark_id (bookmark_rows (st_db s1))) ->
                In i (map bm_bookmark_id tbl))
  /\ exists row,
       filter (fun r => bm_bookmark_id r =? id) tbl = [row]
       /\ dict_get (bm_fields row) "folder" = Some (SqlText folder)
       /\ forall key v,
            In key BOOKMARK_KEYS -> key <> "bookmark_id" ->
            dict_get entry key = Some v ->
            dict_get (bm_fields row) key = Some (to_sql v).
Proof.
  intros Hpk Hrun1 Hrun2 Hlist Hid Hafter tbl.
  destruct (bookmarks_effect _ _ _ _ _ _ Hrun1) as [_ H1].
  destruct (H1 eq_refl) as (entries1 & records1 & _ & _ & _ & Hup1 & _).
  destruct (bookmarks_effect _ _ _ _ _ _ Hrun2) as [_ H2].
  destruct (H2 eq_refl) as (entries2 & records2 & Hlist2 & _ & Hproj & Hup2 & _).
  rewrite Hlist in Hlist2. injection Hlist2 as <-.
  destruct (upsert_all_keeps _ _ _ Hup1) as [Hpk1 Hids1].
  destruct (upsert_all_keeps _ _ _ Hup2) as [Hpk2 Hids2].
  assert (Hpk' : bookmarks_pk tbl) by auto.
  split; [exact Hpk'|]. split; [intros i [Hi|Hi]; auto|].
  apply Forall2_app_inv_l in Hproj as (rb & rest & _ & Hrest & ->).
  inversion Hrest as [|? record ? ra Hrec Hra]; subst.
  destruct Hrec as (Hkeys & Hfolder & Hvals).
  assert (Hnd : NoDup (dict_keys record)) by (rewrite Hkeys; apply BOOKMARK_KEYS_NoDup).
  assert (Hpkr : record_pk record = Return id).
  { unfold record_pk. destruct (Hvals "bookmark_id") as [_ ->]; [now left|].
    now rewrite Hid. }
  assert (Hothers : forall r, In r ra -> record_pk r <> Return id).
  { intros r Hr Hpkr'.
    destruct (Forall2_partner _ _ _ _ Hra Hr) as (e & He & (_ & _ & Hv)).
    apply (Hafter e He). destruct (Hv "bookmark_id") as [_ <-]; [now left|].
    unfold record_pk in Hpkr'.
    destruct (dict_get r "bookmark_id") as [[]|]; try discriminate.
    now injection Hpkr' as ->. }
  destruct (upsert_all_last _ _ _ _ _ _ Hup2 Hpkr Hothers) as (fields & Hfind & Hfields).
  exists (mk_bookmark_row id fields).
  split; [now apply find_row_only|]. cbn [bm_fields]. split.
  - apply (fields_get fields record "folder" (PyStr folder)); auto. discriminate.
  - intros key v Hin Hne Hget.
    apply (fields_get fields record key v); auto.
    destruct (Hvals key Hin) as [_ ->]. exact Hget.
Qed.

Lemma bookmarks_sync_records_witness :
  exists entries records,
    get_bookmarks_result (listing_remote [sample_entry 7 "Old title"]) "archive" 500
    = Return entries
    /\ Forall2 (projected "archive") entries records
    /\ upsert_all records (bookmark_rows empty_database)
       = Return (bookmark_rows
                   (st_db (snd (run (bookmarks (listing_remote [sample_entry 7 "Old title"])
                                               sample_auth "archive") empty_database)))).
Proof.
  destruct (bookmarks_sync_records (listing_remote [sample_entry 7 "Old title"])
              sample_auth "archive" empty_database
              (fst (run (bookmarks (listing_remote [sample_entry 7 "Old title"])
                                   sample_auth "archive") empty_database))
              (snd (run (bookmarks (listing_remote [sample_entry 7 "Old title"])
                                   sample_auth "archive") empty_database)))
    as [_ H].
  - vm_compute. reflexivity.
  - destruct (H eq_refl) as (entries & records & Hl & _ & Hp & Hu & _).
    exists entries, records. auto.
Defined.

Lemma bookmarks_sync_twice_witness :
  exists row,
    filter (fun r => bm_bookmark_id r =? 7)
      (bookmark_rows
         (st_db (snd (run (bookmarks (listing_remote [sample_entry 7 "New title"])
                                     sample_auth "archive")
                          (st_db (snd (run (bookmarks
                                              (listing_remote [sample_entry 7 "Old title";
                                                               sample_entry 8 "Other"])
                                              sample_auth "archive")
                                           empty_database)))))))
    = [row]
    /\ dict_get (bm_fields row) "title" = Some (SqlText "New title").
Proof.
  destruct (bookmarks_sync_twice
              (listing_remote [sample_entry 7 "Old title"; sample_entry 8 "Other"])
              sample_auth "archive"
              (listing_remote [sample_entry 7 "New title"]) sample_auth "archive"
              empty_database
              (snd (run (bookmarks (listing_remote [sample_entry 7 "Old title";
                                                    sample_entry 8 "Other"])
                                   sample_auth "archive") empty_database))
              (snd (run (bookmarks (listing_remote [sample_entry 7 "New title"])
                                   sample_auth "archive")
                        (st_db (snd (run (bookmarks
                                            (listing_remote [sample_entry 7 "Old title";
                                                             sample_entry 8 "Other"])
                                            sample_auth "archive") empty_database)))))
              [] (sample_entry 7 "New title") [] 7)
    as (_ & _ & row & Hrow & _ & Hvals).
  - constructor.
  - vm_compute. reflexivity.
  - vm_compute. reflexivity.
  - reflexivity.
  - reflexivity.
  - intros e [].
  - exists row. split; [exact Hrow|].
    apply (Hvals "title" (PyStr "New title")).
    + simpl. auto.
    + discriminate.
    + reflexivity.
Defined.

(* ================================================================== *)
(** * Further properties *)

(** ** The auth command *)

Lemma dict_set_twice {V} (d : dict V) k v w :
  dict_set (dict_set d k v) k w = dict_set d k w.
Proof.
  induction d as [|[k0 v0] d IH]; simpl.
  - now rewrite String.eqb_refl.
  - destruct (String.eqb_spec k k0) as [->|Hne]; simpl.
    + now rewrite String.eqb_refl.
    + destruct (String.eqb_spec k k0); [contradiction | now rewrite IH].
Qed.

Lemma dict_set_keeps_key {V} (d : dict V) k v k' :
  In k' (dict_keys d) -> In k' (dict_keys (dict_set d k v)).
Proof.
  unfold dict_keys. induction d as [|[k0 v0] d IH]; simpl; [tauto|].
  destruct (String.eqb k k0); simpl; intuition.
Qed.

Lemma dict_set_swap {V} (d : dict V) k v k' w :
  k <> k' -> In k' (dict_keys d) ->
  dict_set (dict_set d k v) k' w = dict_set (dict_set d k' w) k v.
Proof.
  unfold dict_keys. intros Hne. induction d as [|[k0 v0] d IH]; simpl; [tauto|].
  intros Hin.
  destruct (String.eqb_spec k k0) as [->|Hk]; simpl.
  - destruct (String.eqb_spec k' k0) as [->|Hk']; [congruence|]. simpl.
    now rewrite String.eqb_refl.
  - destruct (String.eqb_spec k' k0) as [->|Hk']; simpl.
    + destruct (String.eqb_spec k k0); [contradiction | reflexivity].
    + destruct (String.eqb_spec k k0); [contradiction|].
      rewrite IH; [reflexivity|]. destruct Hin; [congruence | assumption].
Qed.

Lemma dict_update_keeps_key {V} (f : dict V) k : forall d,
  In k (dict_keys d) -> In k (dict_keys (dict_update d f)).
Proof.
  unfold dict_update. induction f as [|[k0 v0] f IH]; intros d H; simpl; [exact H|].
  apply IH. now apply dict_set_keeps_key.
Qed.

Lemma dict_set_into_update {V} (f : dict V) k w : forall d,
  In k (dict_keys d) -> ~ In k (dict_keys f) ->
  dict_set (dict_update d f) k w = dict_update (dict_set d k w) f.
Proof.
  unfold dict_update. induction f as [|[k0 v0] f IH]; intros d Hin Hf; simpl; [reflexivity|].
  unfold dict_keys in Hf. simpl in Hf.
  rewrite IH; [|now apply dict_set_keeps_key|tauto].
  f_equal. apply dict_set_swap; [|exact Hin]. intros ->. tauto.
Qed.

(** Updating twice with the same keys keeps the second values only. *)
Lemma dict_update_twice {V} (f1 : dict V) : forall f2 d,
  dict_keys f1 = dict_keys f2 -> NoDup (dict_keys f1) ->
  dict_update (dict_update d f1) f2 = dict_update d f2.
Proof.
  induction f1 as [|[k v] f1 IH]; intros [|[k' w] f2] d Hk Hnd;
    try discriminate; [reflexivity|].
  unfold dict_keys in Hk, Hnd. simpl in Hk, Hnd. injection Hk as <- Hk.
  inversion Hnd as [|? ? Hnotin Hnd']; subst.
  change (dict_update d ((k, v) :: f1)) with (dict_update (dict_set d k v) f1).
  change (dict_update ?x ((k, w) :: f2)) with (dict_update (dict_set x k w) f2).
  rewrite dict_set_into_update.
  - rewrite dict_set_twice. now apply IH.
  - unfold dict_keys. clear. induction d as [|[k0 v0] d IHd]; simpl; [now left|].
    destruct (String.eqb_spec k k0) as [->|]; simpl; auto.
  - exact Hnotin.
Qed.

Lemma entered_keys a : dict_keys (entered a) = credential_keys.
Proof. reflexivity. Qed.

Lemma credential_keys_NoDup : NoDup credential_keys.
Proof.
  unfold credential_keys.
  repeat (constructor; [simpl; intuition discriminate|]). constructor.
Qed.

Lemma read_credentials_entered members a :
  read_credentials (Parsed (JObject (dict_update members (entered a))))
  = Return (entered_credentials a).
Proof.
  assert (H : forall k v, In (k, v) (entered a) ->
                          dict_get (dict_update members (entered a)) k = Some v).
  { intros k v Hin. apply dict_update_get; [|exact Hin].
    rewrite entered_keys. apply credential_keys_NoDup. }
  unfold read_credentials, and_then, subscript, dict_item.
  rewrite (H "instapaper_consumer_id" (JString (ans_consumer_id a))) by (simpl; auto).
  rewrite (H "instapaper_consumer_secret" (JString (ans_consumer_secret a)))
    by (simpl; auto).
  rewrite (H "instapaper_email" (JString (ans_login a))) by (simpl; auto).
  rewrite (H "instapaper_password" (JString (ans_password a))) by (simpl; auto 6).
  reflexivity.
Qed.

(** X1. Once [auth] has ended normally, the file it leaves gives the
    [bookmarks] and [get-text] commands the four values that were typed, so
    both get past their credentials check. *)
Theorem auth_then_read path file a file' shown :
  auth path file a = (Ok tt, file', shown) ->
  read_credentials file' = Return (entered_credentials a)
  /\ forall s, load_credentials file' s = (Ok (entered_credentials a), s).
Proof.
  intros H.
  assert (Hfile : exists members, file' = Parsed (JObject (dict_update members (entered a)))).
  { unfold auth in H. destruct file as [| |data].
    - injection H as <- _. now exists [].
    - discriminate.
    - destruct data as [| | | | |members]; try discriminate.
      injection H as <- _. now exists members. }
  destruct Hfile as (members & ->).
  split; [apply read_credentials_entered|].
  intros s. rewrite load_credentials_run, read_credentials_entered. reflexivity.
Qed.

Lemma auth_then_read_witness :
  read_credentials (snd (fst (auth "auth.json" Absent sample_answers)))
  = Return sample_credentials.
Proof.
  apply (auth_then_read "auth.json" Absent sample_answers
           (snd (fst (auth "auth.json" Absent sample_answers)))
           (snd (auth "auth.json" Absent sample_answers))).
  reflexivity.
Defined.

(** X2. [auth] merges into the file it finds: every key of the existing
    JSON object other than the four credentials keeps its value and its
    place, the keys already there are not repeated, and the four
    credentials hold what was typed. *)
Theorem auth_merges path members a :
  exists members',
    auth path (Parsed (JObject members)) a
    = (Ok tt, Parsed (JObject members'), auth_dialogue ++ auth_farewell path)
    /\ (forall key, ~ In key credential_keys ->
                    dict_get members' key = dict_get members key)
    /\ (forall key value, In (key, value) (entered a) ->
                          dict_get members' key = Some value)
    /\ (forall key, In key (dict_keys members) -> In key (dict_keys members'))
    /\ (NoDup (dict_keys members) -> NoDup (dict_keys members')).
Proof.
  exists (dict_update members (entered a)). split; [reflexivity|].
  split; [|split; [|split]].
  - intros key Hk. apply dict_update_untouched. now rewrite entered_keys.
  - intros key value Hin. apply dict_update_get; [|exact Hin].
    rewrite entered_keys. apply credential_keys_NoDup.
  - intros key. apply dict_update_keeps_key.
  - generalize (entered a). intros f. revert members.
    unfold dict_update. induction f as [|[k v] f IH]; intros members Hnd; simpl; [exact Hnd|].
    apply IH. clear IH. unfold dict_keys in *.
    induction members as [|[k0 v0] members IHm]; simpl.
    + repeat constructor. intros [].
    + inversion Hnd as [|? ? Hnotin Hnd']; subst.
      destruct (String.eqb_spec k k0) as [->|Hne]; simpl.
      * now constructor.
      * constructor; [|auto]. intros Hin. apply Hnotin.
        clear -Hin Hne. induction members as [|[k1 v1] members IHm]; simpl in *.
        -- destruct Hin as [E|[]]. congruence.
        -- destruct (String.eqb_spec k k1) as [->|]; simpl in *; intuition.
Qed.

(** X3. [auth] ends normally exactly on a file that is absent or holds a
    JSON object; otherwise it raises and leaves the file as it was, and on
    a file that is not JSON it raises before showing or asking
    anything. *)
Theorem auth_fails_safely path file a :
  let '(r, file', shown) := auth path file a in
  (r = Ok tt <-> (file = Absent \/ exists members, file = Parsed (JObject members)))
  /\ (r <> Ok tt -> file' = file)
  /\ (file = Unparseable -> r = Raise JSONDecodeError /\ shown = []).
Proof.
  unfold auth. destruct file as [| |data]; simpl.
  - repeat split; auto; try discriminate. intros H. now contradiction H.
  - repeat split; auto; try discriminate.
    intros [H|(m & H)]; discriminate.
  - destruct data; simpl; repeat split; auto; try discriminate;
      try (intros [H|(m & H)]; discriminate); eauto.
    intros H. now contradiction H.
Qed.

(** X4. Running [auth] again replaces the four credentials: the file
    after two runs is the file the second run alone would have left. *)
Theorem auth_twice path file a1 a2 file1 shown1 :
  auth path file a1 = (Ok tt, file1, shown1) ->
  auth path file1 a2 = auth path file a2.
Proof.
  unfold auth. intros H.
  assert (E : forall members,
             dict_update (dict_update members (entered a1)) (entered a2)
             = dict_update members (entered a2)).
  { intros members. apply dict_update_twice; [reflexivity|].
    rewrite entered_keys. apply credential_keys_NoDup. }
  destruct file as [| |data].
  - injection H as <- _. cbv beta iota zeta. rewrite <- (E []). reflexivity.
  - discriminate.
  - destruct data as [| | | | |members]; try discriminate. injection H as <- _.
    cbv beta iota zeta. rewrite <- (E members). reflexivity.
Qed.

Lemma auth_twice_witness :
  auth "auth.json" (snd (fst (auth "auth.json" Absent
                                   (mk_answers "old" "old" "old" "old"))))
       sample_answers
  = auth "auth.json" Absent sample_answers.
Proof.
  apply (auth_twice "auth.json" Absent (mk_answers "old" "old" "old" "old") sample_answers
           (snd (fst (auth "auth.json" Absent (mk_answers "old" "old" "old" "old"))))
           (snd (auth "auth.json" Absent (mk_answers "old" "old" "old" "old")))).
  reflexivity.
Defined.

(** ** Timestamps written and read back *)

Lemma match_alt_splits a : forall s m rest,
  match_alt a s = Some (m, rest) -> s = m ++ rest.
Proof.
  induction a as [|k a IH]; intros s m rest H; simpl in H.
  - now injection H as <- <-.
  - destruct s as [|c s]; [discriminate|].
    destruct (cclass_matches k c); [|discriminate].
    destruct (match_alt a s) as [[m' rest']|] eqn:E; [|discriminate].
    injection H as <- <-. simpl. f_equal. now apply IH.
Qed.

Lemma match_alt_app a : forall s m rest tail,
  match_alt a s = Some (m, rest) -> match_alt a (s ++ tail) = Some (m, rest ++ tail).
Proof.
  induction a as [|k a IH]; intros s m rest tail H; simpl in *.
  - now injection H as <- <-.
  - destruct s as [|c s]; [discriminate|]. simpl.
    destruct (cclass_matches k c); [|discriminate].
    destruct (match_alt a s) as [[m' rest']|] eqn:E; [|discriminate].
    injection H as <- <-. now rewrite (IH _ _ _ tail E).
Qed.

Lemma match_alt_app_none a : forall s tail,
  match_alt a s = None -> (List.length a <= List.length s)%nat ->
  match_alt a (s ++ tail) = None.
Proof.
  induction a as [|k a IH]; intros s tail H Hlen; simpl in *; [discriminate|].
  destruct s as [|c s]; simpl in *; [lia|].
  destruct (cclass_matches k c); [|reflexivity].
  destruct (match_alt a s) as [[m' rest']|] eqn:E; [discriminate|].
  rewrite IH; [reflexivity | exact E | lia].
Qed.

Lemma group_reads alts s tail p' gs r :
  picks alts s = true ->
  match_pattern p' tail = Some (gs, r) ->
  match_pattern (Group alts :: p') (s ++ tail) = Some (s :: gs, r).
Proof.
  intros Hp Hk. cbn [match_pattern].
  induction alts as [|a alts IH]; simpl in Hp; [discriminate|]. simpl.
  destruct (match_alt a s) as [[m [|x rest]]|] eqn:E; try discriminate.
  - pose proof (match_alt_splits _ _ _ _ E) as Hs. rewrite app_nil_r in Hs. subst m.
    rewrite (match_alt_app _ _ _ _ tail E). simpl. now rewrite Hk.
  - apply andb_true_iff in Hp as [Hlen Hp]. apply Nat.leb_le in Hlen.
    rewrite (match_alt_app_none _ _ tail E Hlen). now apply IH.
Qed.

Lemma lit_reads c tail p' :
  match_pattern (Lit c :: p') (c :: tail) = match_pattern p' tail.
Proof. cbn [match_pattern]. now rewrite Ascii.eqb_refl. Qed.

Lemma list_ascii_app s1 s2 :
  list_ascii_of_string (s1 ++ s2)%string
  = list_ascii_of_string s1 ++ list_ascii_of_string s2.
Proof. induction s1 as [|c s1 IH]; simpl; [reflexivity | now rewrite IH]. Qed.

Lemma in_range_checked width i lo len :
  forallb (prints_and_reads width i) (seq lo len) = true ->
  forall n, Z.of_nat lo <= n < Z.of_nat (lo + len) ->
    picks (alternatives i) (list_ascii_of_string (pad width n)) = true
    /\ int_of_group (list_ascii_of_string (pad width n)) = n.
Proof.
  intros H n Hn. rewrite forallb_forall in H.
  specialize (H (Z.to_nat n)). unfold prints_and_reads in H.
  rewrite Z2Nat.id in H by lia.
  apply andb_true_iff in H as [H1 H2]; [|apply in_seq; lia].
  split; [exact H1 | now apply Z.eqb_eq].
Qed.

Lemma years_read : forallb (prints_and_reads 4 re_Y) (seq 1 (Z.to_nat 9999)) = true.
Proof. vm_compute. reflexivity. Qed.

Lemma months_read : forallb (prints_and_reads 2 re_m) (seq 1 12) = true.
Proof. vm_compute. reflexivity. Qed.

Lemma days_read : forallb (prints_and_reads 2 re_d) (seq 1 31) = true.
Proof. vm_compute. reflexivity. Qed.

Lemma hours_read : forallb (prints_and_reads 2 re_H) (seq 0 24) = true.
Proof. vm_compute. reflexivity. Qed.

Lemma minutes_read : forallb (prints_and_reads 2 re_M) (seq 0 60) = true.
Proof. vm_compute. reflexivity. Qed.

Lemma seconds_read : forallb (prints_and_reads 2 re_S) (seq 0 60) = true.
Proof. vm_compute. reflexivity. Qed.

Lemma days_in_month_le y m : days_in_month y m <= 31.
Proof.
  unfold days_in_month.
  destruct m as [|p|p]; try lia.
  repeat (destruct p as [p|p|]; try lia); destruct (is_leap y); lia.
Qed.

Lemma strptime_isoformat d :
  datetime_valid d = true -> strptime (isoformat d) = Return d.
Proof.
  intros Hv. pose proof Hv as Hv'. unfold datetime_valid in Hv'.
  repeat (apply andb_true_iff in Hv' as [Hv' ?]).
  repeat match goal with H : (_ <=? _) = true |- _ => apply Z.leb_le in H end.
  pose proof (days_in_month_le (dt_year d) (dt_month d)).
  destruct (in_range_checked 4 re_Y 1 (Z.to_nat 9999) years_read (dt_year d)) as [PY IY]; [lia|].
  destruct (in_range_checked 2 re_m 1 12 months_read (dt_month d)) as [Pm Im]; [simpl; lia|].
  destruct (in_range_checked 2 re_d 1 31 days_read (dt_day d)) as [Pd Id]; [simpl; lia|].
  destruct (in_range_checked 2 re_H 0 24 hours_read (dt_hour d)) as [PH IH]; [simpl; lia|].
  destruct (in_range_checked 2 re_M 0 60 minutes_read (dt_minute d)) as [PM IM]; [simpl; lia|].
  destruct (in_range_checked 2 re_S 0 60 seconds_read (dt_second d)) as [PS IS]; [simpl; lia|].
  unfold strptime, isoformat.
  rewrite !list_ascii_app.
  change (list_ascii_of_string "-") with ["-"%char].
  change (list_ascii_of_string "T") with ["T"%char].
  change (list_ascii_of_string ":") with [":"%char].
  set (gY := list_ascii_of_string (pad 4 (dt_year d))) in *.
  set (gm := list_ascii_of_string (pad 2 (dt_month d))) in *.
  set (gd := list_ascii_of_string (pad 2 (dt_day d))) in *.
  set (gH := list_ascii_of_string (pad 2 (dt_hour d))) in *.
  set (gM := list_ascii_of_string (pad 2 (dt_minute d))) in *.
  set (gS := list_ascii_of_string (pad 2 (dt_second d))) in *.
  assert (Hmatch : match_pattern iso_format
                     (gY ++ ["-"%char] ++ gm ++ ["-"%char] ++ gd ++ ["T"%char] ++
                      gH ++ [":"%char] ++ gM ++ [":"%char] ++ gS)
                   = Some ([gY; gm; gd; gH; gM; gS], [])).
  { unfold iso_format.
    unfold alternatives, re_Y, re_m, re_d, re_H, re_M, re_S in *.
    apply (group_reads _ gY); [exact PY|]. cbn [app]. rewrite lit_reads.
    apply (group_reads _ gm); [exact Pm|]. cbn [app]. rewrite lit_reads.
    apply (group_reads _ gd); [exact Pd|]. cbn [app]. rewrite lit_reads.
    apply (group_reads _ gH); [exact PH|]. cbn [app]. rewrite lit_reads.
    apply (group_reads _ gM); [exact PM|]. cbn [app]. rewrite lit_reads.
    pose proof (group_reads _ gS [] [] [] [] PS eq_refl) as HS.
    rewrite app_nil_r in HS. exact HS. }
  rewrite Hmatch, IY, Im, Id, IH, IM, IS.
  destruct d. simpl in *. now rewrite Hv.
Qed.

(** ** The dictionary given to the remote call *)

Lemma dict_get_in_keys {V} (d : dict V) k v : dict_get d k = Some v -> In k (dict_keys d).
Proof.
  unfold dict_keys. induction d as [|[k0 v0] d IH]; simpl; [discriminate|].
  destruct (String.eqb_spec k k0) as [->|_]; auto.
Qed.

Lemma dict_set_keys {V} (d : dict V) k v :
  In k (dict_keys d) -> dict_keys (dict_set d k v) = dict_keys d.
Proof.
  unfold dict_keys. induction d as [|[k0 v0] d IH]; simpl; [tauto|].
  destruct (String.eqb_spec k k0) as [->|Hne]; simpl; [reflexivity|].
  intros [E|Hin]; [congruence|]. now rewrite IH.
Qed.

Lemma strptime_throws x e : strptime x = Throw e -> e = ValueError.
Proof.
  unfold strptime.
  destruct (match_pattern iso_format (list_ascii_of_string x)) as [[gs rest]|];
    [|congruence].
  do 7 (destruct gs as [|? gs]; try congruence).
  destruct rest; [|congruence].
  destruct (datetime_valid _); congruence.
Qed.

Lemma local_throws tz u e : local tz u = Throw e -> e = ValueError.
Proof. unfold local. destruct (_ && _); congruence. Qed.

Lemma mktime_throws tz d e : mktime tz d = Throw e -> e = ValueError.
Proof.
  unfold mktime, and_then.
  repeat match goal with
         | |- context [match local tz ?u with _ => _ end] =>
             let E := fresh "E" in
             destruct (local tz u) eqn:E;
             [|apply local_throws in E; congruence]
         | |- context [if ?b then _ else _] => destruct b
         end;
    discriminate.
Qed.

Lemma isoDateToTimestap_throws tz x e : isoDateToTimestap tz x = Throw e -> e = ValueError.
Proof.
  unfold isoDateToTimestap, and_then, timestamp.
  destruct (strptime x) eqn:E.
  - apply mktime_throws.
  - intros [= <-]. now apply (strptime_throws x).
Qed.

(** One of lines 170 and 171. *)
Lemma retime_cases tz d key :
  match retime tz d key with
  | Return d' =>
      exists x t, dict_get d key = Some (SStr x) /\ isoDateToTimestap tz x = Return t
                  /\ d' = dict_set d key (SNum t)
  | Throw e =>
      (e = KeyError key /\ dict_get d key = None)
      \/ (e = ValueError /\ exists x, dict_get d key = Some (SStr x)
                                      /\ isoDateToTimestap tz x = Throw ValueError)
      \/ (e = TypeError /\ exists z, dict_get d key = Some (SNum z))
  end.
Proof.
  unfold retime, and_then, dict_item.
  destruct (dict_get d key) as [[x|z]|]; [| right; right; eauto | left; auto].
  destruct (isoDateToTimestap tz x) as [t|e] eqn:E; [eauto|].
  right. left. pose proof (isoDateToTimestap_throws _ _ _ E). subst e. eauto.
Qed.

(** X5. Lines 169-171 hand the remote call every column of the row, in
    the row's order: each as the text [str] gives, except
    [progress_timestamp] and [time], which are the numbers their texts
    convert to. *)
Theorem make_str_dict_shape tz row str_dict :
  make_str_dict tz row = Return str_dict ->
  dict_keys str_dict = dict_keys row
  /\ (forall key, key <> "progress_timestamp" -> key <> "time" ->
                  dict_get str_dict key = option_map as_text (dict_get row key))
  /\ (exists v t, dict_get row "progress_timestamp" = Some v
                  /\ isoDateToTimestap tz (py_str v) = Return t
                  /\ dict_get str_dict "progress_timestamp" = Some (SNum t))
  /\ (exists v t, dict_get row "time" = Some v
                  /\ isoDateToTimestap tz (py_str v) = Return t
                  /\ dict_get str_dict "time" = Some (SNum t)).
Proof.
  unfold make_str_dict, and_then. intros H.
  set (d0 := map (fun kv => (fst kv, SStr (py_str (snd kv)))) row) in *.
  assert (Hget : forall k, dict_get d0 k = option_map as_text (dict_get row k))
    by (intros k; apply (dict_get_map as_text)).
  assert (Hkeys : dict_keys d0 = dict_keys row)
    by (unfold d0, dict_keys; rewrite map_map; reflexivity).
  pose proof (retime_cases tz d0 "progress_timestamp") as H1.
  destruct (retime tz d0 "progress_timestamp") as [d1|]; [|discriminate].
  destruct H1 as (x1 & t1 & Hx1 & Ht1 & ->).
  pose proof (retime_cases tz (dict_set d0 "progress_timestamp" (SNum t1)) "time") as H2.
  rewrite H in H2. destruct H2 as (x2 & t2 & Hx2 & Ht2 & ->).
  rewrite dict_get_set_ne in Hx2 by discriminate.
  rewrite Hget in Hx1, Hx2.
  destruct (dict_get row "progress_timestamp") as [v1|] eqn:Ev1; [|discriminate].
  destruct (dict_get row "time") as [v2|] eqn:Ev2; [|discriminate].
  injection Hx1 as <-. injection Hx2 as <-.
  split; [|split; [|split]].
  - rewrite <- Hkeys. rewrite !dict_set_keys; [reflexivity| |].
    + apply (dict_get_in_keys _ _ (as_text v1)). now rewrite Hget, Ev1.
    + rewrite dict_set_keys.
      * apply (dict_get_in_keys _ _ (as_text v2)). now rewrite Hget, Ev2.
      * apply (dict_get_in_keys _ _ (as_text v1)). now rewrite Hget, Ev1.
  - intros key Hk1 Hk2. rewrite !dict_get_set_ne by congruence. apply Hget.
  - exists v1, t1. split; [reflexivity|]. split; [exact Ht1|].
    rewrite dict_get_set_ne by discriminate. apply dict_get_set_eq.
  - exists v2, t2. split; [reflexivity|]. split; [exact Ht2|]. apply dict_get_set_eq.
Qed.

Lemma make_str_dict_shape_witness :
  exists str_dict,
    make_str_dict UTC (select_row (table_columns (bookmark_rows three_bookmarks))
                                  (sample_bookmark 1 "2021-03-04T10:15:30"))
    = Return str_dict
    /\ dict_get str_dict "progress_timestamp" = Some (SNum 1614852930).
Proof.
  eexists. split; [vm_compute; reflexivity|].
  match goal with
  | |- dict_get ?sd _ = _ =>
      destruct (make_str_dict_shape UTC
                  (select_row (table_columns (bookmark_rows three_bookmarks))
                              (sample_bookmark 1 "2021-03-04T10:15:30")) sd)
        as (_ & _ & _ & _)
  end.
  - vm_compute. reflexivity.
  - vm_compute. reflexivity.
Defined.

(** ** From the sync to the backfill *)

(** The years 2..9998 lie four days and more inside the readings
    [datetime] can hold. *)
Lemma days_before_month_bounds y m :
  1 <= m <= 12 -> 0 <= days_before_month y m <= 335.
Proof.
  intros Hm.
  assert (H : m = 1 \/ m = 2 \/ m = 3 \/ m = 4 \/ m = 5 \/ m = 6 \/ m = 7 \/ m = 8
              \/ m = 9 \/ m = 10 \/ m = 11 \/ m = 12) by lia.
  unfold days_before_month.
  repeat (destruct H as [->|H]); try subst m; simpl; unfold days_in_month;
    destruct (is_leap y); lia.
Qed.

Lemma seconds_mid_range d :
  datetime_valid d = true -> 2 <= dt_year d <= 9998 ->
  min_seconds + 4 * 86400 <= seconds_since_epoch d <= max_seconds - 4 * 86400.
Proof.
  intros Hv Hy. unfold datetime_valid in Hv.
  repeat (apply andb_true_iff in Hv as [Hv ?]).
  repeat match goal with H : (_ <=? _) = true |- _ => apply Z.leb_le in H end.
  apply Z.leb_le in Hv.
  pose proof (days_in_month_le (dt_year d) (dt_month d)).
  pose proof (days_before_month_bounds (dt_year d) (dt_month d) ltac:(lia)).
  rewrite min_seconds_eq, max_seconds_eq.
  unfold seconds_since_epoch, ymd2ord.
  change (days_before_year 1970 + days_before_month 1970 1 + 1) with 719163.
  unfold days_before_year. cbv zeta.
  set (p := dt_year d - 1) in *.
  assert (Hp : 1 <= p <= 9997) by (unfold p; lia).
  pose proof (Z.div_pos p 400 ltac:(lia) ltac:(lia)).
  pose proof (Z.div_pos p 100 ltac:(lia) ltac:(lia)).
  pose proof (Z.div_le_upper_bound p 4 2500 ltac:(lia) ltac:(lia)).
  pose proof (Z.div_le_upper_bound p 400 25 ltac:(lia) ltac:(lia)).
  pose proof (Z.div_le_compat_l p 4 100 ltac:(lia) ltac:(lia)).
  lia.
Qed.

Lemma mktime_returns tz d :
  within_a_day tz ->
  min_seconds + 4 * 86400 <= seconds_since_epoch d <= max_seconds - 4 * 86400 ->
  exists z, mktime tz d = Return z.
Proof.
  intros Htz Ht. unfold mktime, and_then.
  set (t := seconds_since_epoch d) in *.
  assert (Hlocal : forall u, t - 2 * 86400 <= u <= t + 2 * 86400 ->
                             local tz u = Return (u + tz u)).
  { intros u Hu. apply local_in_range. specialize (Htz u). lia. }
  pose proof (Htz t) as H0.
  rewrite (Hlocal t) by lia.
  pose proof (Htz (t - (t + tz t - t))) as H1.
  rewrite (Hlocal (t - (t + tz t - t))) by lia.
  destruct (_ =? t).
  - pose proof (Htz (t - (t + tz t - t) - 24 * 3600)) as H2.
    rewrite (Hlocal (t - (t + tz t - t) - 24 * 3600)) by lia.
    destruct (_ =? _); [eauto|].
    rewrite Hlocal; [eauto|]. lia.
  - rewrite Hlocal; [eauto|]. lia.
Qed.

Lemma isoDateToTimestap_isoformat tz d :
  datetime_valid d = true -> isoDateToTimestap tz (isoformat d) = timestamp tz d.
Proof.
  intros Hv. unfold isoDateToTimestap, and_then. now rewrite strptime_isoformat.
Qed.

Lemma isoDateToTimestap_mid_range tz d :
  within_a_day tz -> datetime_valid d = true -> 2 <= dt_year d <= 9998 ->
  exists t, isoDateToTimestap tz (isoformat d) = Return t.
Proof.
  intros Htz Hv Hy. rewrite isoDateToTimestap_isoformat by exact Hv.
  apply mktime_returns; [exact Htz | now apply seconds_mid_range].
Qed.

(** X6. The text sqlite_utils stores for a datetime is read back by
    line 168 as that datetime, so converting a timestamp written by the
    sync is [timestamp()] of the datetime it came from: it returns what
    that returns and raises [ValueError] when that raises, which happens
    at the ends of the years 1..9999. With a local offset within a day
    and a year from 2 to 9998 the conversion returns. *)
Theorem stored_timestamp_reads_back tz d :
  datetime_valid d = true ->
  strptime (isoformat d) = Return d
  /\ isoDateToTimestap tz (py_str (to_sql (PyDatetime d))) = timestamp tz d
  /\ (within_a_day tz -> 2 <= dt_year d <= 9998 ->
      exists t, isoDateToTimestap tz (py_str (to_sql (PyDatetime d))) = Return t).
Proof.
  intros Hv. split; [now apply strptime_isoformat|]. simpl.
  split; [now apply isoDateToTimestap_isoformat|].
  intros Htz Hy. now apply isoDateToTimestap_mid_range.
Qed.

Lemma stored_timestamp_reads_back_witness :
  strptime (isoformat (mk_datetime 2020 2 29 23 59 59))
  = Return (mk_datetime 2020 2 29 23 59 59).
Proof.
  apply (stored_timestamp_reads_back UTC (mk_datetime 2020 2 29 23 59 59)).
  reflexivity.
Defined.

Lemma dict_get_listed {V} (g : string -> V) cols k :
  In k cols -> dict_get (map (fun c => (c, g c)) cols) k = Some (g k).
Proof.
  induction cols as [|c cols IH]; intros H; simpl in *; [destruct H|].
  destruct (String.eqb_spec k c) as [->|Hne]; [reflexivity|].
  destruct H as [E|H]; [congruence | auto].
Qed.

Lemma column_listed tbl r k :
  In r tbl -> In k (dict_keys (bm_fields r)) -> k <> "bookmark_id" ->
  In k (table_columns tbl).
Proof.
  intros Hr Hk Hne. unfold table_columns. right.
  apply in_in_remove; [exact Hne|]. apply nodup_In.
  apply in_flat_map. now exists r.
Qed.

(** A stored column is selected with its value. *)
Lemma select_row_get tbl r k v :
  In r tbl -> dict_get (bm_fields r) k = Some v -> k <> "bookmark_id" ->
  dict_get (select_row (table_columns tbl) r) k = Some v.
Proof.
  intros Hr Hget Hne. unfold select_row.
  rewrite (dict_get_listed
             (fun c => if String.eqb c "bookmark_id" then SqlInt (bm_bookmark_id r)
                       else match dict_get (bm_fields r) c with
                            | Some v => v
                            | None => SqlNull
                            end)).
  - destruct (String.eqb_spec k "bookmark_id"); [contradiction|]. now rewrite Hget.
  - eapply column_listed; eauto. eapply dict_get_in_keys; eauto.
Qed.

Lemma retime_ok tz d key x t :
  dict_get d key = Some (SStr x) -> isoDateToTimestap tz x = Return t ->
  retime tz d key = Return (dict_set d key (SNum t)).
Proof.
  intros Hd Ht. unfold retime, and_then, dict_item. now rewrite Hd, Ht.
Qed.

Lemma make_str_dict_mid_range tz tbl r :
  within_a_day tz -> In r tbl -> timed_mid_range r ->
  exists str_dict, make_str_dict tz (select_row (table_columns tbl) r) = Return str_dict.
Proof.
  intros Htz Hr (d1 & d2 & Hv1 & Hv2 & Hy1 & Hy2 & H1 & H2).
  apply (select_row_get tbl r) in H1; [|exact Hr|discriminate].
  apply (select_row_get tbl r) in H2; [|exact Hr|discriminate].
  destruct (isoDateToTimestap_mid_range tz d1 Htz Hv1 Hy1) as [t1 Ht1].
  destruct (isoDateToTimestap_mid_range tz d2 Htz Hv2 Hy2) as [t2 Ht2].
  unfold make_str_dict, and_then.
  erewrite retime_ok;
    [|rewrite (dict_get_map (fun x => SStr (py_str x))), H1; reflexivity
     |exact Ht1].
  erewrite retime_ok;
    [eauto
    |rewrite dict_get_set_ne by discriminate;
     rewrite (dict_get_map (fun x => SStr (py_str x))), H2; reflexivity
    |exact Ht2].
Qed.

Lemma working_set_rows tbl bt r :
  In r (the_unpopulated_bookmarks_query tbl bt) -> In r tbl.
Proof.
  unfold the_unpopulated_bookmarks_query. intros H.
  apply in_flat_map in H as (a & Ha & Hin).
  now rewrite (joined_copies _ _ _ Hin).
Qed.

Lemma upsert_row_Forall (P : bookmark_row -> Prop) id f tbl :
  Forall P tbl ->
  P (mk_bookmark_row id f) ->
  (forall old, P (mk_bookmark_row id (dict_update old f))) ->
  Forall P (upsert_row id f tbl).
Proof.
  intros Ht Hnew Hupd. unfold upsert_row. destruct (has_row id tbl).
  - induction Ht as [|r tbl Hr Ht IH]; simpl; [constructor|].
    destruct (bm_bookmark_id r =? id); constructor; auto.
  - induction Ht as [|r tbl Hr Ht IH]; simpl; [repeat constructor; exact Hnew|].
    destruct (id <? bm_bookmark_id r); repeat constructor; auto.
Qed.

Lemma upsert_all_Forall (P : bookmark_row -> Prop) records : forall tbl tbl',
  Forall P tbl ->
  (forall record id, In record records -> record_pk record = Return id ->
     P (mk_bookmark_row id (record_fields record))
     /\ forall old, P (mk_bookmark_row id (dict_update old (record_fields record)))) ->
  upsert_all records tbl = Return tbl' ->
  Forall P tbl'.
Proof.
  induction records as [|record records IH]; intros tbl tbl' Ht Hrec H; simpl in H.
  - now injection H as <-.
  - unfold and_then in H. destruct (record_pk record) as [id|] eqn:Hid; [|discriminate].
    destruct (Hrec record id (or_introl eq_refl) Hid) as [Hnew Hupd].
    eapply IH; [|intros r i Hr; apply Hrec; now right|exact H].
    now apply upsert_row_Forall.
Qed.

Lemma timed_record folder entry record id :
  projected folder entry record -> timed_entry entry ->
  forall fields,
    (fields = record_fields record
     \/ exists old, fields = dict_update old (record_fields record)) ->
    well_timed (mk_bookmark_row id fields).
Proof.
  intros (Hkeys & _ & Hvals) (d1 & d2 & Hv1 & Hv2 & H1 & H2) fields Hf.
  assert (Hnd : NoDup (dict_keys record)) by (rewrite Hkeys; apply BOOKMARK_KEYS_NoDup).
  exists d1, d2. split; [exact Hv1|]. split; [exact Hv2|]. cbn [bm_fields]. split.
  - apply (fields_get fields record "progress_timestamp" (PyDatetime d1)); auto.
    + discriminate.
    + destruct (Hvals "progress_timestamp") as [_ ->]; [simpl; auto 10 | exact H1].
  - apply (fields_get fields record "time" (PyDatetime d2)); auto.
    + discriminate.
    + destruct (Hvals "time") as [_ ->]; [simpl; auto 10 | exact H2].
Qed.

(** X7. The sync keeps the timestamps readable: when every stored
    bookmark has timestamps in the form sqlite_utils writes and the service
    lists bookmarks whose timestamps are datetimes, every bookmark stored
    after the sync has them too. *)
Theorem bookmarks_keeps_timestamps world auth folder d s' entries :
  run (bookmarks world auth folder) d = (Ok tt, s') ->
  get_bookmarks_result world folder 500 = Return entries ->
  Forall timed_entry entries ->
  Forall well_timed (bookmark_rows d) ->
  Forall well_timed (bookmark_rows (st_db s')).
Proof.
  intros Hrun Hlist Hentries Hd.
  destruct (bookmarks_effect _ _ _ _ _ _ Hrun) as [_ H].
  destruct (H eq_refl) as (entries' & records & Hlist' & _ & Hproj & Hup & _).
  rewrite Hlist in Hlist'. injection Hlist' as <-.
  eapply upsert_all_Forall; [exact Hd| |exact Hup].
  intros record id Hin Hid.
  destruct (Forall2_partner _ _ _ _ Hproj Hin) as (entry & He & Hp).
  rewrite Forall_forall in Hentries. specialize (Hentries entry He).
  split; [|intros old]; eapply timed_record; eauto.
Qed.

Lemma bookmarks_keeps_timestamps_witness :
  Forall well_timed
    (bookmark_rows
       (st_db (snd (run (bookmarks (listing_remote [sample_entry 7 "Old title"])
                                   sample_auth "archive") empty_database)))).
Proof.
  apply (bookmarks_keeps_timestamps (listing_remote [sample_entry 7 "Old title"])
           sample_auth "archive" empty_database
           (snd (run (bookmarks (listing_remote [sample_entry 7 "Old title"])
                                sample_auth "archive") empty_database))
           [sample_entry 7 "Old title"]).
  - vm_compute. reflexivity.
  - reflexivity.
  - constructor; [|constructor].
    exists (mk_datetime 2021 3 4 10 15 30), (mk_datetime 2021 3 4 10 15 30).
    repeat split; reflexivity.
  - constructor.
Defined.

(** X8. On a table whose timestamps have the form sqlite_utils writes
    and lie in the years 2..9998, with a local offset within a day, the
    backfill never stops on a timestamp: with the credentials read, the
    login accepted, the primary key kept and no NULL text stored, it
    reaches its end, whatever the fetches do, with one more row for each
    bookmark of the working set, and leaves nothing to fetch. *)
Theorem get_text_completes_on_synced tz world auth trace d c tbl :
  within_a_day tz ->
  read_credentials auth = Return c ->
  login_result world c = Return tt ->
  bookmarks_table d = Some tbl ->
  bookmarks_pk tbl ->
  texts_not_null (text_rows d) ->
  Forall timed_mid_range tbl ->
  exists s',
    run (get_text tz world auth trace) d = (Ok tt, s')
    /\ List.length (text_rows (st_db s'))
       = (List.length (text_rows d) + List.length (working_set d))%nat
    /\ working_set (st_db s') = [].
Proof.
  intros Htz Hc Hlogin Htbl Hpk Hnn Hwt.
  destruct (get_text_started tz world auth trace d c tbl Hc Htbl Hlogin)
    as (evs & Hrun & _).
  assert (Hts : Forall (fun r => exists sd,
                          make_str_dict tz (select_row (table_columns tbl) r) = Return sd)
                       (working_set d)).
  { rewrite Forall_forall in *. intros r Hr.
    rewrite (working_set_query _ _ Htbl) in Hr. apply working_set_rows in Hr.
    apply make_str_dict_mid_range; auto. }
  destruct (loop_effect_complete tz world trace tbl (working_set d) 0%nat (text_rows d)
              Hpk Hnn (working_set_query _ _ Htbl) Hts) as [Heff Hlen].
  rewrite Heff in Hrun. cbn [fst snd] in Hrun.
  eexists. split; [exact Hrun|]. cbn [st_db]. split.
  - rewrite text_rows_add, text_rows_created, length_app, length_map. now rewrite Hlen.
  - rewrite (working_set_add _ tbl) by exact Htbl.
    rewrite (loop_effect_query tz world trace tbl _ _ _ _ _ Hpk
               (working_set_query _ _ Htbl) Heff).
    rewrite length_map, Hlen. apply skipn_all.
Qed.

Lemma three_bookmarks_mid_range : Forall timed_mid_range (bookmark_rows three_bookmarks).
Proof.
  unfold bookmark_rows, three_bookmarks. cbn [rows bookmarks_table].
  repeat constructor.
  - exists (mk_datetime 2021 3 4 10 15 30), (mk_datetime 2021 3 4 10 15 30).
    cbn [dt_year]. repeat split; try reflexivity; lia.
  - exists (mk_datetime 2021 3 5 8 0 0), (mk_datetime 2021 3 4 10 15 30).
    cbn [dt_year]. repeat split; try reflexivity; lia.
  - exists (mk_datetime 2021 3 6 23 59 59), (mk_datetime 2021 3 4 10 15 30).
    cbn [dt_year]. repeat split; try reflexivity; lia.
Qed.

Lemma get_text_completes_on_synced_witness :
  exists s',
    run (get_text UTC flaky_remote sample_auth false) three_bookmarks = (Ok tt, s')
    /\ working_set (st_db s') = [].
Proof.
  destruct (get_text_completes_on_synced UTC flaky_remote sample_auth false
              three_bookmarks sample_credentials (bookmark_rows three_bookmarks))
    as (s' & Hrun & _ & Hws).
  - intros u. unfold UTC. lia.
  - reflexivity.
  - reflexivity.
  - reflexivity.
  - exact sample_pk.
  - constructor.
  - exact three_bookmarks_mid_range.
  - exists s'. auto.
Defined.

(** ** The remote calls of a backfill *)

Lemma remote_calls_app out out' :
  remote_calls (out ++ out') = remote_calls out ++ remote_calls out'.
Proof. apply flat_map_app. Qed.

Section Fetches.
Variables (tz : timezone) (world : remote) (trace : bool) (total : nat).

Lemma get_text_item_fetches num row sd s :
  make_str_dict tz row = Return sd ->
  exists evs,
    st_out (snd (get_text_item tz world trace total num row s)) = st_out s ++ evs
    /\ remote_calls evs = item_fetches trace num sd.
Proof.
  intros Hsd. destruct s as [d out].
  unfold get_text_item, bind, lift. rewrite Hsd.
  unfold item_fetches, traced_ok.
  unfold try_except, pull_text, record_failure, db_insert_text, insert_text_row,
    print, emit, when, bind, lift, get_db, put_db, ret, dict_item, decode_utf8,
    is_Exception, and_then; simpl.
  destruct trace; simpl;
    repeat match goal with
      | |- context [match dict_get sd ?k with _ => _ end] =>
          destruct (dict_get sd k); simpl
      | |- context [match get_text_result ?w ?n ?x with _ => _ end] =>
          destruct (get_text_result w n x); simpl
      | |- context [if utf8_valid ?p then _ else _] => destruct (utf8_valid p); simpl
      | |- context [match id_of_sdval ?v with _ => _ end] =>
          destruct (id_of_sdval v); simpl
      | |- context [if existsb ?f ?l then _ else _] => destruct (existsb f l); simpl
      end;
    rewrite <- ?app_assoc; eexists; split; reflexivity.
Qed.

Variable tbl : list bookmark_row.

Lemma loop_fetches_run rs : forall num s,
  exists evs,
    st_out (snd (for_enumerate (get_text_item tz world trace total) num
                               (map (select_row (table_columns tbl)) rs) s))
    = st_out s ++ evs
    /\ remote_calls evs
       = loop_fetches tz world trace (table_columns tbl) num rs (text_rows (st_db s)).
Proof.
  induction rs as [|r rs IH]; intros num s.
  - exists []. simpl. now rewrite app_nil_r.
  - cbn [for_enumerate map loop_fetches].
    destruct (make_str_dict tz (select_row (table_columns tbl) r)) as [sd|e] eqn:Hsd.
    + pose proof (make_str_dict_bookmark_id _ _ _ _ Hsd) as Hid.
      destruct (get_text_item_fetches num _ sd s Hsd) as (evs & Hout & Hcalls).
      destruct (has_text_row (bm_bookmark_id r) (text_rows (st_db s))) eqn:Hdup.
      * destruct (get_text_item_dup tz world trace total num _ _ _ s Hsd Hid Hdup)
          as (evs' & Hrun & _).
        exists evs. unfold bind. rewrite Hrun in *. cbn [snd st_out] in *.
        split; [exact Hout | now rewrite app_nil_r].
      * destruct (get_text_item_ok tz world trace total num _ _ _ s Hsd Hid Hdup)
          as (evs' & Hrun & _).
        rewrite Hrun in Hout. cbn [snd st_out] in Hout.
        apply app_inv_head in Hout. subst evs'.
        unfold bind. rewrite Hrun.
        match goal with
        | |- context [for_enumerate _ (S num) _ ?s1] =>
            destruct (IH (S num) s1) as (evs2 & Hout2 & Hcalls2)
        end.
        exists (evs ++ evs2). cbn [st_db st_out] in *.
        rewrite Hout2, app_assoc. split; [reflexivity|].
        rewrite remote_calls_app, Hcalls, Hcalls2.
        unfold with_text_rows, text_rows. reflexivity.
    + exists []. unfold bind.
      rewrite (get_text_item_throw tz world trace total num _ e s Hsd).
      simpl. now rewrite app_nil_r.
Qed.
End Fetches.

Section Ends.
Variables (tz : timezone) (world : remote) (auth : auth_file) (trace : bool).

(** A run, by the database it leaves and the remote calls it makes. *)
Lemma get_text_ends_run d r s' :
  run (get_text tz world auth trace) d = (r, s') ->
  (r, st_db s') = get_text_ends tz world auth trace d
  /\ remote_calls (st_out s') = get_text_calls tz world auth trace d.
Proof.
  unfold get_text_ends, get_text_calls, run, get_text, bind at 1.
  rewrite load_credentials_run.
  destruct (read_credentials auth) as [c|e] eqn:Hc.
  2:{ destruct (is_KeyError_or_FileNotFoundError e); intros [= <- <-]; split; reflexivity. }
  destruct (bookmarks_table d) as [tbl|] eqn:Htbl.
  2:{ unfold bind, create_bookmark_text, bind, get_db, raise. cbn [st_db].
      rewrite Htbl. intros [= <- <-]. split; reflexivity. }
  unfold bind at 1. rewrite (create_bookmark_text_run _ tbl) by exact Htbl.
  cbn [st_db st_out]. unfold bind at 1, get_db at 1. cbn [st_db].
  unfold unpopulated_bookmarks. rewrite text_rows_created.
  unfold bookmark_rows. rewrite bookmarks_created, Htbl. cbn [rows].
  fold (text_rows d).
  replace (the_unpopulated_bookmarks_query tbl (text_rows d)) with (working_set d)
    by (unfold working_set, bookmark_rows; now rewrite Htbl).
  rewrite length_map.
  unfold bind at 1, instapaper_login, bind at 1, emit, lift.
  destruct (login_result world c) as [[]|e] eqn:Hlogin.
  2:{ intros [= <- <-]. split; reflexivity. }
  cbn [st_db st_out app].
  set (ws := working_set d).
  set (pre := if trace then [Console (Iterating (List.length ws))] else []).
  set (s0 := mk_state (with_bookmark_text d) (Remote (Login c) :: pre)).
  assert (Hpre : (bind (when trace (print (Iterating (List.length ws))))
                    (fun _ => bind (for_enumerate (get_text_item tz world trace (List.length ws))
                                 0%nat (map (select_row (table_columns tbl)) ws))
                              (fun _ => when trace (print FinishedDownloading))))
                   (mk_state (with_bookmark_text d) [Remote (Login c)])
                 = (bind (for_enumerate (get_text_item tz world trace (List.length ws)) 0%nat
                                 (map (select_row (table_columns tbl)) ws))
                              (fun _ => when trace (print FinishedDownloading))) s0).
  { unfold s0, pre, bind at 1, when at 1, print, emit, ret. now destruct trace. }
  rewrite Hpre. clear Hpre.
  destruct (get_text_loop_effect tz world trace (List.length ws) tbl ws 0%nat s0)
    as (evs & Hrun & _).
  destruct (loop_fetches_run tz world trace (List.length ws) tbl ws 0%nat s0)
    as (evs' & Hout & Hcalls).
  rewrite Hrun in Hout. cbn [snd st_out] in Hout. apply app_inv_head in Hout. subst evs'.
  change (text_rows (st_db s0)) with (text_rows (with_bookmark_text d)) in *.
  rewrite text_rows_created in *.
  unfold bind. rewrite Hrun.
  destruct (loop_effect tz world trace (table_columns tbl) 0 ws (text_rows d))
    as [r' new] eqn:Heff.
  cbn [fst snd st_db st_out].
  assert (Hpre_calls : remote_calls pre = [])
    by (unfold pre; now destruct trace).
  destruct r' as [[]| |]; unfold when, print, emit, ret; try destruct trace;
    intros [= <- <-]; cbn [st_db st_out]; (split; [reflexivity|]);
    unfold s0; cbn [st_out];
    unfold remote_calls in *; cbn [flat_map app];
    rewrite ?flat_map_app, Hcalls; cbn [flat_map app];
    rewrite ?app_nil_r; reflexivity.
Qed.
End Ends.

(** ** The text fetches of a backfill *)

Section FetchFacts.
Variables (tz : timezone) (world : remote) (trace : bool) (cols : list string).

Lemma loop_fetches_in_order rs : forall num bt,
  StronglySorted lt (map fetch_position (loop_fetches tz world trace cols num rs bt))
  /\ Forall (fun call => exists n r sd,
               call = GetText n sd /\ (num <= n)%nat
               /\ nth_error rs (n - num) = Some r
               /\ make_str_dict tz (select_row cols r) = Return sd)
            (loop_fetches tz world trace cols num rs bt).
Proof.
  induction rs as [|r rs IH]; intros num bt; cbn [loop_fetches].
  - split; constructor.
  - destruct (make_str_dict tz (select_row cols r)) as [sd|e] eqn:Hsd;
      [|split; constructor].
    assert (Hrest : forall fs,
              StronglySorted lt (map fetch_position fs)
              /\ Forall (fun call => exists n r0 sd0,
                           call = GetText n sd0 /\ (S num <= n)%nat
                           /\ nth_error rs (n - S num) = Some r0
                           /\ make_str_dict tz (select_row cols r0) = Return sd0) fs ->
              StronglySorted lt (map fetch_position (item_fetches trace num sd ++ fs))
              /\ Forall (fun call => exists n r0 sd0,
                           call = GetText n sd0 /\ (num <= n)%nat
                           /\ nth_error (r :: rs) (n - num) = Some r0
                           /\ make_str_dict tz (select_row cols r0) = Return sd0)
                        (item_fetches trace num sd ++ fs)).
    { intros fs [Hs Hf].
      assert (Hf' : Forall (fun call => exists n r0 sd0,
                           call = GetText n sd0 /\ (num <= n)%nat
                           /\ nth_error (r :: rs) (n - num) = Some r0
                           /\ make_str_dict tz (select_row cols r0) = Return sd0) fs).
      { eapply Forall_impl; [|exact Hf].
        intros call (n & r0 & sd0 & -> & Hn & Hnth & Hc).
        exists n, r0, sd0. repeat split; auto; [lia|].
        replace (n - num)%nat with (S (n - S num)) by lia. exact Hnth. }
      unfold item_fetches. destruct (traced_ok trace sd); cbn [app map]; [|auto].
      split.
      - constructor; [exact Hs|].
        apply Forall_map. eapply Forall_impl; [|exact Hf].
        intros call (n & r0 & sd0 & -> & Hn & Hrest). simpl. lia.
      - constructor; [|exact Hf'].
        exists num, r, sd. rewrite Nat.sub_diag. auto. }
    destruct (has_text_row (bm_bookmark_id r) bt).
    + apply Hrest. split; constructor.
    + apply Hrest, IH.
Qed.

Lemma loop_fetches_complete rs : forall num bt new,
  loop_effect tz world trace cols num rs bt = (Ok tt, new) ->
  (forall r sd, In r rs -> make_str_dict tz (select_row cols r) = Return sd ->
                traced_ok trace sd = true) ->
  exists sds,
    Forall2 (fun r sd => make_str_dict tz (select_row cols r) = Return sd) rs sds
    /\ loop_fetches tz world trace cols num rs bt = fetches_from num sds.
Proof.
  induction rs as [|r rs IH]; intros num bt new Heff Hok;
    cbn [loop_fetches loop_effect] in *.
  - exists []. split; [constructor | reflexivity].
  - destruct (make_str_dict tz (select_row cols r)) as [sd|e] eqn:Hsd; [|discriminate].
    destruct (has_text_row (bm_bookmark_id r) bt); [discriminate|].
    destruct (loop_effect tz world trace cols (S num) rs _) as [r1 new1] eqn:E.
    injection Heff as -> <-.
    destruct (IH _ _ _ E) as (sds & Hall & Hf).
    { intros r0 sd0 Hin. apply Hok. now right. }
    exists (sd :: sds). split; [now constructor|].
    unfold item_fetches. rewrite (Hok r sd (or_introl eq_refl) Hsd), Hf.
    reflexivity.
Qed.

Lemma loop_effect_app rs1 : forall rs2 num bt,
  loop_effect tz world trace cols num (rs1 ++ rs2) bt
  = match loop_effect tz world trace cols num rs1 bt with
    | (Ok tt, new1) =>
        let (r2, new2) := loop_effect tz world trace cols (List.length rs1 + num) rs2
                                      (bt ++ new1) in
        (r2, new1 ++ new2)
    | stopped => stopped
    end.
Proof.
  induction rs1 as [|r rs1 IH]; intros rs2 num bt; cbn [app loop_effect List.length].
  - rewrite app_nil_r. simpl. now destruct (loop_effect _ _ _ _ _ rs2 bt).
  - destruct (make_str_dict tz (select_row cols r)) as [sd|e]; [|reflexivity].
    destruct (has_text_row (bm_bookmark_id r) bt); [reflexivity|].
    rewrite IH.
    destruct (loop_effect tz world trace cols (S num) rs1 _) as [[[]| |] new1];
      try reflexivity.
    rewrite <- app_assoc. cbn [app].
    replace (List.length rs1 + S num)%nat with (S (List.length rs1 + num)) by lia.
    now destruct (loop_effect tz world trace cols _ rs2 _).
Qed.

Lemma loop_fetches_app rs1 : forall rs2 num bt new1,
  loop_effect tz world trace cols num rs1 bt = (Ok tt, new1) ->
  loop_fetches tz world trace cols num (rs1 ++ rs2) bt
  = loop_fetches tz world trace cols num rs1 bt
    ++ loop_fetches tz world trace cols (List.length rs1 + num) rs2 (bt ++ new1).
Proof.
  induction rs1 as [|r rs1 IH]; intros rs2 num bt new1 Heff;
    cbn [app loop_effect loop_fetches List.length] in *.
  - injection Heff as <-. now rewrite app_nil_r.
  - destruct (make_str_dict tz (select_row cols r)) as [sd|e]; [|discriminate].
    destruct (has_text_row (bm_bookmark_id r) bt); [discriminate|].
    destruct (loop_effect tz world trace cols (S num) rs1 _) as [r1 new] eqn:E.
    injection Heff as -> <-.
    rewrite (IH rs2 _ _ _ E), <- !app_assoc. cbn [app].
    replace (List.length rs1 + S num)%nat with (S (List.length rs1 + num)) by lia.
    reflexivity.
Qed.

(** The loop gets through a stretch of the working set whose bookmarks have
    no row yet and convert. *)
Lemma loop_effect_reaches tbl done : forall rest num bt,
  bookmarks_pk tbl ->
  done ++ rest = the_unpopulated_bookmarks_query tbl bt ->
  Forall (fun r => has_text_row (bm_bookmark_id r) bt = false) done ->
  Forall (fun r => exists sd, make_str_dict tz (select_row cols r) = Return sd) done ->
  exists new,
    loop_effect tz world trace cols num done bt = (Ok tt, new)
    /\ map bt_bookmark_id new = map bm_bookmark_id done
    /\ the_unpopulated_bookmarks_query tbl (bt ++ new) = rest.
Proof.
  induction done as [|r done IH]; intros rest num bt Hpk Hq Hfresh Hconv.
  - exists []. rewrite app_nil_r. simpl in Hq. auto.
  - inversion Hfresh as [|? ? Hfr Hfresh']; subst.
    inversion Hconv as [|? ? (sd & Hsd) Hconv']; subst.
    cbn [loop_effect]. rewrite Hsd, Hfr.
    set (t := item_row (bm_bookmark_id r) (item_outcome world trace num sd)).
    assert (Hq' : the_unpopulated_bookmarks_query tbl (bt ++ [t]) = done ++ rest).
    { eapply query_after_insert; eauto.
      - apply item_row_id.
      - apply item_row_text. }
    destruct (IH rest (S num) (bt ++ [t])) as (new & Heff & Hids & Hrest); auto.
    + apply Forall_forall. intros r' Hin.
      rewrite Forall_forall in Hfresh'. specialize (Hfresh' r' Hin).
      rewrite has_text_row_app, Hfresh'. cbn [orb].
      unfold has_text_row. cbn [existsb]. rewrite orb_false_r.
      unfold t. rewrite item_row_id.
      destruct (Z.eqb_spec (bm_bookmark_id r) (bm_bookmark_id r')) as [E|]; [|reflexivity].
      exfalso.
      assert (Hin' : In r' (the_unpopulated_bookmarks_query tbl (bt ++ [t])))
        by (rewrite Hq'; apply in_or_app; now left).
      unfold the_unpopulated_bookmarks_query in Hin'.
      apply in_flat_map in Hin' as (x & _ & Hx).
      pose proof (joined_copies _ _ _ Hx) as ->.
      rewrite (joined_served bt t x) in Hx; [destruct Hx| exact Hfresh' | |].
      * unfold t. now rewrite item_row_id.
      * apply item_row_text.
    + rewrite Heff. exists (t :: new).
      split; [reflexivity|]. split.
      * cbn [map]. f_equal; [apply item_row_id | exact Hids].
      * change (t :: new) with ([t] ++ new). now rewrite app_assoc.
Qed.
End FetchFacts.

Lemma get_text_started_parts tz world auth trace d c tbl r s' :
  read_credentials auth = Return c ->
  bookmarks_table d = Some tbl ->
  login_result world c = Return tt ->
  run (get_text tz world auth trace) d = (r, s') ->
  exists new,
    loop_effect tz world trace (table_columns tbl) 0 (working_set d) (text_rows d) = (r, new)
    /\ text_rows (st_db s') = text_rows d ++ new
    /\ bookmarks_table (st_db s') = Some tbl
    /\ remote_calls (st_out s')
       = Login c :: loop_fetches tz world trace (table_columns tbl) 0 (working_set d)
                                 (text_rows d).
Proof.
  intros Hc Htbl Hlogin Hrun.
  destruct (get_text_ends_run _ _ _ _ _ _ _ Hrun) as [Hends Hcalls].
  unfold get_text_ends in Hends. unfold get_text_calls in Hcalls.
  rewrite Hc, Htbl, Hlogin in *.
  destruct (loop_effect tz world trace (table_columns tbl) 0 (working_set d) (text_rows d))
    as [r0 new].
  injection Hends as -> Hdb. exists new.
  rewrite Hdb, text_rows_add, text_rows_created, bookmarks_table_add, bookmarks_created.
  auto.
Qed.

(** X9. The remote calls of a backfill, whatever its end: none at all, or
    one login with the credentials of the file followed by text fetches
    only; the fetches come at strictly increasing positions, so at most one
    per position, each for the working-set bookmark at its position and
    with the dictionary lines 169-171 build from that bookmark's row. *)
Theorem get_text_calls_in_order tz world auth trace d :
  let calls := remote_calls (st_out (snd (run (get_text tz world auth trace) d))) in
  calls = []
  \/ exists c tbl fetches,
       read_credentials auth = Return c
       /\ bookmarks_table d = Some tbl
       /\ calls = Login c :: fetches
       /\ StronglySorted lt (map fetch_position fetches)
       /\ Forall (fun call => exists num r sd,
                    call = GetText num sd
                    /\ nth_error (working_set d) num = Some r
                    /\ make_str_dict tz (select_row (table_columns tbl) r) = Return sd)
                 fetches.
Proof.
  intros calls. subst calls.
  destruct (run (get_text tz world auth trace) d) as [r s'] eqn:Hrun. cbn [snd].
  destruct (get_text_ends_run _ _ _ _ _ _ _ Hrun) as [_ ->].
  unfold get_text_calls.
  destruct (read_credentials auth) as [c|]; [|now left].
  destruct (bookmarks_table d) as [tbl|]; [|now left].
  right. exists c, tbl.
  destruct (login_result world c).
  - eexists. repeat split; try reflexivity.
    + apply loop_fetches_in_order.
    + eapply Forall_impl;
        [|apply (loop_fetches_in_order tz world trace (table_columns tbl)
                   (working_set d) 0%nat (text_rows d))].
      intros call (n & r0 & sd & -> & _ & Hnth & Hsd).
      rewrite Nat.sub_0_r in Hnth. exists n, r0, sd. auto.
  - exists []. repeat split; constructor.
Qed.

Lemma select_row_has cols r k :
  In k cols -> exists v, dict_get (select_row cols r) k = Some v.
Proof.
  intros Hin. unfold select_row.
  eexists. apply (dict_get_listed (fun c => if String.eqb c "bookmark_id" then _ else _)).
  exact Hin.
Qed.

Lemma select_row_lacks cols r k : ~ In k cols -> dict_get (select_row cols r) k = None.
Proof.
  unfold select_row. induction cols as [|c cols IH]; intros Hno; [reflexivity|].
  simpl. destruct (String.eqb_spec k c) as [->|_].
  - exfalso. apply Hno. now left.
  - apply IH. intros Hin. apply Hno. now right.
Qed.

Lemma make_str_dict_get tz row sd key :
  make_str_dict tz row = Return sd ->
  key <> "progress_timestamp" -> key <> "time" ->
  dict_get sd key = option_map as_text (dict_get row key).
Proof.
  unfold make_str_dict, and_then. intros H Hk1 Hk2.
  set (d0 := map (fun kv => (fst kv, SStr (py_str (snd kv)))) row) in *.
  pose proof (retime_cases tz d0 "progress_timestamp") as H1.
  destruct (retime tz d0 "progress_timestamp") as [d1|]; [|discriminate].
  destruct H1 as (x1 & t1 & _ & _ & ->).
  pose proof (retime_cases tz (dict_set d0 "progress_timestamp" (SNum t1)) "time") as H2.
  rewrite H in H2. destruct H2 as (x2 & t2 & _ & _ & ->).
  rewrite !dict_get_set_ne by congruence.
  apply (dict_get_map as_text).
Qed.

Lemma traced_ok_title tz trace tbl r sd :
  (trace = true -> In "title" (table_columns tbl)) ->
  make_str_dict tz (select_row (table_columns tbl) r) = Return sd ->
  traced_ok trace sd = true.
Proof.
  intros Htitle Hsd. unfold traced_ok. destruct trace; [|reflexivity]. cbn [negb orb].
  rewrite (make_str_dict_bookmark_id _ _ _ _ Hsd).
  rewrite (make_str_dict_get _ _ _ "title" Hsd) by discriminate.
  destruct (select_row_has (table_columns tbl) r "title" (Htitle eq_refl)) as [v ->].
  reflexivity.
Qed.

(** X10. A backfill that reaches its end, without [--trace] or on a table
    with a [title] column, has fetched the text of every working-set
    bookmark exactly once, in the order of the query: after the login its
    remote calls are one fetch per bookmark, at positions 0, 1, 2, ..., each
    with the dictionary built from that bookmark's row. *)
Theorem get_text_fetches_each_once tz world auth trace d s' :
  run (get_text tz world auth trace) d = (Ok tt, s') ->
  (trace = true -> In "title" (table_columns (bookmark_rows d))) ->
  exists c sds,
    read_credentials auth = Return c
    /\ Forall2 (fun r sd =>
                  make_str_dict tz (select_row (table_columns (bookmark_rows d)) r)
                  = Return sd)
               (working_set d) sds
    /\ remote_calls (st_out s') = Login c :: fetches_from 0 sds.
Proof.
  intros Hrun Htitle.
  destruct (get_text_ends_run _ _ _ _ _ _ _ Hrun) as [Hends Hcalls].
  unfold get_text_ends in Hends. unfold get_text_calls in Hcalls.
  destruct (read_credentials auth) as [c|e];
    [|destruct (is_KeyError_or_FileNotFoundError e); discriminate].
  unfold bookmark_rows in *.
  destruct (bookmarks_table d) as [tbl|] eqn:Htbl; [|discriminate]. cbn [rows] in *.
  destruct (login_result world c); [|discriminate].
  destruct (loop_effect tz world trace (table_columns tbl) 0 (working_set d) (text_rows d))
    as [r new] eqn:Heff.
  injection Hends as <- _.
  destruct (loop_fetches_complete _ _ _ _ _ _ _ _ Heff) as (sds & Hall & Hf).
  { intros r sd _. now apply traced_ok_title. }
  exists c, sds. rewrite Hcalls, Hf. auto.
Qed.

Lemma get_text_fetches_each_once_witness :
  exists sds,
    List.length sds = 3%nat
    /\ remote_calls (st_out (snd (run (get_text UTC flaky_remote sample_auth true)
                                      three_bookmarks)))
       = Login sample_credentials :: fetches_from 0 sds.
Proof.
  destruct (get_text_fetches_each_once UTC flaky_remote sample_auth true three_bookmarks
              (snd (run (get_text UTC flaky_remote sample_auth true) three_bookmarks)))
    as (c & sds & Hc & Hall & Hcalls).
  - vm_compute. reflexivity.
  - intros _. vm_compute. auto.
  - injection Hc as <-. exists sds. split; [|exact Hcalls].
    apply Forall2_length in Hall. rewrite <- Hall. reflexivity.
Defined.

(** X11. The general form of the stop at a timestamp that does not
    convert. When the bookmarks before it in the working set have no row
    yet and convert, the run ends with the exception of lines 170-171,
    having added the rows of those bookmarks only; the bookmark that does
    not convert heads the working set of the database left behind, and no
    text was fetched for it or for any bookmark after it. *)
Theorem get_text_stops_at_unconvertible tz world auth trace d c tbl done r rest e :
  read_credentials auth = Return c ->
  bookmarks_table d = Some tbl ->
  login_result world c = Return tt ->
  bookmarks_pk tbl ->
  working_set d = done ++ r :: rest ->
  Forall (fun r0 => has_text_row (bm_bookmark_id r0) (text_rows d) = false) done ->
  Forall (fun r0 => exists sd,
            make_str_dict tz (select_row (table_columns tbl) r0) = Return sd) done ->
  make_str_dict tz (select_row (table_columns tbl) r) = Throw e ->
  exists s' new fetches,
    run (get_text tz world auth trace) d = (Raise e, s')
    /\ text_rows (st_db s') = text_rows d ++ new
    /\ map bt_bookmark_id new = map bm_bookmark_id done
    /\ working_set (st_db s') = r :: rest
    /\ remote_calls (st_out s') = Login c :: fetches
    /\ Forall (fun call => (fetch_position call < List.length done)%nat) fetches.
Proof.
  intros Hc Htbl Hlogin Hpk Hws Hfresh Hconv Hbad.
  destruct (run (get_text tz world auth trace) d) as [r1 s'] eqn:Hrun.
  destruct (get_text_started_parts _ _ _ _ _ _ _ _ _ Hc Htbl Hlogin Hrun)
    as (new & Heff & Hrows & Htbl' & Hcalls).
  destruct (loop_effect_reaches tz world trace (table_columns tbl) tbl done (r :: rest)
              0%nat (text_rows d) Hpk) as (new1 & Heff1 & Hids & Hq); auto.
  { rewrite <- Hws. now apply working_set_query. }
  rewrite Hws in Heff, Hcalls.
  rewrite loop_effect_app, Heff1 in Heff. cbn [loop_effect] in Heff.
  rewrite Hbad in Heff. injection Heff as <- <-.
  rewrite (loop_fetches_app _ _ _ _ _ _ _ _ _ Heff1) in Hcalls.
  cbn [loop_fetches] in Hcalls. rewrite Hbad, !app_nil_r in Hcalls.
  rewrite app_nil_r in Hrows.
  exists s', new1, (loop_fetches tz world trace (table_columns tbl) 0 done (text_rows d)).
  repeat split; auto.
  - rewrite (working_set_query _ tbl Htbl'), Hrows. exact Hq.
  - eapply Forall_impl;
      [|apply (loop_fetches_in_order tz world trace (table_columns tbl) done 0%nat
                 (text_rows d))].
    intros call (n & r0 & sd & -> & _ & Hnth & _). simpl.
    rewrite Nat.sub_0_r in Hnth. apply nth_error_Some. congruence.
Qed.

Lemma get_text_stops_at_unconvertible_witness :
  exists s',
    run (get_text UTC steady_remote sample_auth true) malformed_bookmarks
    = (Raise ValueError, s')
    /\ working_set (st_db s')
       = [sample_bookmark 2 "not-a-date"; sample_bookmark 3 "2021-03-06T23:59:59"].
Proof.
  destruct (get_text_stops_at_unconvertible UTC steady_remote sample_auth true
              malformed_bookmarks sample_credentials (bookmark_rows malformed_bookmarks)
              [sample_bookmark 1 "2021-03-04T10:15:30"]
              (sample_bookmark 2 "not-a-date")
              [sample_bookmark 3 "2021-03-06T23:59:59"] ValueError)
    as (s' & new & fs & Hrun & _ & _ & Hws & _).
  - reflexivity.
  - reflexivity.
  - reflexivity.
  - exact sample_pk.
  - vm_compute. reflexivity.
  - repeat constructor.
  - constructor; [|constructor]. eexists. vm_compute. reflexivity.
  - vm_compute. reflexivity.
  - exists s'. auto.
Defined.

(** X12. A bookmark whose [bookmark_text] row holds no text blocks the
    backfill. The query of line 161 keeps it in the working set; once the
    loop reaches it, the insert of line 179 fails on the key that is
    already there, and so does the insert of line 183 in the handler: the
    run ends with that [IntegrityError], the text fetched for the bookmark
    is dropped, and the bookmark still heads the working set. *)
Theorem get_text_blocked_by_null_text tz world auth trace d c tbl done r rest sd :
  read_credentials auth = Return c ->
  bookmarks_table d = Some tbl ->
  login_result world c = Return tt ->
  bookmarks_pk tbl ->
  working_set d = done ++ r :: rest ->
  Forall (fun r0 => has_text_row (bm_bookmark_id r0) (text_rows d) = false) done ->
  Forall (fun r0 => exists sd0,
            make_str_dict tz (select_row (table_columns tbl) r0) = Return sd0) done ->
  make_str_dict tz (select_row (table_columns tbl) r) = Return sd ->
  has_text_row (bm_bookmark_id r) (text_rows d) = true ->
  exists s' new fetches,
    run (get_text tz world auth trace) d = (Raise IntegrityError, s')
    /\ text_rows (st_db s') = text_rows d ++ new
    /\ map bt_bookmark_id new = map bm_bookmark_id done
    /\ working_set (st_db s') = r :: rest
    /\ remote_calls (st_out s')
       = Login c :: fetches ++ item_fetches trace (List.length done) sd
    /\ Forall (fun call => (fetch_position call < List.length done)%nat) fetches.
Proof.
  intros Hc Htbl Hlogin Hpk Hws Hfresh Hconv Hsd Hrow.
  destruct (run (get_text tz world auth trace) d) as [r1 s'] eqn:Hrun.
  destruct (get_text_started_parts _ _ _ _ _ _ _ _ _ Hc Htbl Hlogin Hrun)
    as (new & Heff & Hrows & Htbl' & Hcalls).
  destruct (loop_effect_reaches tz world trace (table_columns tbl) tbl done (r :: rest)
              0%nat (text_rows d) Hpk) as (new1 & Heff1 & Hids & Hq); auto.
  { rewrite <- Hws. now apply working_set_query. }
  assert (Hrow' : has_text_row (bm_bookmark_id r) (text_rows d ++ new1) = true)
    by (rewrite has_text_row_app, Hrow; reflexivity).
  rewrite Hws in Heff, Hcalls.
  rewrite loop_effect_app, Heff1 in Heff. cbn [loop_effect] in Heff.
  rewrite Hsd, Hrow' in Heff. injection Heff as <- <-.
  rewrite (loop_fetches_app _ _ _ _ _ _ _ _ _ Heff1) in Hcalls.
  cbn [loop_fetches] in Hcalls. rewrite Hsd, Hrow', !app_nil_r, Nat.add_0_r in Hcalls.
  rewrite app_nil_r in Hrows.
  exists s', new1, (loop_fetches tz world trace (table_columns tbl) 0 done (text_rows d)).
  repeat split; auto.
  - rewrite (working_set_query _ tbl Htbl'), Hrows. exact Hq.
  - eapply Forall_impl;
      [|apply (loop_fetches_in_order tz world trace (table_columns tbl) done 0%nat
                 (text_rows d))].
    intros call (n & r0 & sd0 & -> & _ & Hnth & _). simpl.
    rewrite Nat.sub_0_r in Hnth. apply nth_error_Some. congruence.
Qed.

Lemma get_text_blocked_by_null_text_witness :
  exists s' sd,
    run (get_text UTC steady_remote sample_auth false) null_text_row
    = (Raise IntegrityError, s')
    /\ st_db s' = null_text_row
    /\ remote_calls (st_out s') = [Login sample_credentials; GetText 0 sd].
Proof.
  destruct (get_text_blocked_by_null_text UTC steady_remote sample_auth false
              null_text_row sample_credentials (bookmark_rows null_text_row)
              [] (sample_bookmark 1 "2021-03-04T10:15:30")
              [sample_bookmark 2 "2021-03-05T08:00:00";
               sample_bookmark 3 "2021-03-06T23:59:59"]
              ltac:(let sd := eval vm_compute in
                      (match make_str_dict UTC
                               (select_row (table_columns (bookmark_rows null_text_row))
                                           (sample_bookmark 1 "2021-03-04T10:15:30")) with
                       | Return sd => sd
                       | Throw _ => []
                       end) in exact sd))
    as (s' & new & fs & Hrun & Hrows & Hids & Hws & Hcalls & Hfs).
  - reflexivity.
  - reflexivity.
  - reflexivity.
  - exact sample_pk.
  - vm_compute. reflexivity.
  - constructor.
  - constructor.
  - vm_compute. reflexivity.
  - reflexivity.
  - exists s'. eexists. split; [exact Hrun|].
    destruct new; [|discriminate]. destruct fs as [|f fs].
    + split; [|exact Hcalls].
      destruct s' as [[b bt] out]. cbn [st_db text_rows bookmark_text_table rows] in *.
      revert Hrun. vm_compute. intros [= <- <- _]. reflexivity.
    + exfalso. inversion Hfs as [|? ? Hlt _]; subst. simpl in Hlt. lia.
Defined.

(** ** Progress of the backfill *)

Lemma loop_effect_stop tz world trace cols rs : forall num bt r' new,
  loop_effect tz world trace cols num rs bt = (r', new) ->
  (r' = Ok tt /\ List.length new = List.length rs)
  \/ exists b,
       nth_error rs (List.length new) = Some b
       /\ ((exists e, make_str_dict tz (select_row cols b) = Throw e /\ r' = Raise e)
           \/ (exists sd,
                 make_str_dict tz (select_row cols b) = Return sd
                 /\ has_text_row (bm_bookmark_id b) (bt ++ new) = true
                 /\ r' = Raise IntegrityError)).
Proof.
  induction rs as [|r rs IH]; intros num bt r' new H; cbn [loop_effect] in H.
  - injection H as <- <-. now left.
  - destruct (make_str_dict tz (select_row cols r)) as [sd|e] eqn:Hsd.
    + destruct (has_text_row (bm_bookmark_id r) bt) eqn:Hdup.
      * injection H as <- <-. right. exists r. split; [reflexivity|].
        right. exists sd. rewrite app_nil_r. auto.
      * destruct (loop_effect tz world trace cols (S num) rs _) as [r1 new1] eqn:Heff.
        injection H as <- <-.
        destruct (IH _ _ _ _ Heff) as [[-> Hlen]|(b & Hb & Hstop)].
        -- left. simpl. auto.
        -- right. exists b. split; [exact Hb|].
           destruct Hstop as [Hstop|(sd' & Hsd' & Hrow & ->)]; [now left|].
           right. exists sd'. rewrite <- app_assoc in Hrow. auto.
    + injection H as <- <-. right. exists r. split; [reflexivity|].
      left. exists e. auto.
Qed.

(** Every text the loop fetched has its row, but for the one of the
    bookmark whose row could not be inserted. *)
Lemma loop_fetches_committed tz world trace cols rs : forall num bt r' new,
  loop_effect tz world trace cols num rs bt = (r', new) ->
  Forall (fun call =>
            (fetch_position call < num + List.length new)%nat
            \/ (fetch_position call = (num + List.length new)%nat
                /\ r' = Raise IntegrityError))
         (loop_fetches tz world trace cols num rs bt).
Proof.
  induction rs as [|r rs IH]; intros num bt r' new H;
    cbn [loop_effect loop_fetches] in *; [constructor|].
  destruct (make_str_dict tz (select_row cols r)) as [sd|e]; [|constructor].
  destruct (has_text_row (bm_bookmark_id r) bt).
  - injection H as <- <-. rewrite app_nil_r.
    unfold item_fetches. destruct (traced_ok trace sd); [|constructor].
    constructor; [|constructor]. right. simpl. split; [lia | reflexivity].
  - destruct (loop_effect tz world trace cols (S num) rs _) as [r1 new1] eqn:Heff.
    injection H as <- <-. apply Forall_app. split.
    + unfold item_fetches. destruct (traced_ok trace sd); [|constructor].
      constructor; [|constructor]. left. simpl. lia.
    + eapply Forall_impl; [|exact (IH _ _ _ _ Heff)].
      intros call Hc. cbn [List.length].
      replace (num + S (List.length new1))%nat with (S num + List.length new1)%nat by lia.
      exact Hc.
Qed.

Lemma fetch_events out :
  filter is_get_text out = map Remote (filter is_fetch (remote_calls out)).
Proof.
  unfold remote_calls. induction out as [|[line|[c|f l|num sd]] out IH]; simpl;
    try exact IH; [reflexivity|]. now rewrite IH.
Qed.

Lemma filter_fetches fs :
  Forall (fun call => exists num sd, call = GetText num sd) fs ->
  filter is_fetch fs = fs.
Proof.
  induction 1 as [|call fs (num & sd & ->) _ IH]; simpl; [reflexivity | now rewrite IH].
Qed.

(** C5. The loop takes the working set in the order of the query and
    each outcome is in the database before the next bookmark is taken, so
    that however a run ends the rows of the first [N] working-set
    bookmarks have been added, in that order, and the working set computed
    from the database it leaves is the former one without those [N].
    [N] is tied to what the run did. Its text fetches come at strictly
    increasing positions, each for the bookmark at its position, and every
    fetched text has its row among the [N], but for the fetch at position
    [N] of a run stopped by [IntegrityError]. And a run that got to the
    loop either reached its end with every row added, or stopped exactly
    at the bookmark at position [N]: with the exception of lines 169-171
    on that bookmark, or with [IntegrityError] because that bookmark has a
    row. *)
Theorem get_text_keeps_progress tz world auth trace d r s' :
  bookmarks_pk (bookmark_rows d) ->
  run (get_text tz world auth trace) d = (r, s') ->
  exists N new fetches,
    (N <= List.length (working_set d))%nat
    /\ List.length new = N
    /\ text_rows (st_db s') = text_rows d ++ new
    /\ map bt_bookmark_id new = map bm_bookmark_id (firstn N (working_set d))
    /\ working_set (st_db s') = skipn N (working_set d)
    /\ (r = Ok tt -> N = List.length (working_set d))
    /\ filter is_get_text (st_out s') = map Remote fetches
    /\ StronglySorted lt (map fetch_position fetches)
    /\ Forall (fun call =>
                 (exists num sd b,
                    call = GetText num sd
                    /\ nth_error (working_set d) num = Some b
                    /\ make_str_dict tz (select_row (table_columns (bookmark_rows d)) b)
                       = Return sd)
                 /\ ((fetch_position call < N)%nat
                     \/ (fetch_position call = N /\ r = Raise IntegrityError)))
              fetches
    /\ (forall c,
          read_credentials auth = Return c ->
          bookmarks_table d <> None ->
          login_result world c = Return tt ->
          (r = Ok tt /\ N = List.length (working_set d))
          \/ exists b,
               nth_error (working_set d) N = Some b
               /\ ((exists e,
                      make_str_dict tz (select_row (table_columns (bookmark_rows d)) b)
                      = Throw e
                      /\ r = Raise e)
                   \/ (exists sd,
                         make_str_dict tz (select_row (table_columns (bookmark_rows d)) b)
                         = Return sd
                         /\ has_text_row (bm_bookmark_id b) (text_rows (st_db s')) = true
                         /\ r = Raise IntegrityError))).
Proof.
  intros Hpk Hrun.
  destruct (get_text_ends_run _ _ _ _ _ _ _ Hrun) as [Hends Hcalls].
  unfold get_text_ends in Hends. unfold get_text_calls in Hcalls.
  assert (Hidle : forall d' calls,
             st_db s' = d' -> (d' = d \/ d' = with_bookmark_text d) ->
             remote_calls (st_out s') = calls -> filter is_fetch calls = [] ->
             r <> Ok tt ->
             (forall c, read_credentials auth = Return c -> bookmarks_table d <> None ->
                        login_result world c = Return tt -> False) ->
             exists N new fetches,
               (N <= List.length (working_set d))%nat
               /\ List.length new = N
               /\ text_rows (st_db s') = text_rows d ++ new
               /\ map bt_bookmark_id new = map bm_bookmark_id (firstn N (working_set d))
               /\ working_set (st_db s') = skipn N (working_set d)
               /\ (r = Ok tt -> N = List.length (working_set d))
               /\ filter is_get_text (st_out s') = map Remote fetches
               /\ StronglySorted lt (map fetch_position fetches)
               /\ Forall (fun call =>
                            (exists num sd b,
                               call = GetText num sd
                               /\ nth_error (working_set d) num = Some b
                               /\ make_str_dict tz
                                    (select_row (table_columns (bookmark_rows d)) b)
                                  = Return sd)
                            /\ ((fetch_position call < N)%nat
                                \/ (fetch_position call = N /\ r = Raise IntegrityError)))
                         fetches
               /\ (forall c,
                     read_credentials auth = Return c ->
                     bookmarks_table d <> None ->
                     login_result world c = Return tt ->
                     (r = Ok tt /\ N = List.length (working_set d))
                     \/ exists b,
                          nth_error (working_set d) N = Some b
                          /\ ((exists e,
                                 make_str_dict tz
                                   (select_row (table_columns (bookmark_rows d)) b)
                                 = Throw e
                                 /\ r = Raise e)
                              \/ (exists sd,
                                    make_str_dict tz
                                      (select_row (table_columns (bookmark_rows d)) b)
                                    = Return sd
                                    /\ has_text_row (bm_bookmark_id b)
                                         (text_rows (st_db s')) = true
                                    /\ r = Raise IntegrityError)))).
  { intros d' calls Hdb Hd' Hc Hnone Hr Hnot.
    assert (Ht : text_rows d' = text_rows d)
      by (destruct Hd' as [->| ->]; [reflexivity | apply text_rows_created]).
    assert (Hb : bookmarks_table d' = bookmarks_table d)
      by (destruct Hd' as [->| ->]; [reflexivity | apply bookmarks_created]).
    exists 0%nat, [], []. rewrite app_nil_r, fetch_events, Hc, Hnone, Hdb.
    unfold working_set, bookmark_rows. rewrite Hb, Ht. cbn [skipn firstn map List.length].
    split; [lia|]. split; [reflexivity|]. split; [reflexivity|].
    split; [reflexivity|]. split; [reflexivity|].
    split; [intros E; contradiction|]. split; [reflexivity|].
    split; [constructor|]. split; [constructor|].
    intros c H1 H2 H3. exfalso. exact (Hnot c H1 H2 H3). }
  destruct (read_credentials auth) as [c|e] eqn:Hc.
  2:{ injection Hends as Hr Hdb.
      apply (Hidle d []); [exact Hdb | now left | exact Hcalls | reflexivity | |].
      - subst r. destruct (is_KeyError_or_FileNotFoundError e); discriminate.
      - intros c0 [=]. }
  destruct (bookmarks_table d) as [tbl|] eqn:Htbl.
  2:{ injection Hends as Hr Hdb.
      apply (Hidle d []); [exact Hdb | now left | exact Hcalls | reflexivity | |].
      - subst r. discriminate.
      - intros c0 _ H. now contradiction H. }
  destruct (login_result world c) as [[]|e] eqn:Hlogin.
  2:{ injection Hends as Hr Hdb.
      apply (Hidle (with_bookmark_text d) [Login c]);
        [exact Hdb | now right | exact Hcalls | reflexivity | |].
      - subst r. discriminate.
      - intros c' [= <-] _ H. congruence. }
  clear Hidle.
  assert (Hrows : bookmark_rows d = tbl) by (unfold bookmark_rows; now rewrite Htbl).
  rewrite Hrows in *.
  destruct (loop_effect tz world trace (table_columns tbl) 0 (working_set d) (text_rows d))
    as [r0 new] eqn:Heff.
  injection Hends as <- Hdb.
  destruct (loop_effect_shape _ _ _ _ _ _ _ _ _ Heff) as (_ & Hids & Hlen & _ & Hok).
  pose proof (loop_fetches_in_order tz world trace (table_columns tbl) (working_set d)
                0%nat (text_rows d)) as [Hsorted Hfor].
  pose proof (loop_fetches_committed _ _ _ _ _ _ _ _ _ Heff) as Hcommitted.
  assert (Htext : text_rows (st_db s') = text_rows d ++ new)
    by (rewrite Hdb, text_rows_add; now rewrite text_rows_created).
  exists (List.length new), new,
    (loop_fetches tz world trace (table_columns tbl) 0 (working_set d) (text_rows d)).
  split; [exact Hlen|]. split; [reflexivity|]. split; [exact Htext|].
  split; [exact Hids|]. split.
  { rewrite Hdb, (working_set_add _ tbl) by exact Htbl.
    eapply loop_effect_query; [exact Hpk| |exact Heff].
    now apply working_set_query. }
  split; [exact Hok|]. split.
  { rewrite fetch_events, Hcalls. cbn [filter is_fetch]. f_equal.
    apply filter_fetches. eapply Forall_impl; [|exact Hfor].
    intros call (n & b & sd & -> & _). eauto. }
  split; [exact Hsorted|]. split.
  { apply Forall_forall. intros call Hin.
    rewrite Forall_forall in Hfor, Hcommitted.
    destruct (Hfor call Hin) as (n & b & sd & -> & _ & Hnth & Hsd).
    rewrite Nat.sub_0_r in Hnth. split; [exists n, sd, b; auto|].
    exact (Hcommitted _ Hin). }
  intros c' _ _ _.
  destruct (loop_effect_stop _ _ _ _ _ _ _ _ _ Heff) as [[-> Hall]|(b & Hb & Hstop)];
    [left; auto|].
  right. exists b. split; [exact Hb|]. rewrite Htext. exact Hstop.
Qed.

Lemma get_text_keeps_progress_witness :
  exists N new,
    List.length new = N
    /\ text_rows (st_db (snd (run (get_text UTC steady_remote sample_auth false)
                                 malformed_bookmarks)))
       = text_rows malformed_bookmarks ++ new
    /\ working_set (st_db (snd (run (get_text UTC steady_remote sample_auth false)
                                   malformed_bookmarks)))
       = skipn N (working_set malformed_bookmarks)
    /\ nth_error (working_set malformed_bookmarks) N
       = Some (sample_bookmark 2 "not-a-date").
Proof.
  destruct (get_text_keeps_progress UTC steady_remote sample_auth false malformed_bookmarks
              (fst (run (get_text UTC steady_remote sample_auth false) malformed_bookmarks))
              (snd (run (get_text UTC steady_remote sample_auth false) malformed_bookmarks)))
    as (N & new & fetches & _ & Hlen & Hrows & _ & Hws & _ & _ & _ & _ & Hstop).
  - unfold bookmarks_pk. simpl.
    repeat constructor; simpl; intuition discriminate.
  - vm_compute. reflexivity.
  - exists N, new. split; [exact Hlen|]. split; [exact Hrows|]. split; [exact Hws|].
    destruct (Hstop sample_credentials) as [[Hok _]|(b & Hb & _)].
    + reflexivity.
    + discriminate.
    + reflexivity.
    + discriminate Hok.
    + rewrite Hb. f_equal.
      assert (HN : N = 1%nat).
      { rewrite <- Hlen.
        change (text_rows malformed_bookmarks ++ new) with new in Hrows.
        rewrite <- Hrows. vm_compute. reflexivity. }
      rewrite HN in Hb. vm_compute in Hb. now injection Hb as <-.
Defined.

(** ** What [--trace] changes *)

Lemma item_outcome_traced world num sd :
  traced_ok true sd = true ->
  item_outcome world true num sd = item_outcome world false num sd.
Proof.
  unfold traced_ok, item_outcome, and_then, dict_item. cbn [negb orb].
  destruct (dict_get sd "bookmark_id"); [|discriminate].
  destruct (dict_get sd "title"); [|discriminate]. reflexivity.
Qed.

Lemma item_outcome_untitled world num sd :
  dict_get sd "bookmark_id" <> None ->
  dict_get sd "title" = None ->
  item_outcome world true num sd = Throw (KeyError "title").
Proof.
  unfold item_outcome, and_then, dict_item. intros Hid ->.
  destruct (dict_get sd "bookmark_id"); [reflexivity | contradiction].
Qed.

Lemma trace_irrelevant tz world cols rs : forall num bt,
  (forall r sd, In r rs -> make_str_dict tz (select_row cols r) = Return sd ->
                traced_ok true sd = true) ->
  loop_effect tz world true cols num rs bt = loop_effect tz world false cols num rs bt
  /\ loop_fetches tz world true cols num rs bt = loop_fetches tz world false cols num rs bt.
Proof.
  induction rs as [|r rs IH]; intros num bt Hok; cbn [loop_effect loop_fetches];
    [auto|].
  destruct (make_str_dict tz (select_row cols r)) as [sd|e] eqn:Hsd; [|auto].
  pose proof (Hok r sd (or_introl eq_refl) Hsd) as Hsd_ok.
  rewrite (item_outcome_traced world num sd Hsd_ok).
  unfold item_fetches. rewrite Hsd_ok. cbn [traced_ok negb orb].
  destruct (has_text_row (bm_bookmark_id r) bt); [auto|].
  destruct (IH (S num)
              (bt ++ [item_row (bm_bookmark_id r) (item_outcome world false num sd)]))
    as [-> ->]; [|auto].
  intros r0 sd0 Hin. apply Hok. now right.
Qed.

(** X13. On a bookmarks table with a [title] column, [--trace] only adds
    console lines: with and without it a run ends the same way, leaves the
    same database and makes the same remote calls. *)
Theorem get_text_trace_only_logs tz world auth d r1 s1 r2 s2 :
  In "title" (table_columns (bookmark_rows d)) ->
  run (get_text tz world auth true) d = (r1, s1) ->
  run (get_text tz world auth false) d = (r2, s2) ->
  r1 = r2 /\ st_db s1 = st_db s2
  /\ remote_calls (st_out s1) = remote_calls (st_out s2).
Proof.
  intros Htitle Hrun1 Hrun2.
  destruct (get_text_ends_run _ _ _ _ _ _ _ Hrun1) as [Hends1 Hcalls1].
  destruct (get_text_ends_run _ _ _ _ _ _ _ Hrun2) as [Hends2 Hcalls2].
  assert (H : get_text_ends tz world auth true d = get_text_ends tz world auth false d
              /\ get_text_calls tz world auth true d = get_text_calls tz world auth false d).
  { unfold get_text_ends, get_text_calls.
    destruct (read_credentials auth) as [c|]; [|auto].
    unfold bookmark_rows in Htitle.
    destruct (bookmarks_table d) as [tbl|]; [|auto]. cbn [rows] in Htitle.
    destruct (login_result world c); [|auto].
    destruct (trace_irrelevant tz world (table_columns tbl) (working_set d) 0%nat
                (text_rows d)) as [-> ->]; [|auto].
    intros r sd _ Hsd. now apply (traced_ok_title tz true tbl r). }
  destruct H as [He Hc]. rewrite He in Hends1. rewrite Hc in Hcalls1.
  rewrite <- Hends2 in Hends1. injection Hends1 as -> ->.
  rewrite Hcalls1, Hcalls2. auto.
Qed.

Lemma get_text_trace_only_logs_witness :
  st_db (snd (run (get_text UTC flaky_remote sample_auth true) three_bookmarks))
  = st_db (snd (run (get_text UTC flaky_remote sample_auth false) three_bookmarks)).
Proof.
  destruct (get_text_trace_only_logs UTC flaky_remote sample_auth three_bookmarks
              (fst (run (get_text UTC flaky_remote sample_auth true) three_bookmarks))
              (snd (run (get_text UTC flaky_remote sample_auth true) three_bookmarks))
              (fst (run (get_text UTC flaky_remote sample_auth false) three_bookmarks))
              (snd (run (get_text UTC flaky_remote sample_auth false) three_bookmarks)))
    as (_ & Hdb & _).
  - vm_compute. auto.
  - apply surjective_pairing.
  - apply surjective_pairing.
  - exact Hdb.
Defined.

Lemma untitled_loop tz world tbl rs : forall num bt,
  ~ In "title" (table_columns tbl) ->
  loop_fetches tz world true (table_columns tbl) num rs bt = []
  /\ Forall (fun t => bt_error t = true /\ bt_text t = Some EmptyString)
            (snd (loop_effect tz world true (table_columns tbl) num rs bt)).
Proof.
  intros num bt Hno. revert num bt.
  induction rs as [|r rs IH]; intros num bt; cbn [loop_effect loop_fetches];
    [split; constructor|].
  destruct (make_str_dict tz (select_row (table_columns tbl) r)) as [sd|e] eqn:Hsd;
    [|split; constructor].
  assert (Htitle : dict_get sd "title" = None).
  { rewrite (make_str_dict_get _ _ _ "title" Hsd) by discriminate.
    now rewrite select_row_lacks. }
  assert (Hid : dict_get sd "bookmark_id" <> None)
    by (rewrite (make_str_dict_bookmark_id _ _ _ _ Hsd); discriminate).
  rewrite (item_outcome_untitled world num sd Hid Htitle).
  unfold item_fetches, traced_ok. rewrite Htitle. cbn [negb orb app].
  destruct (dict_get sd "bookmark_id"); cbn [app];
    (destruct (has_text_row (bm_bookmark_id r) bt); [split; constructor|]);
    (destruct (IH (S num) (bt ++ [item_row (bm_bookmark_id r) (Throw (KeyError "title"))]))
      as [Hf Hrows]);
    (destruct (loop_effect tz world true (table_columns tbl) (S num) rs _) as [r1 new1]);
    (split; [exact Hf|]); cbn [snd] in *; (constructor; [split; reflexivity | exact Hrows]).
Qed.

(** X14. On a bookmarks table without a [title] column [--trace] is more
    than logging: the trace line of line 176 raises [KeyError] inside the
    [try] before the text is asked for, so no text is fetched at all and
    every row the run adds is an error row with empty text. *)
Theorem get_text_trace_needs_title tz world auth d r s' :
  ~ In "title" (table_columns (bookmark_rows d)) ->
  run (get_text tz world auth true) d = (r, s') ->
  (forall ev, In ev (st_out s') -> is_get_text ev = false)
  /\ exists new,
       text_rows (st_db s') = text_rows d ++ new
       /\ Forall (fun t => bt_error t = true /\ bt_text t = Some EmptyString) new.
Proof.
  intros Hno Hrun.
  destruct (get_text_ends_run _ _ _ _ _ _ _ Hrun) as [Hends Hcalls].
  assert (Hlog : forall out, (forall call, In call (remote_calls out) ->
                                           fetch_position call = 0%nat
                                           /\ forall n sd, call <> GetText n sd) ->
                             forall ev, In ev out -> is_get_text ev = false).
  { intros out Hall ev Hin. destruct ev as [line|[c|f l|n sd]]; try reflexivity.
    exfalso. apply (proj2 (Hall (GetText n sd)
                             ltac:(unfold remote_calls; apply in_flat_map;
                                   exists (Remote (GetText n sd)); split;
                                   [exact Hin | now left])) n sd eq_refl). }
  unfold get_text_ends in Hends. unfold get_text_calls in Hcalls.
  unfold bookmark_rows in Hno.
  destruct (read_credentials auth) as [c|e].
  2:{ injection Hends as _ ->. split.
      - apply Hlog. rewrite Hcalls. intros call [].
      - exists []. rewrite app_nil_r. split; [reflexivity | constructor]. }
  destruct (bookmarks_table d) as [tbl|]; cbn [rows] in Hno.
  2:{ injection Hends as _ ->. split.
      - apply Hlog. rewrite Hcalls. intros call [].
      - exists []. rewrite app_nil_r. split; [reflexivity | constructor]. }
  destruct (login_result world c).
  2:{ injection Hends as _ ->. split.
      - apply Hlog. rewrite Hcalls. intros call [<-|[]].
        split; [reflexivity | discriminate].
      - exists []. rewrite app_nil_r, text_rows_created.
        split; [reflexivity | constructor]. }
  destruct (untitled_loop tz world tbl (working_set d) 0%nat (text_rows d) Hno)
    as [Hf Hrows].
  rewrite Hf in Hcalls.
  destruct (loop_effect tz world true (table_columns tbl) 0 (working_set d) (text_rows d))
    as [r0 new].
  injection Hends as _ ->. split.
  - apply Hlog. rewrite Hcalls. intros call [<-|[]].
    split; [reflexivity | discriminate].
  - exists new. rewrite text_rows_add, text_rows_created. auto.
Qed.

Lemma get_text_trace_needs_title_witness :
  text_rows (st_db (snd (run (get_text UTC steady_remote sample_auth true)
                             untitled_bookmarks)))
  = [mk_text_row 1 (Some EmptyString) true].
Proof.
  destruct (get_text_trace_needs_title UTC steady_remote sample_auth untitled_bookmarks
              (fst (run (get_text UTC steady_remote sample_auth true) untitled_bookmarks))
              (snd (run (get_text UTC steady_remote sample_auth true) untitled_bookmarks)))
    as (_ & new & Hrows & _).
  - vm_compute. intros [H|[H|[H|[]]]]; discriminate H.
  - apply surjective_pairing.
  - vm_compute. reflexivity.
Defined.

(** ** What a backfill leaves alone *)

Lemma loop_effect_distinct tz world trace tbl rs : forall num bt r' new,
  loop_effect tz world trace (table_columns tbl) num rs bt = (r', new) ->
  NoDup (map bt_bookmark_id new).
Proof.
  induction rs as [|r rs IH]; intros num bt r' new H; cbn [loop_effect] in H.
  - injection H as <- <-. constructor.
  - destruct (make_str_dict tz (select_row (table_columns tbl) r)) as [sd|e];
      [|injection H as <- <-; constructor].
    destruct (has_text_row (bm_bookmark_id r) bt); [injection H as <- <-; constructor|].
    destruct (loop_effect tz world trace (table_columns tbl) (S num) rs _)
      as [r1 new1] eqn:Heff.
    injection H as <- <-. cbn [map]. constructor; [|eapply IH; exact Heff].
    rewrite item_row_id. intros Hin. apply in_map_iff in Hin as (t & Hid & Hin).
    pose proof (loop_effect_fresh _ _ _ _ _ _ _ _ _ Heff t Hin) as Hfresh.
    rewrite has_text_row_app, Hid in Hfresh. apply orb_false_elim in Hfresh as [_ Hfresh].
    unfold has_text_row in Hfresh. cbn [existsb] in Hfresh.
    rewrite item_row_id, Z.eqb_refl in Hfresh. discriminate.
Qed.

(** X15. However a backfill ends, it leaves the bookmarks table as it
    was and only appends to [bookmark_text]: the rows that were there stay
    as they were and in place, and each added row has a text that is not
    NULL and the id of a bookmark of the table that had no row before; no
    two added rows share an id. *)
Theorem get_text_only_appends tz world auth trace d :
  let d' := st_db (snd (run (get_text tz world auth trace) d)) in
  bookmarks_table d' = bookmarks_table d
  /\ exists new,
       text_rows d' = text_rows d ++ new
       /\ NoDup (map bt_bookmark_id new)
       /\ Forall (fun t => has_text_row (bt_bookmark_id t) (text_rows d) = false
                           /\ bt_text t <> None
                           /\ In (bt_bookmark_id t) (map bm_bookmark_id (bookmark_rows d)))
                 new.
Proof.
  intros d'. subst d'.
  destruct (run (get_text tz world auth trace) d) as [r s'] eqn:Hrun. cbn [snd].
  destruct (get_text_effect _ _ _ _ _ _ _ Hrun) as [Hb [(Ht & _)|H]].
  - split; [exact Hb|]. exists []. rewrite app_nil_r.
    repeat split; [exact Ht | constructor | constructor].
  - destruct H as (tbl & new & Htbl & Heff & _ & Ht & _).
    split; [exact Hb|]. exists new. split; [exact Ht|].
    split; [eapply loop_effect_distinct; exact Heff|].
    apply Forall_forall. intros t Hin.
    split; [exact (loop_effect_fresh _ _ _ _ _ _ _ _ _ Heff t Hin)|].
    split.
    + pose proof (loop_effect_texts _ _ _ _ _ _ _ _ _ Heff) as Hnn.
      unfold texts_not_null in Hnn. rewrite Forall_forall in Hnn. now apply Hnn.
    + destruct (loop_effect_shape _ _ _ _ _ _ _ _ _ Heff) as (_ & Hids & _).
      assert (Hin' : In (bt_bookmark_id t) (map bt_bookmark_id new)) by now apply in_map.
      rewrite Hids in Hin'. apply in_map_iff in Hin' as (r0 & <- & Hr0).
      apply in_map.
      assert (Hr1 : In r0 (working_set d)).
      { rewrite <- (firstn_skipn (List.length new) (working_set d)).
        apply in_or_app. now left. }
      clear Hr0. rename Hr1 into Hr0.
      unfold bookmark_rows. rewrite Htbl. cbn [rows].
      apply (working_set_rows tbl (text_rows d)).
      rewrite <- (working_set_query _ _ Htbl). exact Hr0.
Qed.

(** ** What a sync keeps *)

Lemma dict_set_same {V} (d : dict V) k v : dict_get d k = Some v -> dict_set d k v = d.
Proof.
  induction d as [|[k0 v0] d IH]; simpl; [discriminate|].
  destruct (String.eqb_spec k k0) as [->|_].
  - now intros [= ->].
  - intros H. now rewrite IH.
Qed.

Lemma dict_update_absorbed {V} (f : dict V) : forall d,
  (forall k v, In (k, v) f -> dict_get d k = Some v) -> dict_update d f = d.
Proof.
  unfold dict_update. induction f as [|[k v] f IH]; intros d H; simpl; [reflexivity|].
  rewrite dict_set_same by (apply H; now left).
  apply IH. intros k' v' Hin. apply H. now right.
Qed.

Lemma find_row_id id tbl row : find_row id tbl = Some row -> bm_bookmark_id row = id.
Proof.
  unfold find_row. intros H. apply find_some in H as [_ H]. now apply Z.eqb_eq.
Qed.

Lemma find_row_upsert_found id f tbl row :
  find_row id tbl = Some row ->
  find_row id (upsert_row id f tbl)
  = Some (mk_bookmark_row id (dict_update (bm_fields row) f)).
Proof.
  intros Hrow. unfold upsert_row.
  destruct (has_row id tbl) eqn:Hhas.
  - now apply find_row_update_same.
  - apply has_row_find in Hhas. congruence.
Qed.

Lemma upsert_row_absorbed id f tbl row :
  find_row id tbl = Some row ->
  dict_update (bm_fields row) f = bm_fields row ->
  upsert_row id f tbl = tbl.
Proof.
  intros Hrow Hsame. unfold upsert_row.
  destruct (has_row id tbl) eqn:Hhas.
  - clear Hhas. revert Hrow. unfold find_row.
    induction tbl as [|r tbl IH]; simpl; [discriminate|].
    destruct (Z.eqb_spec (bm_bookmark_id r) id) as [E|Hne].
    + intros [= ->]. rewrite Hsame. destruct row as [i fields]. simpl in E. now subst.
    + intros H. now rewrite IH.
  - apply has_row_find in Hhas. congruence.
Qed.

(** A table in key order stays in key order. *)
Lemma insert_row_sorted row tbl :
  ~ In (bm_bookmark_id row) (map bm_bookmark_id tbl) ->
  StronglySorted Z.lt (map bm_bookmark_id tbl) ->
  StronglySorted Z.lt (map bm_bookmark_id (insert_row row tbl)).
Proof.
  induction tbl as [|r tbl IH]; intros Hnew Hs; simpl in *.
  - repeat constructor.
  - inversion Hs as [|? ? Hs' Hall]; subst.
    destruct (Z.ltb_spec (bm_bookmark_id row) (bm_bookmark_id r)) as [Hlt|Hge]; simpl.
    + constructor; [exact Hs|]. constructor; [exact Hlt|].
      eapply Forall_impl; [|exact Hall]. intros i Hi. lia.
    + constructor; [apply IH; tauto|].
      apply Forall_forall. intros i Hi. apply insert_row_ids in Hi as [->|Hi].
      * assert (bm_bookmark_id r <> bm_bookmark_id row) by tauto. lia.
      * rewrite Forall_forall in Hall. now apply Hall.
Qed.

Lemma upsert_row_sorted id f tbl :
  StronglySorted Z.lt (map bm_bookmark_id tbl) ->
  StronglySorted Z.lt (map bm_bookmark_id (upsert_row id f tbl)).
Proof.
  intros Hs. unfold upsert_row. destruct (has_row id tbl) eqn:Hhas.
  - now rewrite update_row_ids.
  - apply insert_row_sorted; [|exact Hs]. cbn [bm_bookmark_id].
    intros Hin. apply has_row_ids in Hin. congruence.
Qed.

Lemma upsert_all_sorted records : forall tbl tbl',
  upsert_all records tbl = Return tbl' ->
  StronglySorted Z.lt (map bm_bookmark_id tbl) ->
  StronglySorted Z.lt (map bm_bookmark_id tbl').
Proof.
  induction records as [|record records IH]; intros tbl tbl'; simpl.
  - now intros [= <-].
  - unfold and_then. destruct (record_pk record) as [id|]; [|discriminate].
    intros H Hs. apply (IH _ _ H). now apply upsert_row_sorted.
Qed.

(** The columns no record writes keep their values. *)
Lemma upsert_all_untouched records key : forall tbl tbl' id row,
  (forall record, In record records -> ~ In key (dict_keys (record_fields record))) ->
  upsert_all records tbl = Return tbl' ->
  find_row id tbl = Some row ->
  exists row',
    find_row id tbl' = Some row'
    /\ dict_get (bm_fields row') key = dict_get (bm_fields row) key.
Proof.
  induction records as [|record records IH]; intros tbl tbl' id row Hkey; simpl.
  - intros [= <-] H. now exists row.
  - unfold and_then. destruct (record_pk record) as [i|]; [|discriminate].
    intros Hup Hrow.
    assert (Hkey' : forall r, In r records -> ~ In key (dict_keys (record_fields r)))
      by (intros r Hin; apply Hkey; now right).
    destruct (Z.eq_dec id i) as [->|Hne].
    + pose proof (find_row_upsert_found i (record_fields record) tbl row Hrow) as Hfound.
      destruct (IH _ _ _ _ Hkey' Hup Hfound) as (row' & Hrow' & Hget).
      exists row'. split; [exact Hrow'|]. rewrite Hget. cbn [bm_fields].
      apply dict_update_untouched. apply Hkey. now left.
    + apply (IH _ _ _ _ Hkey' Hup).
      now rewrite find_row_upsert_other.
Qed.

Lemma record_fields_keys record :
  dict_keys (record_fields record)
  = filter (fun k => negb (String.eqb k "bookmark_id")) (dict_keys record).
Proof.
  unfold record_fields, dict_keys.
  induction record as [|[k v] record IH]; simpl; [reflexivity|].
  destruct (String.eqb k "bookmark_id"); simpl; now rewrite IH.
Qed.

Lemma projected_pk folder entry record :
  projected folder entry record ->
  dict_get record "bookmark_id" = dict_get entry "bookmark_id".
Proof. intros (_ & _ & H). apply H. now left. Qed.

Lemma record_pk_of_entry folder entry record id :
  projected folder entry record ->
  record_pk record = Return id -> dict_get entry "bookmark_id" = Some (PyInt id).
Proof.
  intros Hp. unfold record_pk. rewrite (projected_pk _ _ _ Hp).
  destruct (dict_get entry "bookmark_id") as [[]|]; try discriminate.
  now intros [= ->].
Qed.

(** X16. A sync that reaches its end never removes a row of the
    bookmarks table and keeps the table in key order, the order a scan
    returns it in. A row whose id is not in the listing is left exactly as
    it was, and in a row that is updated every column outside the eleven
    of [BOOKMARK_KEYS] and [folder] keeps its value. *)
Theorem bookmarks_keeps_other_data world auth folder d s' entries :
  run (bookmarks world auth folder) d = (Ok tt, s') ->
  get_bookmarks_result world folder 500 = Return entries ->
  let tbl := bookmark_rows d in
  let tbl' := bookmark_rows (st_db s') in
  (forall id, In id (map bm_bookmark_id tbl) -> In id (map bm_bookmark_id tbl'))
  /\ (StronglySorted Z.lt (map bm_bookmark_id tbl) ->
      StronglySorted Z.lt (map bm_bookmark_id tbl'))
  /\ (forall id row,
        find_row id tbl = Some row ->
        (forall e, In e entries -> dict_get e "bookmark_id" <> Some (PyInt id)) ->
        find_row id tbl' = Some row)
  /\ (forall id row key,
        find_row id tbl = Some row ->
        ~ In key (BOOKMARK_KEYS ++ ["folder"]) ->
        exists row',
          find_row id tbl' = Some row'
          /\ dict_get (bm_fields row') key = dict_get (bm_fields row) key).
Proof.
  intros Hrun Hlist tbl tbl'. subst tbl tbl'.
  destruct (bookmarks_effect _ _ _ _ _ _ Hrun) as [_ H].
  destruct (H eq_refl) as (entries' & records & Hlist' & _ & Hproj & Hup & _).
  rewrite Hlist in Hlist'. injection Hlist' as <-.
  split; [exact (proj2 (upsert_all_keeps _ _ _ Hup))|].
  split; [exact (upsert_all_sorted _ _ _ Hup)|]. split.
  - intros id row Hrow Hno.
    assert (Hother : forall r, In r records -> record_pk r <> Return id).
    { intros r Hin Hpk.
      destruct (Forall2_partner _ _ _ _ Hproj Hin) as (e & He & Hp).
      apply (Hno e He). exact (record_pk_of_entry _ _ _ _ Hp Hpk). }
    now rewrite (upsert_all_other records id _ _ Hother Hup).
  - intros id row key Hrow Hkey.
    apply (upsert_all_untouched records key (bookmark_rows d) _ id row); auto.
    intros r Hin Hk. apply Hkey.
    destruct (Forall2_partner _ _ _ _ Hproj Hin) as (e & _ & (Hkeys & _)).
    rewrite <- Hkeys. rewrite record_fields_keys in Hk.
    now apply filter_In in Hk as [Hk _].
Qed.

Lemma bookmarks_keeps_other_data_witness :
  find_row 2 (bookmark_rows
                (st_db (snd (run (bookmarks (listing_remote [sample_entry 7 "Old title"])
                                            sample_auth "archive") three_bookmarks))))
  = Some (sample_bookmark 2 "2021-03-05T08:00:00").
Proof.
  destruct (bookmarks_keeps_other_data (listing_remote [sample_entry 7 "Old title"])
              sample_auth "archive" three_bookmarks
              (snd (run (bookmarks (listing_remote [sample_entry 7 "Old title"])
                                   sample_auth "archive") three_bookmarks))
              [sample_entry 7 "Old title"])
    as (_ & _ & Hkept & _).
  - vm_compute. reflexivity.
  - reflexivity.
  - apply (Hkept 2 (sample_bookmark 2 "2021-03-05T08:00:00")).
    + reflexivity.
    + intros e [<-|[]]. discriminate.
Defined.

(** ** Syncing the same listing again *)

Lemma upsert_all_absorbed records : forall tbl,
  (forall record, In record records ->
     exists id row,
       record_pk record = Return id
       /\ find_row id tbl = Some row
       /\ forall k v, In (k, v) (record_fields record) ->
                      dict_get (bm_fields row) k = Some v) ->
  upsert_all records tbl = Return tbl.
Proof.
  induction records as [|record records IH]; intros tbl H; simpl; [reflexivity|].
  destruct (H record (or_introl eq_refl)) as (id & row & Hpk & Hrow & Hsub).
  unfold and_then. rewrite Hpk.
  rewrite (upsert_row_absorbed id _ tbl row Hrow (dict_update_absorbed _ _ Hsub)).
  apply IH. intros r Hin. apply H. now right.
Qed.

Lemma upsert_all_pks records : forall tbl tbl' record,
  upsert_all records tbl = Return tbl' -> In record records ->
  exists id, record_pk record = Return id.
Proof.
  induction records as [|r records IH]; intros tbl tbl' record; simpl; [tauto|].
  unfold and_then. destruct (record_pk r) as [id|] eqn:E; [|discriminate].
  intros Hup [<-|Hin]; [eauto|]. eapply IH; eauto.
Qed.

Lemma Forall2_map_eq {A B C} (f : A -> C) (g : B -> C) l l' :
  Forall2 (fun x y => g y = f x) l l' -> map g l' = map f l.
Proof. induction 1; simpl; congruence. Qed.

(** After an upsert of records with pairwise different keys, the row of
    each record holds every value of the record. *)
Lemma upsert_all_holds records tbl tbl' record :
  upsert_all records tbl = Return tbl' ->
  NoDup (map (fun r => dict_get r "bookmark_id") records) ->
  In record records ->
  NoDup (dict_keys (record_fields record)) ->
  exists id row,
    record_pk record = Return id
    /\ find_row id tbl' = Some row
    /\ forall k v, In (k, v) (record_fields record) ->
                   dict_get (bm_fields row) k = Some v.
Proof.
  intros Hup Hnd Hin Hkeys.
  destruct (upsert_all_pks _ _ _ _ Hup Hin) as [id Hid].
  apply in_split in Hin as (before & after & ->).
  destruct (upsert_all_last before record after id tbl tbl' Hup Hid)
    as (fields & Hrow & Hfields).
  - intros r Hr Hpk.
    rewrite map_app in Hnd. cbn [map] in Hnd. apply NoDup_remove_2 in Hnd.
    apply Hnd. apply in_or_app. right.
    replace (dict_get record "bookmark_id") with (dict_get r "bookmark_id").
    + now apply (in_map (fun r0 => dict_get r0 "bookmark_id")).
    + unfold record_pk in Hid, Hpk.
      destruct (dict_get r "bookmark_id") as [[]|]; try discriminate.
      destruct (dict_get record "bookmark_id") as [[]|]; try discriminate.
      congruence.
  - exists id, (mk_bookmark_row id fields). split; [exact Hid|]. split; [exact Hrow|].
    intros k v Hkv. cbn [bm_fields].
    destruct Hfields as [->|[old ->]].
    + now apply dict_get_in.
    + now apply dict_update_get.
Qed.

(** X17. Syncing the same listing a second time changes nothing, when
    the listing names each bookmark once: the second run reaches its end,
    leaves the database exactly as the first one left it and prints and
    calls the same. *)
Theorem bookmarks_resync_changes_nothing world auth folder d s1 entries :
  run (bookmarks world auth folder) d = (Ok tt, s1) ->
  get_bookmarks_result world folder 500 = Return entries ->
  NoDup (map (fun e => dict_get e "bookmark_id") entries) ->
  exists s2,
    run (bookmarks world auth folder) (st_db s1) = (Ok tt, s2)
    /\ st_db s2 = st_db s1
    /\ st_out s2 = st_out s1.
Proof.
  intros Hrun Hlist Hnd.
  rewrite bookmarks_run in Hrun. rewrite bookmarks_run.
  destruct (read_credentials auth) as [c|e];
    [|destruct (is_KeyError_or_FileNotFoundError e); discriminate].
  destruct (login_result world c) as [[]|]; [|discriminate].
  rewrite Hlist in *.
  destruct (map_res project entries) as [records|] eqn:Hproj; [|discriminate].
  apply map_res_Forall2 in Hproj.
  assert (Hids : map (fun r => dict_get r "bookmark_id") (map (with_folder folder) records)
                 = map (fun e => dict_get e "bookmark_id") entries).
  { apply Forall2_map_eq. apply Forall2_map_r.
    eapply Forall2_impl; [|exact Hproj]. intros e rec Hp. cbv beta.
    destruct (project_with_folder e rec folder Hp) as (_ & _ & _ & Hget).
    apply Hget. now left. }
  assert (Hkeys : forall record, In record (map (with_folder folder) records) ->
                                 NoDup (dict_keys (record_fields record))).
  { intros record Hin. apply in_map_iff in Hin as (rec & <- & Hin).
    destruct (Forall2_partner _ _ _ _ Hproj Hin) as (e & _ & Hp).
    destruct (project_with_folder e rec folder Hp) as (_ & Hk & _).
    rewrite record_fields_keys, Hk. apply NoDup_filter, BOOKMARK_KEYS_NoDup. }
  rewrite <- Hids in Hnd. clear Hids.
  destruct (map (with_folder folder) records) as [|r rs].
  - injection Hrun as <-. eexists. split; [reflexivity | auto].
  - destruct (upsert_all (r :: rs) (bookmark_rows d)) as [tbl|] eqn:Hup; [|discriminate].
    injection Hrun as <-. cbn [st_db st_out].
    change (bookmark_rows (mk_database (Some tbl) (bookmark_text_table d))) with tbl.
    cbn [bookmark_text_table].
    assert (Hsame : upsert_all (r :: rs) tbl = Return tbl).
    { apply upsert_all_absorbed. intros record Hin.
      exact (upsert_all_holds _ _ _ record Hup Hnd Hin (Hkeys record Hin)). }
    rewrite Hsame. eexists. split; [reflexivity | auto].
Qed.

Lemma bookmarks_resync_changes_nothing_witness :
  st_db (snd (run (bookmarks (listing_remote [sample_entry 7 "Old title";
                                              sample_entry 2 "New title"])
                             sample_auth "archive")
                  (st_db (snd (run (bookmarks (listing_remote [sample_entry 7 "Old title";
                                                               sample_entry 2 "New title"])
                                              sample_auth "archive") three_bookmarks)))))
  = st_db (snd (run (bookmarks (listing_remote [sample_entry 7 "Old title";
                                                sample_entry 2 "New title"])
                               sample_auth "archive") three_bookmarks)).
Proof.
  destruct (bookmarks_resync_changes_nothing
              (listing_remote [sample_entry 7 "Old title"; sample_entry 2 "New title"])
              sample_auth "archive" three_bookmarks
              (snd (run (bookmarks (listing_remote [sample_entry 7 "Old title";
                                                    sample_entry 2 "New title"])
                                   sample_auth "archive") three_bookmarks))
              [sample_entry 7 "Old title"; sample_entry 2 "New title"])
    as (s2 & Hrun2 & Hdb & _).
  - vm_compute. reflexivity.
  - reflexivity.
  - repeat constructor; simpl; intuition discriminate.
  - rewrite Hrun2. exact Hdb.
Defined.

(** ** A listing that cannot be projected *)

Lemma map_res_fails {A B} (f : A -> result B) l x e0 :
  In x l -> f x = Throw e0 ->
  exists y e, In y l /\ f y = Throw e /\ map_res f l = Throw e.
Proof.
  induction l as [|a l IH]; intros Hin Hx; [destruct Hin|].
  simpl. unfold and_then.
  destruct (f a) as [b|e] eqn:Ea.
  - destruct Hin as [->|Hin]; [congruence|].
    destruct (IH Hin Hx) as (y & e & Hy & Hfy & ->).
    exists y, e. auto.
  - exists a, e. auto.
Qed.

(** X18. One remote bookmark that lacks one of the eleven attributes
    aborts the whole sync: line 113 raises [AttributeError] for an
    attribute of [BOOKMARK_KEYS] before anything is stored, so the
    database is left as it was, also for the bookmarks of the listing that
    are complete, and the download count is never printed. *)
Theorem bookmarks_missing_attribute_aborts world auth folder d c entries entry key :
  read_credentials auth = Return c ->
  login_result world c = Return tt ->
  get_bookmarks_result world folder 500 = Return entries ->
  In entry entries ->
  In key BOOKMARK_KEYS ->
  dict_get entry key = None ->
  exists key',
    In key' BOOKMARK_KEYS
    /\ run (bookmarks world auth folder) d
       = (Raise (AttributeError key'), mk_state d (bookmarks_log folder c)).
Proof.
  intros Hc Hlogin Hlist Hentry Hkey Hnone.
  rewrite bookmarks_run, Hc, Hlogin, Hlist.
  assert (Hfail : exists e, project entry = Throw e).
  { unfold project.
    destruct (map_res_fails (fun k => let* v := getattr entry k in Return (k, v))
                BOOKMARK_KEYS key (AttributeError key) Hkey) as (y & e & _ & _ & ->).
    - unfold getattr, and_then. now rewrite Hnone.
    - eauto. }
  destruct Hfail as [e0 He0].
  destruct (map_res_fails project entries entry e0 Hentry He0) as (y & e & _ & Hy & ->).
  unfold project in Hy.
  destruct (map_res (fun k => let* v := getattr y k in Return (k, v)) BOOKMARK_KEYS)
    as [|e'] eqn:Hm; [discriminate|]. injection Hy as ->.
  assert (Hwhich : exists k, In k BOOKMARK_KEYS /\ e = AttributeError k).
  { clear - Hm. revert Hm. generalize BOOKMARK_KEYS as keys.
    induction keys as [|k keys IH]; simpl; [discriminate|].
    unfold and_then, getattr.
    destruct (dict_get y k).
    - destruct (map_res _ keys) eqn:E; [discriminate|].
      intros [= <-]. destruct (IH eq_refl) as (k' & Hk' & ->). exists k'. auto.
    - intros [= <-]. exists k. auto. }
  destruct Hwhich as (k & Hk & ->). exists k. auto.
Qed.

Lemma bookmarks_missing_attribute_aborts_witness :
  exists key',
    run (bookmarks (listing_remote [sample_entry 7 "Old title"; [("bookmark_id", PyInt 8)]])
                   sample_auth "archive") three_bookmarks
    = (Raise (AttributeError key'),
       mk_state three_bookmarks (bookmarks_log "archive" sample_credentials)).
Proof.
  destruct (bookmarks_missing_attribute_aborts
              (listing_remote [sample_entry 7 "Old title"; [("bookmark_id", PyInt 8)]])
              sample_auth "archive" three_bookmarks sample_credentials
              [sample_entry 7 "Old title"; [("bookmark_id", PyInt 8)]]
              [("bookmark_id", PyInt 8)] "url")
    as (key' & _ & Hrun).
  - reflexivity.
  - reflexivity.
  - reflexivity.
  - right. now left.
  - vm_compute. tauto.
  - reflexivity.
  - exists key'. exact Hrun.
Defined.
